(** * bridge_configurator: src/utils/ipUtils.js

    A shallow embedding of the IP / subnet toolkit of the repository and of
    the parts of its one dependency, the npm package ipaddr.js (2.x), that
    the toolkit calls.  JavaScript strings are modelled as [string]
    (characters are code units below 256), integer-valued Numbers as [Z],
    a Number that may be NaN as [option Z], and exceptions with the error
    monad [result]. *)

From Stdlib Require Import ZArith List String Ascii Bool Lia.
Import ListNotations.
Open Scope string_scope.
Open Scope Z_scope.

(** ** Exceptions *)

Inductive result (A : Type) : Type :=
| Ok (a : A)
| Throw (e : string).
Arguments Ok {A} a.
Arguments Throw {A} e.

Definition bind {A B : Type} (c : result A) (k : A -> result B) : result B :=
  match c with
  | Ok a => k a
  | Throw e => Throw e
  end.

Notation "x <- c ;; k" := (bind c (fun x => k))
  (at level 61, c at next level, right associativity).

(** [try { c } catch (e) { h }] *)
Definition try_catch {A : Type} (c : result A) (h : A) : A :=
  match c with
  | Ok a => a
  | Throw _ => h
  end.

(** ** Regular expressions

    A backtracking matcher for the fragment of ECMAScript regular
    expressions that ipaddr.js and ipUtils.js use: character classes,
    sequence, ordered alternation, greedy repetition, capture groups and
    the end-of-input assertion. *)
Module RegExp.

Inductive regex : Type :=
| Eps
| Chr (p : ascii -> bool)
| Seq (r1 r2 : regex)
| Alt (r1 r2 : regex)
| Star (r : regex)
| Grp (i : nat) (r : regex)
| Eos.

Definition captures := list (nat * string).

Fixpoint cap (i : nat) (c : captures) : option string :=
  match c with
  | [] => None
  | (j, s) :: c' => if Nat.eqb i j then Some s else cap i c'
  end.

(** The text consumed between the input [s] and its suffix [s1]. *)
Definition consumed (s s1 : string) : string :=
  substring 0 (String.length s - String.length s1) s.

(** Greedy repetition of a matcher [m1]: one more iteration is tried
    first, and the continuation [k] when that fails.  An iteration that
    consumes nothing is not repeated, so the length of the input bounds
    the number [n] of iterations. *)
Fixpoint star_iter
         (m1 : string -> captures ->
               (string -> captures -> option (captures * string)) ->
               option (captures * string))
         (k : string -> captures -> option (captures * string))
         (n : nat) (s : string) (c : captures) {struct n}
  : option (captures * string) :=
  match n with
  | O => k s c
  | S n' =>
      match m1 s c (fun s1 c1 =>
                      if Nat.ltb (String.length s1) (String.length s)
                      then star_iter m1 k n' s1 c1 else None) with
      | Some x => Some x
      | None => k s c
      end
  end.

(** [rmatch r s c k]: match [r] at the start of [s] with the captures [c]
    so far, then continue with [k] on the rest of the input; a failing
    continuation makes the matcher backtrack. *)
Fixpoint rmatch (r : regex) (s : string) (c : captures)
         (k : string -> captures -> option (captures * string))
         {struct r} : option (captures * string) :=
  match r with
  | Eps => k s c
  | Chr p =>
      match s with
      | String a s' => if p a then k s' c else None
      | EmptyString => None
      end
  | Seq r1 r2 => rmatch r1 s c (fun s1 c1 => rmatch r2 s1 c1 k)
  | Alt r1 r2 =>
      match rmatch r1 s c k with
      | Some x => Some x
      | None => rmatch r2 s c k
      end
  | Star r1 => star_iter (rmatch r1) k (String.length s) s c
  | Grp i r1 => rmatch r1 s c (fun s1 c1 => k s1 ((i, consumed s s1) :: c1))
  | Eos =>
      match s with
      | EmptyString => k s c
      | String _ _ => None
      end
  end.

Definition Opt (r : regex) : regex := Alt r Eps.
Definition Plus (r : regex) : regex := Seq r (Star r).
Fixpoint Seqs (l : list regex) : regex :=
  match l with
  | [] => Eps
  | [r] => r
  | r :: l' => Seq r (Seqs l')
  end.

(** [string.match(/^.../)]: the pattern is tried at position 0 only. *)
Definition exec (r : regex) (s : string) : option (captures * string) :=
  rmatch r s [] (fun s1 c1 => Some (c1, s1)).

Definition test (r : regex) (s : string) : bool :=
  match exec r s with Some _ => true | None => false end.

(** A pattern without [^]: the leftmost position where it matches;
    returns the text before the match and the matched text. *)
Fixpoint search_from (r : regex) (pre s : string) (n : nat)
  : option (string * string) :=
  match exec r s with
  | Some (_, rest) => Some (pre, consumed s rest)
  | None =>
      match n, s with
      | S n', String a s' => search_from r (pre ++ String a "") s' n'
      | _, _ => None
      end
  end.

Definition search (r : regex) (s : string) : option (string * string) :=
  search_from r "" s (String.length s).

(** Character classes. *)
Definition between (lo hi c : ascii) : bool :=
  (N_of_ascii lo <=? N_of_ascii c)%N && (N_of_ascii c <=? N_of_ascii hi)%N.
Definition lit (a c : ascii) : bool := Ascii.eqb a c.
Definition digit (c : ascii) : bool := between "0" "9" c.
(** [[a-f0-9]] under the [i] flag *)
Definition hex_i (c : ascii) : bool :=
  digit c || between "a" "f" c || between "A" "F" c.
(** [[0-9a-z]] under the [i] flag *)
Definition alnum_i (c : ascii) : bool :=
  digit c || between "a" "z" c || between "A" "Z" c.
(** [.]: anything but a line terminator *)
Definition dot (c : ascii) : bool :=
  negb (lit "010" c || lit "013" c).

End RegExp.

(** ** JavaScript built-ins used by the two files *)
Module JS.

(** A Number that may be NaN; [None] is NaN. *)
Definition number := option Z.

(** A [{string|number}] argument; numbers are the integers whose
    [String(n)] is plain decimal (magnitude below 10^21). *)
Inductive value : Type :=
| VNum (n : Z)
| VStr (s : string).

(** [!v] *)
Definition falsy (v : value) : bool :=
  match v with
  | VNum n => n =? 0
  | VStr s => match s with EmptyString => true | String _ _ => false end
  end.

(** WhiteSpace and LineTerminator code units below 256. *)
Definition is_white (c : ascii) : bool :=
  let n := N_of_ascii c in
  ((9 <=? n) && (n <=? 13) || (n =? 32) || (n =? 160))%N.

Fixpoint trimStart (s : string) : string :=
  match s with
  | EmptyString => EmptyString
  | String a s' => if is_white a then trimStart s' else s
  end.

Fixpoint trimEnd (s : string) : string :=
  match s with
  | EmptyString => EmptyString
  | String a s' =>
      match trimEnd s' with
      | EmptyString => if is_white a then EmptyString else String a EmptyString
      | t => String a t
      end
  end.

Definition trim (s : string) : string := trimEnd (trimStart s).

Definition digit_val (c : ascii) : option Z :=
  let n := Z.of_N (N_of_ascii c) in
  if (48 <=? n) && (n <=? 57) then Some (n - 48)
  else if (97 <=? n) && (n <=? 122) then Some (n - 87)
  else if (65 <=? n) && (n <=? 90) then Some (n - 55)
  else None.

(** The value of the longest prefix of [s] made of digits of the radix,
    NaN when that prefix is empty. *)
Fixpoint digits_prefix (radix : Z) (acc : number) (s : string) : number :=
  match s with
  | EmptyString => acc
  | String a s' =>
      match digit_val a with
      | Some d =>
          if d <? radix
          then digits_prefix radix
                 (Some (match acc with Some v => v * radix + d | None => d end)) s'
          else acc
      | None => acc
      end
  end.

Definition starts_with_0x (s : string) : bool :=
  match s with
  | String "0" (String "x" _) => true
  | String "0" (String "X" _) => true
  | _ => false
  end.

Definition drop2 (s : string) : string :=
  match s with
  | String _ (String _ r) => r
  | _ => EmptyString
  end.

(** [parseInt(s, radix)]; radix 0 stands for an absent radix. *)
Definition parseInt (s : string) (radix : Z) : number :=
  let s := trimStart s in
  let '(sign, s) :=
    match s with
    | String "-" r => (-1, r)
    | String "+" r => (1, r)
    | _ => (1, s)
    end in
  if negb (radix =? 0) && ((radix <? 2) || (36 <? radix)) then None
  else
    let strip := (radix =? 0) || (radix =? 16) in
    let R := if radix =? 0 then 10 else radix in
    let '(R, s) := if strip && starts_with_0x s then (16, drop2 s) else (R, s) in
    match digits_prefix R None s with
    | Some v => Some (sign * v)
    | None => None
    end.

Definition digit_char (d : Z) : ascii := ascii_of_N (Z.to_N (48 + d)).

Fixpoint digits_fuel (fuel : nat) (n : Z) (acc : string) : string :=
  let acc' := String (digit_char (n mod 10)) acc in
  match fuel with
  | O => acc'
  | S f => if n <? 10 then acc' else digits_fuel f (n / 10) acc'
  end.

Definition digits (n : Z) : string :=
  digits_fuel (Z.to_nat (Z.log2 n)) n EmptyString.

(** [String(n)] and the template literal [`${n}`] for an integer [n]. *)
Definition Number_toString (n : Z) : string :=
  if n <? 0 then String "-" (digits (- n)) else digits n.

(** [String(v)] *)
Definition String_ (v : value) : string :=
  match v with
  | VNum n => Number_toString n
  | VStr s => s
  end.

Definition ToInt32 (v : number) : Z :=
  match v with
  | None => 0
  | Some z => (z + 2 ^ 31) mod 2 ^ 32 - 2 ^ 31
  end.

(** [a >> s], [a << s], [a & b], [a | b], [a ^ b] *)
Definition shr (a : number) (s : Z) : Z := Z.shiftr (ToInt32 a) (s mod 32).
Definition shl (a : number) (s : Z) : Z :=
  ToInt32 (Some (Z.shiftl (ToInt32 a) (s mod 32))).
Definition band (a b : number) : Z := Z.land (ToInt32 a) (ToInt32 b).
Definition bor (a b : number) : Z := Z.lor (ToInt32 a) (ToInt32 b).
Definition bxor (a b : number) : Z := Z.lxor (ToInt32 a) (ToInt32 b).

(** Comparisons of Numbers: false as soon as one side is NaN. *)
Definition le (a b : number) : bool :=
  match a, b with Some x, Some y => x <=? y | _, _ => false end.
Definition lt (a b : number) : bool :=
  match a, b with Some x, Some y => x <? y | _, _ => false end.
Definition gt (a b : number) : bool := lt b a.

Import RegExp.

(** StringNumericLiteral, the grammar of [ToNumber] on a string whose
    white space has been stripped: the empty string, a signed decimal
    literal or [Infinity], or an unsigned binary, octal or hexadecimal
    integer. *)
Definition exponent : regex :=
  Seqs [Chr (fun c => lit "e" c || lit "E" c);
        Opt (Chr (fun c => lit "+" c || lit "-" c));
        Plus (Chr digit)].

Definition word (w : string) : regex :=
  Seqs (map (fun a => Chr (lit a)) (list_ascii_of_string w)).

Definition StrUnsignedDecimalLiteral : regex :=
  Alt (word "Infinity")
   (Alt (Seqs [Plus (Chr digit); Opt (Seq (Chr (lit ".")) (Star (Chr digit)));
               Opt exponent])
        (Seqs [Chr (lit "."); Plus (Chr digit); Opt exponent])).

Definition StringNumericLiteral : regex :=
  Seq
   (Alt (Seq (Opt (Chr (fun c => lit "+" c || lit "-" c)))
             StrUnsignedDecimalLiteral)
    (Alt (Seqs [Chr (lit "0"); Chr (fun c => lit "x" c || lit "X" c);
                Plus (Chr hex_i)])
    (Alt (Seqs [Chr (lit "0"); Chr (fun c => lit "o" c || lit "O" c);
                Plus (Chr (between "0" "7"))])
    (Alt (Seqs [Chr (lit "0"); Chr (fun c => lit "b" c || lit "B" c);
                Plus (Chr (between "0" "1"))])
         Eps))))
   Eos.

(** [isNaN(s)] for a string [s]: [ToNumber(s)] is NaN exactly when the
    trimmed string is not a StringNumericLiteral. *)
Definition isNaN (s : string) : bool := negb (test StringNumericLiteral (trim s)).

(** String methods. *)
Fixpoint startsWith (p s : string) : bool :=
  match p, s with
  | EmptyString, _ => true
  | String a p', String b s' => Ascii.eqb a b && startsWith p' s'
  | String _ _, EmptyString => false
  end.

Fixpoint drop (n : nat) (s : string) : string :=
  match n, s with
  | O, _ => s
  | S n', String _ s' => drop n' s'
  | S _, EmptyString => EmptyString
  end.

Definition endsWith (p s : string) : bool :=
  Nat.leb (String.length p) (String.length s)
  && String.eqb (drop (String.length s - String.length p) s) p.

(** [s.indexOf(p)], -1 when absent *)
Fixpoint indexOf_from (p s : string) (i : Z) : Z :=
  if startsWith p s then i
  else match s with
       | EmptyString => -1
       | String _ s' => indexOf_from p s' (i + 1)
       end.
Definition indexOf (p s : string) : Z := indexOf_from p s 0.

(** [s.lastIndexOf(p)], -1 when absent *)
Fixpoint lastIndexOf_from (p s : string) (i : Z) (last : Z) : Z :=
  let last' := if startsWith p s then i else last in
  match s with
  | EmptyString => last'
  | String _ s' => lastIndexOf_from p s' (i + 1) last'
  end.
Definition lastIndexOf (p s : string) : Z := lastIndexOf_from p s 0 (-1).

(** [s.replace(p, r)] with a string pattern: the first occurrence. *)
Fixpoint replace (p r s : string) : string :=
  if startsWith p s then r ++ drop (String.length p) s
  else match s with
       | EmptyString => EmptyString
       | String a s' => String a (replace p r s')
       end.

(** [s.split(c)] for a one-character separator *)
Fixpoint split (c : ascii) (s : string) : list string :=
  match s with
  | EmptyString => [EmptyString]
  | String a s' =>
      if Ascii.eqb a c then EmptyString :: split c s'
      else match split c s' with
           | [] => [String a EmptyString]
           | w :: l => String a w :: l
           end
  end.

(** [l.join(sep)] *)
Definition join (sep : string) (l : list string) : string := String.concat sep l.

(** [s.slice(0, -1)] *)
Fixpoint slice_0_m1 (s : string) : string :=
  match s with
  | EmptyString => EmptyString
  | String a EmptyString => EmptyString
  | String a s' => String a (slice_0_m1 s')
  end.

(** [s.slice(1)], [s.substring(1)] *)
Definition slice_1 (s : string) : string := drop 1 s.

Fixpoint last_char (s : string) : option ascii :=
  match s with
  | EmptyString => None
  | String a EmptyString => Some a
  | String _ s' => last_char s'
  end.

Fixpoint count_char (c : ascii) (s : string) : Z :=
  match s with
  | EmptyString => 0
  | String a s' => (if Ascii.eqb a c then 1 else 0) + count_char c s'
  end.

End JS.

(** ** ipaddr.js

    The functions of the dependency ([import ipaddr from 'ipaddr.js']) that
    ipUtils.js reaches, after the source of ipaddr.js 2.x (lib/ipaddr.js):
    its patterns, [expandIPv6], [matchCIDR], [parseIntAuto], the IPv4 and
    IPv6 constructors, parsers and prototype methods, and [subnetMatch]. *)
Module ipaddr.
Import RegExp JS.

Inductive kind : Type := ipv4 | ipv6.

Definition kind_eqb (a b : kind) : bool :=
  match a, b with
  | ipv4, ipv4 | ipv6, ipv6 => true
  | _, _ => false
  end.

(** An IPv4 object holds four octets, an IPv6 object eight 16-bit parts
    and an optional zone id. *)
Record IPv4_t : Type := mkIPv4 { octets : list Z }.
Record IPv6_t : Type := mkIPv6 { parts : list Z; zoneId : option string }.

Inductive addr : Type :=
| V4 (a : IPv4_t)
| V6 (a : IPv6_t).

Definition addr_kind (a : addr) : kind :=
  match a with
  | V4 _ => ipv4
  | V6 _ => ipv6
  end.

(** [const ipv4Part = '(0?\\d+|0x[a-f0-9]+)'], flag [i]; [i] numbers the
    capture group. *)
Definition ipv4Part (i : nat) : regex :=
  Grp i (Alt (Seq (Opt (Chr (lit "0"))) (Plus (Chr digit)))
             (Seqs [Chr (lit "0"); Chr (fun c => lit "x" c || lit "X" c);
                    Plus (Chr hex_i)])).

Definition fourOctet : regex :=
  Seqs [ipv4Part 1; Chr (lit "."); ipv4Part 2; Chr (lit ".");
        ipv4Part 3; Chr (lit "."); ipv4Part 4; Eos].
Definition threeOctet : regex :=
  Seqs [ipv4Part 1; Chr (lit "."); ipv4Part 2; Chr (lit "."); ipv4Part 3; Eos].
Definition twoOctet : regex :=
  Seqs [ipv4Part 1; Chr (lit "."); ipv4Part 2; Eos].
Definition longValue : regex :=
  Seqs [ipv4Part 1; Eos].

(** [/^0[0-7]+$/i] and [/^0x[a-f0-9]+$/i] *)
Definition octalRegex : regex :=
  Seqs [Chr (lit "0"); Plus (Chr (between "0" "7")); Eos].
Definition hexRegex : regex :=
  Seqs [Chr (lit "0"); Chr (fun c => lit "x" c || lit "X" c);
        Plus (Chr hex_i); Eos].

(** [const zoneIndex = '%[0-9a-z]{1,}'] *)
Definition zoneIndex : regex := Seq (Chr (lit "%")) (Plus (Chr alnum_i)).

(** [const ipv6Part = '(?:[0-9a-f]+::?)+'] *)
Definition ipv6Part : regex :=
  Plus (Seqs [Plus (Chr hex_i); Chr (lit ":"); Opt (Chr (lit ":"))]).

Definition colons : regex := Seq (Chr (lit ":")) (Chr (lit ":")).

(** [^(::)?(ipv6Part)?([0-9a-f]+)?(::)?(zoneIndex)?$] *)
Definition native : regex :=
  Seqs [Opt (Grp 1 colons); Opt (Grp 2 ipv6Part); Opt (Grp 3 (Plus (Chr hex_i)));
        Opt (Grp 4 colons); Opt (Grp 5 zoneIndex); Eos].

(** [^(?:::)(ipv4Part\.ipv4Part\.ipv4Part\.ipv4Part(zoneIndex)?)$] *)
Definition deprecatedTransitional : regex :=
  Seqs [colons;
        Grp 1 (Seqs [ipv4Part 2; Chr (lit "."); ipv4Part 3; Chr (lit ".");
                     ipv4Part 4; Chr (lit "."); ipv4Part 5;
                     Opt (Grp 6 zoneIndex)]);
        Eos].

(** [^((?:ipv6Part)|(?:::)(?:ipv6Part)?)ipv4Part\.ipv4Part\.ipv4Part\.ipv4Part(zoneIndex)?$] *)
Definition transitional : regex :=
  Seqs [Grp 1 (Alt ipv6Part (Seq colons (Opt ipv6Part)));
        ipv4Part 2; Chr (lit "."); ipv4Part 3; Chr (lit ".");
        ipv4Part 4; Chr (lit "."); ipv4Part 5;
        Opt (Grp 6 zoneIndex); Eos].

Record expanded : Type := mkExpanded { e_parts : list number; e_zoneId : option string }.

Fixpoint repeat_string (n : nat) (s : string) : string :=
  match n with
  | O => EmptyString
  | S n' => s ++ repeat_string n' s
  end.

(** [function expandIPv6 (string, parts)]: [None] is the [null] result. *)
Definition expandIPv6 (string_ : string) (parts_ : Z) : option expanded :=
  if negb (indexOf "::" string_ =? lastIndexOf "::" string_) then None
  else
    let zone := match search zoneIndex string_ with
                | Some (_, m) => Some m
                | None => None
                end in
    let '(zone, str) :=
      match zone with
      | Some z =>
          (Some (slice_1 z),
           match search (Seqs [Chr (lit "%"); Plus (Chr dot); Eos]) string_ with
           | Some (pre, _) => pre
           | None => string_
           end)
      | None => (None, string_)
      end in
    let colonCount := count_char ":" str in
    let colonCount := if startsWith "::" str then colonCount - 1 else colonCount in
    let colonCount := if endsWith "::" str then colonCount - 1 else colonCount in
    if parts_ <? colonCount then None
    else
      let replacement :=
        ":" ++ repeat_string (Z.to_nat (parts_ - colonCount)) "0:" in
      let str := replace "::" replacement str in
      let str := match str with String ":" r => r | _ => str end in
      let str := match last_char str with
                 | Some ":"%char => slice_0_m1 str
                 | _ => str
                 end in
      Some (mkExpanded (map (fun p => parseInt p 16) (split ":" str)) zone).

(** [function matchCIDR (first, second, partSize, cidrBits)]: the [while]
    loop, with [fuel] bounding its iterations; [None] when the fuel runs
    out. *)
Fixpoint matchCIDR_loop (fuel : nat) (first second : list Z)
         (partSize cidrBits : Z) (part : nat) : option bool :=
  if 0 <? cidrBits then
    match fuel with
    | O => None
    | S f =>
        let shift := partSize - cidrBits in
        let shift := if shift <? 0 then 0 else shift in
        if negb (shr (nth_error first part) shift =? shr (nth_error second part) shift)
        then Some false
        else matchCIDR_loop f first second partSize (cidrBits - partSize) (S part)
    end
  else Some true.

Definition matchCIDR (first second : list Z) (partSize cidrBits : Z) : result bool :=
  if negb (Nat.eqb (List.length first) (List.length second))
  then Throw "ipaddr: cannot match CIDR for objects with different lengths"
  else match matchCIDR_loop (Z.to_nat cidrBits) first second partSize cidrBits 0 with
       | Some b => Ok b
       | None => Throw "matchCIDR: out of fuel"
       end.

(** [function parseIntAuto (string)] *)
Definition parseIntAuto (s : string) : result number :=
  if test hexRegex s then Ok (parseInt s 16)
  else
    let second := match s with
                  | String _ (String b _) => parseInt (String b EmptyString) 10
                  | _ => None
                  end in
    if startsWith "0" s && match second with Some _ => true | None => false end
    then if test octalRegex s then Ok (parseInt s 8)
         else Throw ("ipaddr: cannot parse " ++ s ++ " as octal")
    else Ok (parseInt s 10).

Fixpoint mapM {A B : Type} (f : A -> result B) (l : list A) : result (list B) :=
  match l with
  | [] => Ok []
  | a :: l' => b <- f a ;; r <- mapM f l' ;; Ok (b :: r)
  end.

(** [match[i]], the empty string standing for a group that did not take
    part. *)
Definition grp (i : nat) (c : captures) : string :=
  match cap i c with Some s => s | None => EmptyString end.

(** [IPv4.prototype.match] and [IPv6.prototype.match] *)
Definition IPv4_match (this : IPv4_t) (other : addr) (cidrRange : Z) : result bool :=
  match other with
  | V4 o => matchCIDR (octets this) (octets o) 8 cidrRange
  | V6 _ => Throw "ipaddr: cannot match ipv4 address with non-ipv4 one"
  end.

Definition IPv6_match (this : IPv6_t) (other : addr) (cidrRange : Z) : result bool :=
  match other with
  | V6 o => matchCIDR (parts this) (parts o) 16 cidrRange
  | V4 _ => Throw "ipaddr: cannot match ipv6 address with non-ipv6 one"
  end.

Definition match_ (this other : addr) (cidrRange : Z) : result bool :=
  match this with
  | V4 a => IPv4_match a other cidrRange
  | V6 a => IPv6_match a other cidrRange
  end.

(** [ipaddr.subnetMatch (address, rangeList, defaultName)]: the ranges in
    the order of the table's keys. *)
Fixpoint subnetMatch_subnets (address : addr) (subnets : list (addr * Z)) : result bool :=
  match subnets with
  | [] => Ok false
  | (a, bits) :: rest =>
      if kind_eqb (addr_kind address) (addr_kind a)
      then b <- match_ address a bits ;;
           if b then Ok true else subnetMatch_subnets address rest
      else subnetMatch_subnets address rest
  end.

Fixpoint subnetMatch (address : addr) (rangeList : list (string * list (addr * Z)))
         (defaultName : string) : result string :=
  match rangeList with
  | [] => Ok defaultName
  | (rangeName, rangeSubnets) :: rest =>
      b <- subnetMatch_subnets address rangeSubnets ;;
      if b then Ok rangeName else subnetMatch address rest defaultName
  end.

Definition in_byte (o : number) : bool := JS.le (Some 0) o && JS.le o (Some 255).
Definition in_word (o : number) : bool := JS.le (Some 0) o && JS.le o (Some 65535).
Definition num_val (o : number) : Z := match o with Some z => z | None => 0 end.

Module IPv4.

(** [function IPv4 (octets)] *)
Definition new (octets_ : list number) : result IPv4_t :=
  if negb (Nat.eqb (List.length octets_) 4)
  then Throw "ipaddr: ipv4 octet count should be 4"
  else if forallb in_byte octets_
       then Ok (mkIPv4 (map num_val octets_))
       else Throw "ipaddr: ipv4 octet should fit in 8 bits".

Definition v4 (a b c d : Z) : addr := V4 (mkIPv4 [a; b; c; d]).

(** [IPv4.prototype.SpecialRanges] *)
Definition SpecialRanges : list (string * list (addr * Z)) :=
  [("unspecified", [(v4 0 0 0 0, 8)]);
   ("broadcast", [(v4 255 255 255 255, 32)]);
   ("multicast", [(v4 224 0 0 0, 4)]);
   ("linkLocal", [(v4 169 254 0 0, 16)]);
   ("loopback", [(v4 127 0 0 0, 8)]);
   ("carrierGradeNat", [(v4 100 64 0 0, 10)]);
   ("private", [(v4 10 0 0 0, 8); (v4 172 16 0 0, 12); (v4 192 168 0 0, 16)]);
   ("reserved", [(v4 192 0 0 0, 24); (v4 192 0 2 0, 24); (v4 192 88 99 0, 24);
                 (v4 198 18 0 0, 15); (v4 198 51 100 0, 24); (v4 203 0 113 0, 24);
                 (v4 240 0 0 0, 4)]);
   ("as112", [(v4 192 175 48 0, 24); (v4 192 31 196 0, 24)]);
   ("amt", [(v4 192 52 193 0, 24)])].

Definition kind_ (this : IPv4_t) : kind := ipv4.

Definition match_ := IPv4_match.

Definition zerotable (octet : Z) : option Z :=
  match octet with
  | 0 => Some 8
  | 128 => Some 7
  | 192 => Some 6
  | 224 => Some 5
  | 240 => Some 4
  | 248 => Some 3
  | 252 => Some 2
  | 254 => Some 1
  | 255 => Some 0
  | _ => None
  end.

(** The loop of [prefixLengthFromSubnetMask] over the indices [3, 2, 1, 0]. *)
Fixpoint prefixLength_loop (this : IPv4_t) (idx : list nat) (cidr : Z) (stop : bool)
  : option Z :=
  match idx with
  | [] => Some (32 - cidr)
  | i :: rest =>
      match nth_error (octets this) i with
      | Some octet =>
          match zerotable octet with
          | Some zeros =>
              if stop && negb (zeros =? 0) then None
              else prefixLength_loop this rest (cidr + zeros)
                     (if negb (zeros =? 8) then true else stop)
          | None => None
          end
      | None => None
      end
  end.

(** [IPv4.prototype.prefixLengthFromSubnetMask]: [None] is [null]. *)
Definition prefixLengthFromSubnetMask (this : IPv4_t) : option Z :=
  prefixLength_loop this [3; 2; 1; 0]%nat 0 false.

Definition range (this : IPv4_t) : result string :=
  subnetMatch (V4 this) SpecialRanges "unicast".

Definition toByteArray (this : IPv4_t) : list Z := octets this.

Definition toString (this : IPv4_t) : string :=
  join "." (map Number_toString (octets this)).

(** [ipaddr.IPv4.parser]: [Ok None] is the [null] result. *)
Definition parser (s : string) : result (option (list number)) :=
  match exec fourOctet s with
  | Some (m, _) =>
      r <- mapM parseIntAuto [grp 1 m; grp 2 m; grp 3 m; grp 4 m] ;;
      Ok (Some r)
  | None =>
  match exec longValue s with
  | Some (m, _) =>
      value <- parseIntAuto (grp 1 m) ;;
      if JS.gt value (Some 4294967295) || JS.lt value (Some 0)
      then Throw "ipaddr: address outside defined range"
      else Ok (Some (rev (map (fun shift => Some (band (Some (shr value shift)) (Some 255)))
                              [0; 8; 16; 24])))
  | None =>
  match exec twoOctet s with
  | Some (m, _) =>
      value <- parseIntAuto (grp 2 m) ;;
      if JS.gt value (Some 16777215) || JS.lt value (Some 0)
      then Throw "ipaddr: address outside defined range"
      else
        first <- parseIntAuto (grp 1 m) ;;
        Ok (Some [first;
                  Some (band (Some (shr value 16)) (Some 255));
                  Some (band (Some (shr value 8)) (Some 255));
                  Some (band value (Some 255))])
  | None =>
  match exec threeOctet s with
  | Some (m, _) =>
      value <- parseIntAuto (grp 3 m) ;;
      if JS.gt value (Some 65535) || JS.lt value (Some 0)
      then Throw "ipaddr: address outside defined range"
      else
        first <- parseIntAuto (grp 1 m) ;;
        second <- parseIntAuto (grp 2 m) ;;
        Ok (Some [first; second;
                  Some (band (Some (shr value 8)) (Some 255));
                  Some (band value (Some 255))])
  | None => Ok None
  end end end end.

(** [new this(x)] where [x] may be [null]: reading [null.length] throws. *)
Definition new_nullable (p : option (list number)) : result IPv4_t :=
  match p with
  | Some l => new l
  | None => Throw "TypeError: Cannot read properties of null"
  end.

Definition isValid (s : string) : bool :=
  match p <- parser s ;; new_nullable p with
  | Ok _ => true
  | Throw _ => false
  end.

(** The pattern of [isValidFourPartDecimal]: a decimal part is [0] or a
    non-zero digit followed by digits; four parts separated by dots, the
    group [(\.part)] three times. *)
Definition decimalPart (i : nat) : regex :=
  Grp i (Alt (Chr (lit "0")) (Seq (Chr (between "1" "9")) (Star (Chr digit)))).
Definition fourPartDecimal : regex :=
  Seqs [decimalPart 1;
        Grp 2 (Seq (Chr (lit ".")) (decimalPart 3));
        Grp 2 (Seq (Chr (lit ".")) (decimalPart 3));
        Grp 2 (Seq (Chr (lit ".")) (decimalPart 3));
        Eos].

Definition isValidFourPartDecimal (s : string) : bool :=
  if isValid s && test fourPartDecimal s then true else false.

Definition parse (s : string) : result IPv4_t :=
  p <- parser s ;;
  match p with
  | None => Throw "ipaddr: string is not formatted like an IPv4 Address"
  | Some l => new l
  end.

(** [/^(.+)\/(\d+)$/] *)
Definition cidrRegex : regex :=
  Seqs [Grp 1 (Plus (Chr dot)); Chr (lit "/"); Grp 2 (Plus (Chr digit)); Eos].

Definition parseCIDR (s : string) : result (IPv4_t * Z) :=
  match exec cidrRegex s with
  | Some (m, _) =>
      let maskLength := parseInt (grp 2 m) 0 in
      if JS.le (Some 0) maskLength && JS.le maskLength (Some 32)
      then a <- parse (grp 1 m) ;; Ok (a, num_val maskLength)
      else Throw "ipaddr: string is not formatted like an IPv4 CIDR range"
  | None => Throw "ipaddr: string is not formatted like an IPv4 CIDR range"
  end.

Fixpoint set_nth (i : nat) (v : Z) (l : list Z) : list Z :=
  match l, i with
  | [], _ => []
  | _ :: l', O => v :: l'
  | a :: l', S i' => a :: set_nth i' v l'
  end.

Definition subnetMaskFromPrefixLength (prefix_ : Z) : result IPv4_t :=
  let prefix_ := parseInt (Number_toString prefix_) 0 in
  if JS.lt prefix_ (Some 0) || JS.gt prefix_ (Some 32)
  then Throw "ipaddr: invalid IPv4 prefix length"
  else
    match prefix_ with
    | None => new [Some 0; Some 0; Some 0; Some 0]
    | Some p =>
        let filledOctetCount := p / 8 in
        let octets_ := map (fun j => if j <? filledOctetCount then 255 else 0)
                           [0; 1; 2; 3] in
        let octets_ :=
          if filledOctetCount <? 4
          then set_nth (Z.to_nat filledOctetCount)
                       (shl (Some (2 ^ (p mod 8) - 1)) (8 - p mod 8)) octets_
          else octets_ in
        new (map Some octets_)
    end.

(** [parseInt(bytes[i], 10)] *)
Definition byte_at (bytes : list Z) (i : nat) : number :=
  match nth_error bytes i with
  | Some b => parseInt (Number_toString b) 10
  | None => None
  end.

Definition networkAddressFromCIDR (s : string) : result IPv4_t :=
  match
    cidr <- parseCIDR s ;;
    let ipInterfaceOctets := toByteArray (fst cidr) in
    mask <- subnetMaskFromPrefixLength (snd cidr) ;;
    let subnetMaskOctets := toByteArray mask in
    new (map (fun i => Some (band (byte_at ipInterfaceOctets i)
                                  (byte_at subnetMaskOctets i)))
             [0; 1; 2; 3]%nat)
  with
  | Ok a => Ok a
  | Throw _ => Throw "ipaddr: the address does not have IPv4 CIDR format"
  end.

Definition broadcastAddressFromCIDR (s : string) : result IPv4_t :=
  match
    cidr <- parseCIDR s ;;
    let ipInterfaceOctets := toByteArray (fst cidr) in
    mask <- subnetMaskFromPrefixLength (snd cidr) ;;
    let subnetMaskOctets := toByteArray mask in
    new (map (fun i => Some (bor (byte_at ipInterfaceOctets i)
                                 (Some (bxor (byte_at subnetMaskOctets i) (Some 255)))))
             [0; 1; 2; 3]%nat)
  with
  | Ok a => Ok a
  | Throw _ => Throw "ipaddr: the address does not have IPv4 CIDR format"
  end.

End IPv4.

Module IPv6.

(** [function IPv6 (parts, zoneId)] *)
Definition new (parts_ : list number) (zoneId_ : option string) : result IPv6_t :=
  let joined :=
    if Nat.eqb (List.length parts_) 16
    then Some (map (fun i => Some (bor (Some (shl (nth i parts_ None) 8))
                                       (nth (S i) parts_ None)))
                   [0; 2; 4; 6; 8; 10; 12; 14]%nat)
    else if Nat.eqb (List.length parts_) 8 then Some parts_
    else None in
  match joined with
  | None => Throw "ipaddr: ipv6 part count should be 8 or 16"
  | Some ps =>
      if forallb in_word ps
      then Ok (mkIPv6 (map num_val ps)
                 (match zoneId_ with
                  | Some EmptyString => None
                  | z => z
                  end))
      else Throw "ipaddr: ipv6 part should fit in 16 bits"
  end.

Definition v6 (a b c d e f g h : Z) : addr := V6 (mkIPv6 [a; b; c; d; e; f; g; h] None).

(** [IPv6.prototype.SpecialRanges]; a range given as one [[address, bits]]
    pair is the one-element list that [subnetMatch] makes of it. *)
Definition SpecialRanges : list (string * list (addr * Z)) :=
  [("unspecified", [(v6 0 0 0 0 0 0 0 0, 128)]);
   ("linkLocal", [(v6 65152 0 0 0 0 0 0 0, 10)]);
   ("multicast", [(v6 65280 0 0 0 0 0 0 0, 8)]);
   ("loopback", [(v6 0 0 0 0 0 0 0 1, 128)]);
   ("uniqueLocal", [(v6 64512 0 0 0 0 0 0 0, 7)]);
   ("ipv4Mapped", [(v6 0 0 0 0 0 65535 0 0, 96)]);
   ("discard", [(v6 256 0 0 0 0 0 0 0, 64)]);
   ("rfc6145", [(v6 0 0 0 0 65535 0 0 0, 96)]);
   ("rfc6052", [(v6 100 65435 0 0 0 0 0 0, 96)]);
   ("6to4", [(v6 8194 0 0 0 0 0 0 0, 16)]);
   ("teredo", [(v6 8193 0 0 0 0 0 0 0, 32)]);
   ("benchmarking", [(v6 8193 2 0 0 0 0 0 0, 48)]);
   ("amt", [(v6 8193 3 0 0 0 0 0 0, 32)]);
   ("as112v6", [(v6 8193 4 274 0 0 0 0 0, 48); (v6 9760 79 32768 0 0 0 0 0, 48)]);
   ("deprecated", [(v6 8193 16 0 0 0 0 0 0, 28)]);
   ("orchid2", [(v6 8193 32 0 0 0 0 0 0, 28)]);
   ("droneRemoteIdProtocolEntityTags", [(v6 8193 48 0 0 0 0 0 0, 28)]);
   ("reserved", [(v6 8193 0 0 0 0 0 0 0, 23); (v6 8193 3512 0 0 0 0 0 0, 32)])].

Definition kind_ (this : IPv6_t) : kind := ipv6.

Definition match_ := IPv6_match.

Definition range (this : IPv6_t) : result string :=
  subnetMatch (V6 this) SpecialRanges "unicast".

(** [addr.mask(cidr).toString()] on an IPv6 object.  The IPv6 prototype of
    ipaddr.js defines [isIPv4MappedAddress], [kind], [match],
    [prefixLengthFromSubnetMask], [range], [toByteArray],
    [toFixedLengthString], [toIPv4Address], [toNormalizedString],
    [toRFC5952String] and [toString]; it has no [mask], so the member call
    throws a TypeError. *)
Definition mask_toString (this : IPv6_t) (cidr : Z) : result string :=
  Throw "TypeError: addr.mask is not a function".

(** The body of [ipaddr.IPv6.parser] after the [deprecatedTransitional]
    test. *)
Definition parser_body (s : string) : result (option expanded) :=
  if test native s then Ok (expandIPv6 s 8)
  else
    match exec transitional s with
    | Some (m, _) =>
        let zoneId_ := grp 6 m in
        let addr_ := if endsWith "::" (grp 1 m) then grp 1 m
                     else slice_0_m1 (grp 1 m) in
        match expandIPv6 (addr_ ++ zoneId_) 6 with
        | None => Throw "TypeError: Cannot read properties of null"
        | Some e =>
            let octets_ := [parseInt (grp 2 m) 0; parseInt (grp 3 m) 0;
                            parseInt (grp 4 m) 0; parseInt (grp 5 m) 0] in
            if forallb in_byte octets_
            then Ok (Some (mkExpanded
                       (e_parts e ++
                        [Some (bor (Some (shl (nth 0 octets_ None) 8)) (nth 1 octets_ None));
                         Some (bor (Some (shl (nth 2 octets_ None) 8)) (nth 3 octets_ None))])
                       (e_zoneId e)))
            else Ok None
        end
    | None => Ok None
    end.

(** [ipaddr.IPv6.parser]: a [deprecatedTransitional] match re-enters the
    parser on [`::ffff:${match[1]}`]; [fuel] bounds the re-entries, [None]
    when it runs out. *)
Fixpoint parser_fuel (fuel : nat) (s : string) : option (result (option expanded)) :=
  match exec deprecatedTransitional s with
  | Some (m, _) =>
      match fuel with
      | O => None
      | S f => parser_fuel f ("::ffff:" ++ grp 1 m)
      end
  | None => Some (parser_body s)
  end.

Definition parser (s : string) : result (option expanded) :=
  match parser_fuel 1 s with
  | Some r => r
  | None => Throw "IPv6.parser: out of fuel"
  end.

(** [new this(addr.parts, addr.zoneId)] where [addr] may be [null]. *)
Definition new_nullable (e : option expanded) : result IPv6_t :=
  match e with
  | Some e => new (e_parts e) (e_zoneId e)
  | None => Throw "TypeError: Cannot read properties of null"
  end.

Definition isValid (s : string) : bool :=
  if indexOf ":" s =? -1 then false
  else match e <- parser s ;; new_nullable e with
       | Ok _ => true
       | Throw _ => false
       end.

Definition parse (s : string) : result IPv6_t :=
  e <- parser s ;; new_nullable e.

End IPv6.

Definition isValid (s : string) : bool := IPv6.isValid s || IPv4.isValid s.

Definition parse (s : string) : result addr :=
  if IPv6.isValid s then a <- IPv6.parse s ;; Ok (V6 a)
  else if IPv4.isValid s then a <- IPv4.parse s ;; Ok (V4 a)
  else Throw "ipaddr: the address has neither IPv6 nor IPv4 format".

(** [addr.range()] *)
Definition range (a : addr) : result string :=
  match a with
  | V4 a => IPv4.range a
  | V6 a => IPv6.range a
  end.

End ipaddr.

(** ** src/utils/ipUtils.js *)
Import RegExp.
Import JS.
Import ipaddr.

Definition validateIp (ip : string) : bool :=
  if IPv6.isValid ip then true
  else if IPv4.isValidFourPartDecimal ip then true
  else false.

(** [None] is the [null] result. *)
Definition getIpVersion (ip : string) : result (option kind) :=
  if ipaddr.isValid ip
  then a <- ipaddr.parse ip ;; Ok (Some (addr_kind a))
  else Ok None.

(** [Number.isInteger(cidr) && cidr >= 0 && cidr <= maxCidr] *)
Definition cidr_in_range (cidr : number) (maxCidr : Z) : bool :=
  match cidr with
  | Some c => (0 <=? c) && (c <=? maxCidr)
  | None => false
  end.

Definition convertSubnetToCidr (subnet : value) (ipForVersionDetection : string)
  : result (option Z) :=
  if falsy subnet then Ok None
  else
    let subnetString := trim (String_ subnet) in
    v <- getIpVersion ipForVersionDetection ;;
    let ipVersion := match v with Some k => k | None => ipv4 end in
    let cidr := parseInt subnetString 10 in
    let maxCidr := if kind_eqb ipVersion ipv6 then 128 else 32 in
    if negb (isNaN subnetString) && cidr_in_range cidr maxCidr
    then Ok (Some (num_val cidr))
    else if kind_eqb ipVersion ipv4 && IPv4.isValid subnetString
    then Ok (try_catch
               (a <- IPv4.parse subnetString ;;
                Ok (IPv4.prefixLengthFromSubnetMask a))
               None)
    else Ok None.

Definition validateSubnet (subnet : value) (ipAddress : string) : result bool :=
  c <- convertSubnetToCidr subnet ipAddress ;;
  Ok (match c with Some _ => true | None => false end).

Definition isPublicIp (ip : string) : bool :=
  if negb (validateIp ip) then false
  else try_catch
         (a <- ipaddr.parse ip ;;
          range_ <- ipaddr.range a ;;
          Ok (String.eqb range_ "unicast"))
         false.

(** [cidr === null] *)
Definition is_null {A : Type} (o : option A) : bool :=
  match o with
  | None => true
  | Some _ => false
  end.

(** The prefix length [cidr] once it is known not to be [null]. *)
Definition cidr_val (cidr : option Z) : Z := num_val cidr.

Definition isSameSubnet (ip1 ip2 : string) (subnet : value) : result bool :=
  cidr <- convertSubnetToCidr subnet ip1 ;;
  if negb (validateIp ip1) || negb (validateIp ip2) || is_null cidr then Ok false
  else Ok (try_catch
             (addr1 <- ipaddr.parse ip1 ;;
              addr2 <- ipaddr.parse ip2 ;;
              if negb (kind_eqb (addr_kind addr1) (addr_kind addr2))
              then Ok false
              else ipaddr.match_ addr1 addr2 (cidr_val cidr))
             false).

Definition msg_invalid_format : string := "Invalid IP or Subnet format.".
Definition msg_network : string := "IP address cannot be the network address.".
Definition msg_broadcast : string := "IP address cannot be the broadcast address.".
Definition msg_invalid_mask : string := "Invalid subnet mask.".

(** [None] is the [null] result (no error). *)
Definition checkIpAndSubnet (ip : string) (subnet : value) : result (option string) :=
  cidr <- convertSubnetToCidr subnet ip ;;
  if negb (validateIp ip) || is_null cidr then Ok (Some msg_invalid_format)
  else
    let cidr := cidr_val cidr in
    Ok (try_catch
          (a <- ipaddr.parse ip ;;
           match a with
           | V4 _ =>
               let cidrStr := ip ++ "/" ++ Number_toString cidr in
               n <- IPv4.networkAddressFromCIDR cidrStr ;;
               let networkAddress := IPv4.toString n in
               b <- IPv4.broadcastAddressFromCIDR cidrStr ;;
               let broadcastAddress := IPv4.toString b in
               if String.eqb ip networkAddress && (cidr <? 31)
               then Ok (Some msg_network)
               else if String.eqb ip broadcastAddress && (cidr <? 31)
               then Ok (Some msg_broadcast)
               else Ok None
           | V6 a6 =>
               networkAddress <- IPv6.mask_toString a6 cidr ;;
               if String.eqb ip networkAddress && (cidr <? 127)
               then Ok (Some msg_network)
               else Ok None
           end)
          (Some msg_invalid_mask)).

(** ** Invariants used in the proofs *)

(** What the constructors guarantee: four octets in 0..255, eight parts. *)
Definition wf_addr (a : addr) : Prop :=
  match a with
  | V4 a => List.length (octets a) = 4%nat /\ Forall (fun o => 0 <= o <= 255) (octets a)
  | V6 a => List.length (parts a) = 8%nat
  end.

(** A table of special ranges whose addresses are well formed. *)
Definition wf_ranges (t : list (string * list (addr * Z))) : Prop :=
  Forall (fun e => Forall (fun p => wf_addr (fst p)) (snd e)) t.

(** ** Auxiliary notions for the proofs *)

(** Every character of [s] is in the class [p]. *)
Fixpoint all_chars (p : ascii -> bool) (s : string) : bool :=
  match s with
  | EmptyString => true
  | String a s' => p a && all_chars p s'
  end.

(** [t] is empty or starts with a character outside [p]. *)
Definition starts_not (p : ascii -> bool) (t : string) : bool :=
  match t with
  | EmptyString => true
  | String a _ => negb (p a)
  end.

(** [s'] is what remains of [s] after some prefix. *)
Definition suffix (s' s : string) : Prop := exists u, s = u ++ s'.

(** The number a string of decimal digits denotes, from the left. *)
Fixpoint dec_value (acc : Z) (s : string) : Z :=
  match s with
  | EmptyString => acc
  | String a s' => dec_value (acc * 10 + (Z.of_N (N_of_ascii a) - 48)) s'
  end.

(** The continuation [k] fails on every suffix of [s]. *)
Definition fails_on (k : string -> captures -> option (captures * string)) (s : string) : Prop :=
  forall s' c', suffix s' s -> k s' c' = None.

(** Every character class of [r] lies within [P]. *)
Fixpoint classes_within (P : ascii -> bool) (r : regex) : Prop :=
  match r with
  | Eps | Eos => True
  | Chr p => forall a, p a = true -> P a = true
  | Seq r1 r2 | Alt r1 r2 => classes_within P r1 /\ classes_within P r2
  | Star r1 | Grp _ r1 => classes_within P r1
  end.

(** What a match consumes is made of characters of its classes. *)
Definition consumes_within (P : ascii -> bool)
           (m : string -> captures ->
                (string -> captures -> option (captures * string)) ->
                option (captures * string)) : Prop :=
  forall s c k x, m s c k = Some x ->
  exists u s' c', s = u ++ s' /\ all_chars P u = true /\ k s' c' = Some x.

(** [getIpVersion(ip) || 'ipv4'] *)
Definition version_or_ipv4 (v : option kind) : kind :=
  match v with Some k => k | None => ipv4 end.

(** An octet. *)
Definition byte (x : Z) : Prop := 0 <= x <= 255.


(** The integers whose [String(n)] is their plain decimal text. *)
Definition plain_decimal (n : Z) : Prop := Z.abs n < 10 ^ 21.

(** The range rule of [validateSubnet] in the words of the specification:
    true on 0..32 (IPv4) and 0..128 (IPv6), false outside. *)
Definition validateSubnet_range_as_stated : Prop :=
  (forall ip cidr,
     validateIp ip = true -> getIpVersion ip = Ok (Some ipv4) ->
     0 <= cidr <= 32 -> validateSubnet (VNum cidr) ip = Ok true) /\
  (forall ip cidr,
     validateIp ip = true -> getIpVersion ip = Ok (Some ipv6) ->
     0 <= cidr <= 128 -> validateSubnet (VNum cidr) ip = Ok true) /\
  (forall ip cidr,
     validateIp ip = true -> getIpVersion ip = Ok (Some ipv4) ->
     cidr < 0 \/ 32 < cidr -> validateSubnet (VNum cidr) ip = Ok false) /\
  (forall ip cidr,
     validateIp ip = true -> getIpVersion ip = Ok (Some ipv6) ->
     cidr < 0 \/ 128 < cidr -> validateSubnet (VNum cidr) ip = Ok false).

(** The rule for an invalid reference address in the words of the
    specification: a numeric subnet is accepted exactly on 0..32. *)
Definition invalid_reference_rule_as_stated : Prop :=
  forall ref n,
    getIpVersion ref = Ok None ->
    (convertSubnetToCidr (VNum n) ref <> Ok None <-> 0 <= n <= 32).

(** The IPv4 host check in the words of the specification, the prefix
    length being passed as a number in 0..32. *)
Definition ipv4_host_check_as_stated : Prop :=
  forall ip cidr,
    validateIp ip = true -> getIpVersion ip = Ok (Some ipv4) ->
    0 <= cidr <= 32 ->
    (cidr < 31 ->
     (exists n, IPv4.networkAddressFromCIDR (ip ++ "/" ++ Number_toString cidr) = Ok n /\
                IPv4.toString n = ip) ->
     checkIpAndSubnet ip (VNum cidr) = Ok (Some msg_network)) /\
    (cidr < 31 ->
     (exists b, IPv4.broadcastAddressFromCIDR (ip ++ "/" ++ Number_toString cidr) = Ok b /\
                IPv4.toString b = ip) ->
     checkIpAndSubnet ip (VNum cidr) = Ok (Some msg_broadcast)) /\
    (31 <= cidr ->
     checkIpAndSubnet ip (VNum cidr) <> Ok (Some msg_network) /\
     checkIpAndSubnet ip (VNum cidr) <> Ok (Some msg_broadcast)).

(** ** Notions for the further properties *)

(** The number that a list of [w]-bit parts denotes, most significant
    part first. *)
Fixpoint parts_value (w : Z) (l : list Z) : Z :=
  match l with
  | [] => 0
  | x :: r => x * 2 ^ (w * Z.of_nat (List.length r)) + parts_value w r
  end.

(** Every part fits in [w] bits. *)
Definition parts_in (w : Z) (l : list Z) : Prop :=
  Forall (fun x => 0 <= x < 2 ^ w) l.

(** The number an address denotes: 32 bits for IPv4, 128 for IPv6. *)
Definition addr_value (a : addr) : Z :=
  match a with
  | V4 a => parts_value 8 (octets a)
  | V6 a => parts_value 16 (parts a)
  end.

Definition addr_bits (a : addr) : Z :=
  match a with
  | V4 _ => 32
  | V6 _ => 128
  end.

(** Four octets, or eight 16-bit parts. *)
Definition addr_parts_in (a : addr) : Prop :=
  match a with
  | V4 a => List.length (octets a) = 4%nat /\ parts_in 8 (octets a)
  | V6 a => List.length (parts a) = 8%nat /\ parts_in 16 (parts a)
  end.

(** [a] lies in the range [p]: same family and the same leading
    [snd p] bits as the address [fst p]. *)
Definition in_range (a : addr) (p : addr * Z) : bool :=
  kind_eqb (addr_kind a) (addr_kind (fst p)) &&
  (addr_value a / 2 ^ (addr_bits a - snd p) =?
   addr_value (fst p) / 2 ^ (addr_bits a - snd p)).

(** The table of special ranges of the family of [a]. *)
Definition special_ranges (a : addr) : list (string * list (addr * Z)) :=
  match a with
  | V4 _ => IPv4.SpecialRanges
  | V6 _ => IPv6.SpecialRanges
  end.

(** A table of ranges with well-formed addresses, prefix lengths within
    the address size and no range called [d]. *)
Definition ranges_ok (d : string) (t : list (string * list (addr * Z))) : Prop :=
  Forall (fun e => String.eqb (fst e) d = false /\
                   Forall (fun p => addr_parts_in (fst p) /\ snd p <= addr_bits (fst p))
                          (snd e)) t.

(** A decimal part as [isValidFourPartDecimal] wants it: [0], or a
    non-zero digit followed by digits. *)
Definition canonical (p : string) : bool :=
  match p with
  | EmptyString => false
  | String a r =>
      (lit "0" a && match r with EmptyString => true | String _ _ => false end)
      || (between "1" "9" a && all_chars digit r)
  end.

(** Four parts separated by dots. *)
Definition dotted (p1 p2 p3 p4 : string) : string :=
  p1 ++ "." ++ p2 ++ "." ++ p3 ++ "." ++ p4.

(** The characters of an address: ASCII letters and digits, [:], [.]
    and [%]. *)
Definition addr_char (c : ascii) : bool :=
  alnum_i c || lit ":" c || lit "." c || lit "%" c.

(** * Properties *)

(** ** Validity and parsing agree *)

Lemma IPv6_isValid_parse (s : string) :
  IPv6.isValid s = true -> exists a, IPv6.parse s = Ok a.
Proof.
  unfold IPv6.isValid, IPv6.parse.
  destruct (indexOf ":" s =? -1); [discriminate|].
  destruct (bind (IPv6.parser s) IPv6.new_nullable) as [a|e]; [eauto|discriminate].
Qed.

Lemma IPv4_isValid_parse (s : string) :
  IPv4.isValid s = true -> exists a, IPv4.parse s = Ok a.
Proof.
  unfold IPv4.isValid, IPv4.parse.
  destruct (IPv4.parser s) as [[l|]|e]; simpl; try discriminate.
  destruct (IPv4.new l) as [a|e]; [eauto|discriminate].
Qed.

Lemma isValid_parse (s : string) :
  ipaddr.isValid s = true ->
  exists a, ipaddr.parse s = Ok a /\
            addr_kind a = if IPv6.isValid s then ipv6 else ipv4.
Proof.
  unfold ipaddr.isValid, ipaddr.parse. intros H.
  destruct (IPv6.isValid s) eqn:E6.
  - destruct (IPv6_isValid_parse s E6) as [a Ha]. rewrite Ha. simpl. eauto.
  - simpl in H. rewrite H.
    destruct (IPv4_isValid_parse s H) as [a Ha]. rewrite Ha. simpl. eauto.
Qed.

(** [getIpVersion] never throws. *)
Lemma getIpVersion_spec (s : string) :
  getIpVersion s =
  Ok (if ipaddr.isValid s
      then Some (if IPv6.isValid s then ipv6 else ipv4)
      else None).
Proof.
  unfold getIpVersion. destruct (ipaddr.isValid s) eqn:E; [|reflexivity].
  destruct (isValid_parse s E) as (a & Ha & Hk). rewrite Ha. simpl. now rewrite Hk.
Qed.

Lemma validateIp_isValid (s : string) :
  validateIp s = true -> ipaddr.isValid s = true.
Proof.
  unfold validateIp, ipaddr.isValid, IPv4.isValidFourPartDecimal.
  destruct (IPv6.isValid s); [reflexivity|].
  destruct (IPv4.isValid s); simpl; [reflexivity|discriminate].
Qed.

Lemma validateIp_parse (s : string) :
  validateIp s = true ->
  exists a, ipaddr.parse s = Ok a /\ getIpVersion s = Ok (Some (addr_kind a)).
Proof.
  intros H. apply validateIp_isValid in H.
  destruct (isValid_parse s H) as (a & Ha & Hk).
  exists a. split; [assumption|].
  rewrite getIpVersion_spec, H, Hk. reflexivity.
Qed.

(** ** Invariants of the address objects *)

Lemma in_byte_val (o : number) :
  in_byte o = true -> 0 <= num_val o <= 255.
Proof.
  unfold in_byte. destruct o as [z|]; simpl; [|discriminate]. lia.
Qed.

Lemma IPv4_new_wf (l : list number) (a : IPv4_t) :
  IPv4.new l = Ok a -> wf_addr (V4 a).
Proof.
  unfold IPv4.new.
  destruct (Nat.eqb (List.length l) 4) eqn:El; simpl; [|discriminate].
  destruct (forallb in_byte l) eqn:Ef; [|discriminate].
  intros H. injection H as <-. simpl. split.
  - rewrite length_map. now apply Nat.eqb_eq.
  - rewrite forallb_forall in Ef. apply Forall_forall. intros x Hx.
    apply in_map_iff in Hx. destruct Hx as (o & <- & Ho).
    apply in_byte_val. auto.
Qed.

Lemma IPv4_parse_wf (s : string) (a : IPv4_t) :
  IPv4.parse s = Ok a -> wf_addr (V4 a).
Proof.
  unfold IPv4.parse. destruct (IPv4.parser s) as [[l|]|e]; simpl; try discriminate.
  apply IPv4_new_wf.
Qed.

Lemma IPv6_new_wf (l : list number) (z : option string) (a : IPv6_t) :
  IPv6.new l z = Ok a -> wf_addr (V6 a).
Proof.
  unfold IPv6.new.
  destruct (Nat.eqb (List.length l) 16) eqn:E16.
  - destruct (forallb in_word _); [|discriminate].
    intros H. injection H as <-. reflexivity.
  - destruct (Nat.eqb (List.length l) 8) eqn:E8; [|discriminate].
    destruct (forallb in_word l); [|discriminate].
    intros H. injection H as <-. simpl. rewrite length_map. now apply Nat.eqb_eq.
Qed.

Lemma parse_wf (s : string) (a : addr) :
  ipaddr.parse s = Ok a -> wf_addr a.
Proof.
  unfold ipaddr.parse.
  destruct (IPv6.isValid s).
  - unfold IPv6.parse. destruct (IPv6.parser s) as [[e|]|e]; simpl; try discriminate.
    destruct (IPv6.new (e_parts e) (e_zoneId e)) as [a6|] eqn:En; simpl; [|discriminate].
    intros H. injection H as <-. eapply IPv6_new_wf; eauto.
  - destruct (IPv4.isValid s); [|discriminate].
    destruct (IPv4.parse s) as [a4|] eqn:Ep; simpl; [|discriminate].
    intros H. injection H as <-. eapply IPv4_parse_wf; eauto.
Qed.

(** ** [matchCIDR] terminates *)

Lemma matchCIDR_loop_total (fuel : nat) (first second : list Z)
      (partSize cidrBits : Z) (part : nat) :
  1 <= partSize -> (Z.to_nat cidrBits <= fuel)%nat ->
  exists b, matchCIDR_loop fuel first second partSize cidrBits part = Some b.
Proof.
  intros Hp. revert cidrBits part.
  induction fuel as [|f IH]; intros bits part Hf; simpl.
  - destruct (0 <? bits) eqn:E; [|eauto]. apply Z.ltb_lt in E. lia.
  - destruct (0 <? bits) eqn:E; [|eauto]. apply Z.ltb_lt in E.
    destruct (negb _); [eauto|]. apply IH. lia.
Qed.

Lemma matchCIDR_loop_refl (fuel : nat) (l : list Z)
      (partSize cidrBits : Z) (part : nat) :
  1 <= partSize -> (Z.to_nat cidrBits <= fuel)%nat ->
  matchCIDR_loop fuel l l partSize cidrBits part = Some true.
Proof.
  intros Hp. revert cidrBits part.
  induction fuel as [|f IH]; intros bits part Hf; simpl.
  - destruct (0 <? bits) eqn:E; [|reflexivity]. apply Z.ltb_lt in E. lia.
  - destruct (0 <? bits) eqn:E; [|reflexivity]. apply Z.ltb_lt in E.
    rewrite Z.eqb_refl. simpl. apply IH. lia.
Qed.

Lemma matchCIDR_total (first second : list Z) (partSize cidrBits : Z) :
  1 <= partSize -> List.length first = List.length second ->
  exists b, matchCIDR first second partSize cidrBits = Ok b.
Proof.
  intros Hp Hl. unfold matchCIDR. rewrite Hl, Nat.eqb_refl. simpl.
  destruct (matchCIDR_loop_total (Z.to_nat cidrBits) first second partSize cidrBits 0 Hp)
    as [b Hb]; [lia|].
  rewrite Hb. eauto.
Qed.

Lemma matchCIDR_refl (l : list Z) (partSize cidrBits : Z) :
  1 <= partSize -> matchCIDR l l partSize cidrBits = Ok true.
Proof.
  intros Hp. unfold matchCIDR. rewrite Nat.eqb_refl. simpl.
  rewrite matchCIDR_loop_refl; [reflexivity|assumption|lia].
Qed.

Lemma match_refl (a : addr) (cidr : Z) : ipaddr.match_ a a cidr = Ok true.
Proof.
  destruct a as [a|a]; simpl; apply matchCIDR_refl; lia.
Qed.

Lemma match_total (a b : addr) (cidr : Z) :
  wf_addr a -> wf_addr b -> addr_kind a = addr_kind b ->
  exists r, ipaddr.match_ a b cidr = Ok r.
Proof.
  destruct a as [a|a], b as [b|b]; simpl; try discriminate; intros Ha Hb _.
  - apply matchCIDR_total; [lia|]. destruct Ha, Hb. congruence.
  - apply matchCIDR_total; [lia|]. congruence.
Qed.

Lemma subnetMatch_subnets_total (a : addr) (l : list (addr * Z)) :
  wf_addr a -> Forall (fun p => wf_addr (fst p)) l ->
  exists b, subnetMatch_subnets a l = Ok b.
Proof.
  intros Ha. induction 1 as [|[x bits] l Hx Hl IH]; simpl; [eauto|].
  destruct (kind_eqb (addr_kind a) (addr_kind x)) eqn:Ek; [|assumption].
  assert (Hk : addr_kind a = addr_kind x)
    by (destruct (addr_kind a), (addr_kind x); simpl in Ek; congruence).
  destruct (match_total a x bits Ha Hx Hk) as [r Hr]. rewrite Hr. simpl.
  destruct r; eauto.
Qed.

Lemma subnetMatch_total (a : addr) (t : list (string * list (addr * Z))) (d : string) :
  wf_addr a -> wf_ranges t -> exists r, subnetMatch a t d = Ok r.
Proof.
  intros Ha. induction 1 as [|[name l] t Hl Ht IH]; simpl; [eauto|].
  destruct (subnetMatch_subnets_total a l Ha Hl) as [b Hb]. rewrite Hb. simpl.
  destruct b; eauto.
Qed.

Lemma IPv4_SpecialRanges_wf : wf_ranges IPv4.SpecialRanges.
Proof.
  unfold wf_ranges, IPv4.SpecialRanges, IPv4.v4.
  repeat (apply Forall_cons || apply Forall_nil); simpl;
    (split; [reflexivity | repeat (apply Forall_cons || apply Forall_nil); lia]).
Qed.

Lemma IPv6_SpecialRanges_wf : wf_ranges IPv6.SpecialRanges.
Proof.
  unfold wf_ranges, IPv6.SpecialRanges, IPv6.v6.
  repeat (apply Forall_cons || apply Forall_nil); reflexivity.
Qed.

Lemma range_total (a : addr) : wf_addr a -> exists r, ipaddr.range a = Ok r.
Proof.
  destruct a as [a|a]; intros Ha; simpl.
  - apply subnetMatch_total; [assumption|apply IPv4_SpecialRanges_wf].
  - apply subnetMatch_total; [assumption|apply IPv6_SpecialRanges_wf].
Qed.

(** [convertSubnetToCidr] never throws. *)
Lemma convertSubnetToCidr_total (subnet : value) (ip : string) :
  exists c, convertSubnetToCidr subnet ip = Ok c.
Proof.
  unfold convertSubnetToCidr. destruct (falsy subnet); [eauto|].
  rewrite getIpVersion_spec. simpl.
  destruct (_ && cidr_in_range _ _); [eauto|].
  destruct (_ && IPv4.isValid _); eauto.
Qed.


(** ** Strings *)

Lemma app_assoc_s (a b c : string) : (a ++ b) ++ c = a ++ (b ++ c).
Proof. induction a as [|x a IH]; simpl; [reflexivity|now rewrite IH]. Qed.

Lemma app_nil_r_s (a : string) : a ++ "" = a.
Proof. induction a as [|x a IH]; simpl; [reflexivity|now rewrite IH]. Qed.

Lemma length_app_s (a b : string) :
  String.length (a ++ b) = (String.length a + String.length b)%nat.
Proof. induction a as [|x a IH]; simpl; [reflexivity|now rewrite IH]. Qed.

Lemma all_chars_app (p : ascii -> bool) (a b : string) :
  all_chars p (a ++ b) = all_chars p a && all_chars p b.
Proof.
  induction a as [|x a IH]; simpl; [reflexivity|]. rewrite IH. now rewrite andb_assoc.
Qed.

Lemma all_chars_impl (p q : ascii -> bool) (s : string) :
  (forall a, p a = true -> q a = true) ->
  all_chars p s = true -> all_chars q s = true.
Proof.
  intros H. induction s as [|x s IH]; simpl; [reflexivity|].
  intros E. apply andb_true_iff in E. destruct E as [E1 E2].
  rewrite (H x E1). simpl. auto.
Qed.

Lemma suffix_refl (s : string) : suffix s s.
Proof. exists "". reflexivity. Qed.

Lemma suffix_tail (a : ascii) (s' s : string) : suffix s' s -> suffix s' (String a s).
Proof. intros [u ->]. exists (String a u). reflexivity. Qed.

Lemma suffix_trans (a b c : string) : suffix a b -> suffix b c -> suffix a c.
Proof. intros [u ->] [v ->]. exists (v ++ u). now rewrite app_assoc_s. Qed.

Lemma suffix_length (s' s : string) :
  suffix s' s -> (String.length s' <= String.length s)%nat.
Proof. intros [u ->]. rewrite length_app_s. lia. Qed.

Lemma suffix_all_chars (p : ascii -> bool) (s' s : string) :
  suffix s' s -> all_chars p s = true -> all_chars p s' = true.
Proof.
  intros [u ->]. rewrite all_chars_app. intros E.
  apply andb_true_iff in E. tauto.
Qed.

Lemma substring_app (u t : string) : substring 0 (String.length u) (u ++ t) = u.
Proof.
  induction u as [|x u IH]; simpl.
  - destruct t; reflexivity.
  - now rewrite IH.
Qed.

Lemma consumed_app (u t : string) : consumed (u ++ t) t = u.
Proof.
  unfold consumed. rewrite length_app_s.
  replace (String.length u + String.length t - String.length t)%nat
    with (String.length u) by lia.
  apply substring_app.
Qed.

(** ** The matcher *)

(** A continuation that fails on every suffix of the input makes the
    match fail. *)
Lemma star_iter_fail m1 k :
  (forall s c k', fails_on k' s -> m1 s c k' = None) ->
  forall n s c, fails_on k s -> star_iter m1 k n s c = None.
Proof.
  intros Hm. induction n as [|n IH]; intros s c Hk; simpl.
  - apply Hk, suffix_refl.
  - rewrite Hm.
    + apply Hk, suffix_refl.
    + intros s' c' Hs. destruct (Nat.ltb _ _); [|reflexivity].
      apply IH. intros s'' c'' Hs'. apply Hk. eapply suffix_trans; eauto.
Qed.

Lemma rmatch_fail (r : regex) :
  forall s c k, fails_on k s -> rmatch r s c k = None.
Proof.
  induction r as [|p|r1 IH1 r2 IH2|r1 IH1 r2 IH2|r IH|i r IH|]; intros s c k Hk; simpl.
  - apply Hk, suffix_refl.
  - destruct s as [|a s]; [reflexivity|]. destruct (p a); [|reflexivity].
    apply Hk. apply suffix_tail, suffix_refl.
  - apply IH1. intros s' c' Hs. apply IH2. intros s'' c'' Hs'.
    apply Hk. eapply suffix_trans; eauto.
  - rewrite IH1 by assumption. now apply IH2.
  - apply star_iter_fail; assumption.
  - apply IH. intros s' c' Hs. now apply Hk.
  - destruct s; [|reflexivity]. apply Hk, suffix_refl.
Qed.

(** Greedy repetition of a character class. *)
Lemma star_chr_fuel p k : forall n m s c,
  (String.length s <= n)%nat -> (String.length s <= m)%nat ->
  star_iter (rmatch (Chr p)) k n s c = star_iter (rmatch (Chr p)) k m s c.
Proof.
  induction n as [|n IH]; intros m s c Hn Hm.
  - destruct s; [|simpl in Hn; lia]. destruct m; reflexivity.
  - destruct s as [|a s].
    + destruct m; reflexivity.
    + destruct m as [|m]; [simpl in Hm; lia|].
      simpl. destruct (p a); [|reflexivity].
      assert (E : Nat.ltb (String.length s) (S (String.length s)) = true)
        by (apply Nat.ltb_lt; lia).
      simpl in *. rewrite E. rewrite (IH m s c) by lia. reflexivity.
Qed.

(** The class matches all of [u] and not the start of [t], and the
    continuation accepts [t]: the repetition stops at [t]. *)
Lemma star_chr_all p k c x t :
  k t c = Some x -> starts_not p t = true ->
  forall u n, all_chars p u = true -> (String.length (u ++ t) <= n)%nat ->
  star_iter (rmatch (Chr p)) k n (u ++ t) c = Some x.
Proof.
  intros Hk Ht. induction u as [|a u IH]; intros n Hu Hn.
  - simpl. destruct n as [|n]; [assumption|]. simpl.
    destruct t as [|b t]; [assumption|]. simpl in Ht.
    destruct (p b); [discriminate|assumption].
  - simpl in Hu. apply andb_true_iff in Hu. destruct Hu as [Ha Hu].
    destruct n as [|n]; [simpl in Hn; lia|]. simpl. rewrite Ha.
    assert (E : Nat.ltb (String.length (u ++ t)) (S (String.length (u ++ t))) = true)
      by (apply Nat.ltb_lt; lia).
    rewrite E. rewrite IH; [reflexivity|assumption|simpl in Hn; lia].
Qed.

(** A success further to the right wins. *)
Lemma star_chr_deeper p k c x t :
  star_iter (rmatch (Chr p)) k (String.length t) t c = Some x ->
  forall u n, all_chars p u = true -> (String.length (u ++ t) <= n)%nat ->
  star_iter (rmatch (Chr p)) k n (u ++ t) c = Some x.
Proof.
  intros Hk. induction u as [|a u IH]; intros n Hu Hn.
  - simpl in *. rewrite (star_chr_fuel p k n (String.length t)) by lia. assumption.
  - simpl in Hu. apply andb_true_iff in Hu. destruct Hu as [Ha Hu].
    destruct n as [|n]; [simpl in Hn; lia|]. simpl. rewrite Ha.
    assert (E : Nat.ltb (String.length (u ++ t)) (S (String.length (u ++ t))) = true)
      by (apply Nat.ltb_lt; lia).
    rewrite E. rewrite IH; [reflexivity|assumption|simpl in Hn; lia].
Qed.

(** The continuation fails everywhere to the right of the start: the
    repetition gives up and runs the continuation at the start. *)
Lemma star_chr_backtrack p k n s c :
  (forall a s', s = String a s' -> fails_on k s') ->
  star_iter (rmatch (Chr p)) k n s c = k s c.
Proof.
  intros H. destruct n as [|n]; [reflexivity|]. simpl.
  destruct s as [|a s]; [reflexivity|]. destruct (p a); [|reflexivity].
  destruct (Nat.ltb _ _); [|reflexivity].
  rewrite star_iter_fail; [reflexivity| |].
  - intros s0 c0 k'. exact (rmatch_fail (Chr p) s0 c0 k').
  - now apply (H a s).
Qed.

(** ** Decimal digits *)

Lemma digit_cases (a : ascii) :
  digit a = true ->
  a = "0"%char \/ a = "1"%char \/ a = "2"%char \/ a = "3"%char \/ a = "4"%char \/
  a = "5"%char \/ a = "6"%char \/ a = "7"%char \/ a = "8"%char \/ a = "9"%char.
Proof.
  destruct a as [[] [] [] [] [] [] [] []]; vm_compute; intros H;
    try discriminate H; tauto.
Qed.

Ltac digit_split H :=
  apply digit_cases in H;
  destruct H as [H|[H|[H|[H|[H|[H|[H|[H|[H|H]]]]]]]]]; subst.

Lemma digit_char_cases (d : Z) :
  0 <= d <= 9 ->
  d = 0 \/ d = 1 \/ d = 2 \/ d = 3 \/ d = 4 \/ d = 5 \/ d = 6 \/ d = 7 \/ d = 8 \/ d = 9.
Proof. lia. Qed.

Ltac dval_split H :=
  apply digit_char_cases in H;
  destruct H as [H|[H|[H|[H|[H|[H|[H|[H|[H|H]]]]]]]]]; subst.

Lemma digit_char_digit (d : Z) : 0 <= d <= 9 -> digit (digit_char d) = true.
Proof. intros H. dval_split H; reflexivity. Qed.

Lemma digit_char_code (d : Z) :
  0 <= d <= 9 -> Z.of_N (N_of_ascii (digit_char d)) - 48 = d.
Proof. intros H. dval_split H; reflexivity. Qed.

Lemma digit_not_white (a : ascii) : digit a = true -> negb (is_white a) = true.
Proof. intros H. digit_split H; reflexivity. Qed.

Lemma digit_val_digit (a : ascii) :
  digit a = true ->
  digit_val a = Some (Z.of_N (N_of_ascii a) - 48) /\
  0 <= Z.of_N (N_of_ascii a) - 48 <= 9.
Proof. intros H. digit_split H; split; (reflexivity || (vm_compute; split; discriminate)). Qed.

Lemma mod10_range (n : Z) : 0 <= n mod 10 <= 9.
Proof. pose proof (Z.mod_pos_bound n 10). lia. Qed.

Lemma dec_value_app (a b : string) (acc : Z) :
  dec_value acc (a ++ b) = dec_value (dec_value acc a) b.
Proof. revert acc. induction a as [|x a IH]; intros acc; simpl; [reflexivity|apply IH]. Qed.

Lemma digits_prefix_dec (s : string) (v : Z) :
  all_chars digit s = true -> digits_prefix 10 (Some v) s = Some (dec_value v s).
Proof.
  revert v. induction s as [|a s IH]; intros v H; simpl; [reflexivity|].
  simpl in H. apply andb_true_iff in H. destruct H as [Ha Hs].
  destruct (digit_val_digit a Ha) as [-> Hr].
  replace (_ <? 10) with true by (symmetry; apply Z.ltb_lt; lia).
  now apply IH.
Qed.

Lemma digits_prefix_dec_start (a : ascii) (s : string) :
  digit a = true -> all_chars digit s = true ->
  digits_prefix 10 None (String a s) = Some (dec_value 0 (String a s)).
Proof.
  intros Ha Hs. simpl.
  destruct (digit_val_digit a Ha) as [-> Hr].
  replace (_ <? 10) with true by (symmetry; apply Z.ltb_lt; lia).
  now apply digits_prefix_dec.
Qed.

Lemma digits_fuel_app (f : nat) : forall n acc,
  digits_fuel f n acc = digits_fuel f n "" ++ acc.
Proof.
  induction f as [|f IH]; intros n acc; simpl; [reflexivity|].
  destruct (n <? 10); [reflexivity|].
  rewrite IH. rewrite (IH _ (String _ "")). now rewrite app_assoc_s.
Qed.

Lemma digits_fuel_all (f : nat) : forall n,
  0 <= n -> all_chars digit (digits_fuel f n "") = true.
Proof.
  induction f as [|f IH]; intros n Hn; simpl.
  - rewrite digit_char_digit; [reflexivity|]. apply mod10_range.
  - destruct (n <? 10).
    + simpl. rewrite digit_char_digit; [reflexivity|]. apply mod10_range.
    + rewrite digits_fuel_app, all_chars_app. rewrite IH by (apply Z.div_pos; lia).
      simpl. rewrite digit_char_digit; [reflexivity|]. apply mod10_range.
Qed.

Lemma digits_fuel_value (f : nat) : forall n,
  0 <= n < 10 * 2 ^ Z.of_nat f -> dec_value 0 (digits_fuel f n "") = n.
Proof.
  induction f as [|f IH]; intros n Hn.
  - simpl in *. rewrite digit_char_code by apply mod10_range.
    rewrite Z.mod_small; lia.
  - simpl digits_fuel. destruct (n <? 10) eqn:E.
    + apply Z.ltb_lt in E. simpl.
      rewrite digit_char_code by apply mod10_range.
      rewrite Z.mod_small; lia.
    + apply Z.ltb_ge in E.
      rewrite digits_fuel_app, dec_value_app. rewrite IH.
      * simpl. rewrite digit_char_code by apply mod10_range.
        pose proof (Z.div_mod n 10). lia.
      * rewrite Nat2Z.inj_succ, Z.pow_succ_r in Hn by lia.
        split; [apply Z.div_pos; lia|].
        apply Z.div_lt_upper_bound; lia.
Qed.

Lemma digits_fuel_head (f : nat) : forall n acc,
  1 <= n < 10 * 2 ^ Z.of_nat f ->
  exists d rest, digits_fuel f n acc = String (digit_char d) rest /\ 1 <= d <= 9.
Proof.
  induction f as [|f IH]; intros n acc Hn.
  - simpl in *. exists (n mod 10), acc. split; [reflexivity|].
    rewrite Z.mod_small; lia.
  - simpl digits_fuel. destruct (n <? 10) eqn:E.
    + apply Z.ltb_lt in E. exists (n mod 10), acc. split; [reflexivity|].
      rewrite Z.mod_small; lia.
    + apply Z.ltb_ge in E. apply IH.
      rewrite Nat2Z.inj_succ, Z.pow_succ_r in Hn by lia.
      split; [apply Z.div_le_lower_bound; lia|].
      apply Z.div_lt_upper_bound; lia.
Qed.

Lemma log2_fuel (n : Z) : 0 <= n -> n < 10 * 2 ^ Z.of_nat (Z.to_nat (Z.log2 n)).
Proof.
  intros Hn. rewrite Z2Nat.id by apply Z.log2_nonneg.
  destruct (Z.eq_dec n 0) as [->|Hz]; [reflexivity|].
  pose proof (Z.log2_spec n ltac:(lia)) as [_ H].
  rewrite Z.pow_succ_r in H by apply Z.log2_nonneg. lia.
Qed.

Lemma digits_all (n : Z) : 0 <= n -> all_chars digit (digits n) = true.
Proof. intros H. now apply digits_fuel_all. Qed.

Lemma digits_value (n : Z) : 0 <= n -> dec_value 0 (digits n) = n.
Proof. intros H. apply digits_fuel_value. split; [assumption|now apply log2_fuel]. Qed.

Lemma digits_head (n : Z) :
  1 <= n -> exists d rest, digits n = String (digit_char d) rest /\ 1 <= d <= 9.
Proof. intros H. apply digits_fuel_head. split; [assumption|apply log2_fuel; lia]. Qed.

Lemma digits_cons (n : Z) :
  0 <= n ->
  exists a rest, digits n = String a rest /\ digit a = true /\ all_chars digit rest = true.
Proof.
  intros H. pose proof (digits_all n H) as Ha.
  destruct (digits n) as [|a rest] eqn:E.
  - exfalso. pose proof (digits_value n H) as Hv. rewrite E in Hv. simpl in Hv.
    subst n. vm_compute in E. discriminate.
  - simpl in Ha. apply andb_true_iff in Ha. destruct Ha. eauto.
Qed.

(** [parseInt] reads back what [String] prints. *)
Lemma digits_not_0x (a : ascii) (s : string) :
  digit a = true -> all_chars digit s = true -> starts_with_0x (String a s) = false.
Proof.
  intros Ha Hs. destruct s as [|b s].
  - digit_split Ha; reflexivity.
  - simpl in Hs. apply andb_true_iff in Hs. destruct Hs as [Hb _].
    digit_split Ha; try reflexivity. digit_split Hb; reflexivity.
Qed.

Lemma parseInt_digit_string (a : ascii) (s : string) (radix : Z) :
  digit a = true -> all_chars digit s = true -> radix = 0 \/ radix = 10 ->
  parseInt (String a s) radix = Some (dec_value 0 (String a s)).
Proof.
  intros Ha Hs Hr. unfold parseInt.
  assert (Hw : trimStart (String a s) = String a s).
  { simpl. pose proof (digit_not_white a Ha) as W.
    destruct (is_white a); [discriminate|reflexivity]. }
  rewrite Hw.
  assert (Hsign : match String a s with
                  | String "-" r => (-1, r)
                  | String "+" r => (1, r)
                  | _ => (1, String a s)
                  end = (1, String a s)).
  { pose proof Ha as Ha'. digit_split Ha'; reflexivity. }
  rewrite Hsign.
  rewrite (digits_not_0x a s Ha Hs).
  destruct Hr as [-> | ->]; cbv -[digits_prefix dec_value Z.mul];
    rewrite (digits_prefix_dec_start a s Ha Hs), Z.mul_1_l; reflexivity.
Qed.

Lemma parseInt_digits (n radix : Z) :
  0 <= n -> radix = 0 \/ radix = 10 -> parseInt (digits n) radix = Some n.
Proof.
  intros Hn Hr. destruct (digits_cons n Hn) as (a & rest & E & Ha & Hrest).
  rewrite E. rewrite parseInt_digit_string by assumption.
  rewrite <- E. now rewrite digits_value.
Qed.

Lemma parseInt_Number_toString (n radix : Z) :
  radix = 0 \/ radix = 10 -> parseInt (Number_toString n) radix = Some n.
Proof.
  intros Hr. unfold Number_toString. destruct (n <? 0) eqn:E.
  - apply Z.ltb_lt in E.
    destruct (digits_cons (- n) ltac:(lia)) as (a & rest & Ed & Ha & Hrest).
    pose proof (digits_value (- n) ltac:(lia)) as Hv.
    unfold parseInt. simpl trimStart. cbv iota beta.
    rewrite Ed in *. rewrite (digits_not_0x a rest Ha Hrest).
    destruct Hr as [-> | ->]; cbv -[digits_prefix dec_value Z.mul];
      rewrite (digits_prefix_dec_start a rest Ha Hrest), Hv; f_equal; lia.
  - apply Z.ltb_ge in E. now apply parseInt_digits.
Qed.

(** [trim] leaves a string without white space alone. *)
Lemma trimEnd_id (s : string) :
  all_chars (fun c => negb (is_white c)) s = true -> trimEnd s = s.
Proof.
  induction s as [|a s IH]; simpl; [reflexivity|]. intros H.
  apply andb_true_iff in H. destruct H as [Ha Hs]. rewrite (IH Hs).
  destruct s; [|reflexivity]. destruct (is_white a); [discriminate|reflexivity].
Qed.

Lemma trim_id (s : string) :
  all_chars (fun c => negb (is_white c)) s = true -> trim s = s.
Proof.
  intros H. unfold trim.
  assert (E : trimStart s = s).
  { destruct s as [|a s]; [reflexivity|]. simpl in *.
    apply andb_true_iff in H. destruct H as [Ha _].
    destruct (is_white a); [discriminate|reflexivity]. }
  rewrite E. now apply trimEnd_id.
Qed.

Lemma Number_toString_no_white (n : Z) :
  all_chars (fun c => negb (is_white c)) (Number_toString n) = true.
Proof.
  unfold Number_toString. destruct (n <? 0) eqn:E.
  - apply Z.ltb_lt in E. simpl.
    apply (all_chars_impl digit); [apply digit_not_white|apply digits_all; lia].
  - apply Z.ltb_ge in E.
    apply (all_chars_impl digit); [apply digit_not_white|now apply digits_all].
Qed.

Lemma trim_Number_toString (n : Z) : trim (Number_toString n) = Number_toString n.
Proof. apply trim_id, Number_toString_no_white. Qed.

(** ** Numeric literals *)

Lemma star_chr_all_nil p k c x u :
  k "" c = Some x -> all_chars p u = true ->
  rmatch (Star (Chr p)) u c k = Some x.
Proof.
  intros Hk Hu. cbn [rmatch]. rewrite <- (app_nil_r_s u).
  apply star_chr_all; try assumption; reflexivity.
Qed.

Lemma plus_chr_all p k c x a u :
  p a = true -> all_chars p u = true -> k "" c = Some x ->
  rmatch (Plus (Chr p)) (String a u) c k = Some x.
Proof.
  intros Ha Hu Hk. unfold Plus. cbn [rmatch]. rewrite Ha.
  now apply star_chr_all_nil.
Qed.


Lemma opt_chr_skip p k c a s :
  p a = false -> rmatch (Opt (Chr p)) (String a s) c k = k (String a s) c.
Proof. intros H. unfold Opt. cbn [rmatch]. now rewrite H. Qed.

Lemma digit_lit_false (b a : ascii) :
  digit b = false -> digit a = true -> lit b a = false.
Proof.
  intros Hb Ha. unfold lit. destruct (Ascii.eqb_spec b a) as [->|]; [congruence|reflexivity].
Qed.


Lemma consumed_nil (s : string) : consumed s "" = s.
Proof. rewrite <- (app_nil_r_s s) at 1. apply consumed_app. Qed.

Lemma numeric_digits (a : ascii) (rest : string) :
  digit a = true -> all_chars digit rest = true ->
  test StringNumericLiteral (String a rest) = true.
Proof.
  intros Ha Hr. unfold test, exec, StringNumericLiteral, StrUnsignedDecimalLiteral.
  cbn [rmatch Seqs]. rewrite opt_chr_skip.
  2:{ rewrite !digit_lit_false; auto. }
  cbn [word list_ascii_of_string map Seqs rmatch].
  rewrite (digit_lit_false "I" a) by auto.
  erewrite plus_chr_all; [reflexivity|assumption|assumption|reflexivity].
Qed.

Lemma numeric_neg_digits (a : ascii) (rest : string) :
  digit a = true -> all_chars digit rest = true ->
  test StringNumericLiteral (String "-" (String a rest)) = true.
Proof.
  intros Ha Hr. unfold test, exec, StringNumericLiteral, StrUnsignedDecimalLiteral.
  cbn [rmatch Seqs]. unfold Opt at 1. cbn [rmatch].
  change (lit "+" "-" || lit "-" "-") with true. cbv iota.
  cbn [word list_ascii_of_string map Seqs rmatch].
  rewrite (digit_lit_false "I" a) by auto.
  erewrite plus_chr_all; [reflexivity|assumption|assumption|reflexivity].
Qed.

Lemma isNaN_Number_toString (n : Z) : isNaN (Number_toString n) = false.
Proof.
  unfold isNaN. rewrite trim_Number_toString. unfold Number_toString.
  destruct (n <? 0) eqn:E.
  - apply Z.ltb_lt in E.
    destruct (digits_cons (- n) ltac:(lia)) as (a & rest & -> & Ha & Hr).
    now rewrite numeric_neg_digits.
  - apply Z.ltb_ge in E.
    destruct (digits_cons n E) as (a & rest & -> & Ha & Hr).
    now rewrite numeric_digits.
Qed.

(** ** The IPv4 patterns on the text of a number *)

Lemma ipv4Part_fail_first (i : nat) (a : ascii) (s : string) c k :
  digit a = false -> rmatch (ipv4Part i) (String a s) c k = None.
Proof.
  intros Ha. unfold ipv4Part. cbn [rmatch Seqs].
  assert (H0 : lit "0" a = false).
  { unfold lit. destruct (Ascii.eqb_spec "0" a) as [<-|]; [discriminate|reflexivity]. }
  rewrite opt_chr_skip by assumption. unfold Plus. cbn [rmatch].
  now rewrite Ha, H0.
Qed.

Lemma ipv4Part_then_dot_fail (i : nat) (s : string) c k :
  all_chars digit s = true ->
  rmatch (ipv4Part i) s c (fun s1 c1 => rmatch (Chr (lit ".")) s1 c1 k) = None.
Proof.
  intros Hs. apply rmatch_fail. intros s' c' Hsuf.
  pose proof (suffix_all_chars digit s' s Hsuf Hs) as H.
  destruct s' as [|b s']; [reflexivity|]. simpl in H.
  apply andb_true_iff in H. destruct H as [Hb _].
  cbn [rmatch]. now rewrite (digit_lit_false "." b).
Qed.

Lemma fourOctet_digits (s : string) :
  all_chars digit s = true -> exec fourOctet s = None.
Proof. intros H. unfold exec, fourOctet. cbn [Seqs]. now apply ipv4Part_then_dot_fail. Qed.

Lemma twoOctet_digits (s : string) :
  all_chars digit s = true -> exec twoOctet s = None.
Proof. intros H. unfold exec, twoOctet. cbn [Seqs]. now apply ipv4Part_then_dot_fail. Qed.

Lemma threeOctet_digits (s : string) :
  all_chars digit s = true -> exec threeOctet s = None.
Proof. intros H. unfold exec, threeOctet. cbn [Seqs]. now apply ipv4Part_then_dot_fail. Qed.

Lemma longValue_digits (a : ascii) (rest : string) :
  digit a = true -> lit "0" a = false -> all_chars digit rest = true ->
  exec longValue (String a rest) = Some ([(1%nat, String a rest)], "").
Proof.
  intros Ha H0 Hr. unfold exec, longValue, ipv4Part. cbn [rmatch Seqs].
  rewrite opt_chr_skip by assumption.
  erewrite plus_chr_all; [reflexivity|assumption|assumption|].
  cbv beta. now rewrite consumed_nil.
Qed.

Lemma digit_char_nonzero (d : Z) : 1 <= d <= 9 -> lit "0" (digit_char d) = false.
Proof.
  intros H. assert (H' : 0 <= d <= 9) by lia. dval_split H'; try reflexivity. lia.
Qed.

Lemma parseIntAuto_digits (a : ascii) (rest : string) :
  digit a = true -> lit "0" a = false -> all_chars digit rest = true ->
  parseIntAuto (String a rest) = Ok (Some (dec_value 0 (String a rest))).
Proof.
  intros Ha H0 Hr. unfold parseIntAuto.
  assert (Hh : test hexRegex (String a rest) = false).
  { unfold test, exec, hexRegex. cbn [rmatch Seqs]. now rewrite H0. }
  rewrite Hh.
  assert (Hs : startsWith "0" (String a rest) = false).
  { cbn [startsWith]. unfold lit in H0. now rewrite H0. }
  rewrite Hs. cbn [andb].
  now rewrite parseInt_digit_string by auto.
Qed.

(** The parser on the decimal text of a positive number: the long-value
    notation. *)
Lemma IPv4_parser_digits (n : Z) :
  1 <= n ->
  IPv4.parser (digits n) =
  if 4294967295 <? n then Throw "ipaddr: address outside defined range"
  else Ok (Some (rev (map (fun shift => Some (band (Some (shr (Some n) shift)) (Some 255)))
                          [0; 8; 16; 24]))).
Proof.
  intros Hn. destruct (digits_head n Hn) as (d & rest & E & Hd).
  pose proof (digits_all n ltac:(lia)) as Hall. pose proof (digits_value n ltac:(lia)) as Hv.
  unfold IPv4.parser. rewrite (fourOctet_digits _ Hall).
  rewrite E in *. simpl in Hall. apply andb_true_iff in Hall. destruct Hall as [Ha Hr].
  rewrite (longValue_digits _ _ Ha (digit_char_nonzero d Hd) Hr).
  cbn [grp cap Nat.eqb].
  rewrite (parseIntAuto_digits _ _ Ha (digit_char_nonzero d Hd) Hr), Hv.
  cbn [bind JS.gt JS.lt].
  replace (n <? 0) with false by (symmetry; apply Z.ltb_ge; lia).
  now rewrite orb_false_r.
Qed.

Lemma IPv4_parser_minus (s : string) : IPv4.parser (String "-" s) = Ok None.
Proof.
  unfold IPv4.parser, exec, fourOctet, longValue, twoOctet, threeOctet.
  cbn [Seqs rmatch]. now rewrite !ipv4Part_fail_first.
Qed.

Lemma IPv4_isValid_minus (s : string) : IPv4.isValid (String "-" s) = false.
Proof. unfold IPv4.isValid. now rewrite IPv4_parser_minus. Qed.

(** ** The octets of a long value *)

Lemma long_octet (n s : Z) :
  0 <= n < 2 ^ 32 -> s = 0 \/ s = 8 \/ s = 16 \/ s = 24 ->
  band (Some (shr (Some n) s)) (Some 255) = (n / 2 ^ s) mod 256.
Proof.
  intros Hn Hs. unfold band, shr.
  change (ToInt32 (Some 255)) with (Z.ones 8). rewrite Z.land_ones by lia.
  assert (Hm : s mod 32 = s) by (destruct Hs as [->|[->|[->| ->]]]; reflexivity).
  rewrite Hm. rewrite Z.shiftr_div_pow2 by lia.
  unfold ToInt32.
  change (2 ^ 31) with 2147483648. change (2 ^ 32) with 4294967296 in *.
  change (2 ^ 8) with 256.
  destruct Hs as [->|[->|[->| ->]]];
    [change (2 ^ 0) with 1 | change (2 ^ 8) with 256
     | change (2 ^ 16) with 65536 | change (2 ^ 24) with 16777216];
    Z.div_mod_to_equations; lia.
Qed.

Lemma long_octets_sum (n : Z) :
  0 <= n < 2 ^ 32 ->
  (n / 2 ^ 24) mod 256 * 2 ^ 24 + (n / 2 ^ 16) mod 256 * 2 ^ 16
  + (n / 2 ^ 8) mod 256 * 2 ^ 8 + (n / 2 ^ 0) mod 256 = n.
Proof.
  intros Hn.
  change (2 ^ 32) with 4294967296 in *.
  change (2 ^ 0) with 1. change (2 ^ 8) with 256.
  change (2 ^ 16) with 65536. change (2 ^ 24) with 16777216.
  Z.div_mod_to_equations. lia.
Qed.

(** ** Contiguous masks *)

Lemma zerotable_cases (o z : Z) :
  IPv4.zerotable o = Some z ->
  In (o, z) [(0, 8); (128, 7); (192, 6); (224, 5); (240, 4); (248, 3);
             (252, 2); (254, 1); (255, 0)].
Proof.
  destruct o as [|p|p]; [| |discriminate].
  - intros H. injection H as <-. simpl. auto.
  - do 8 (destruct p as [p|p|]; try discriminate);
      intros H; injection H as <-; simpl; tauto.
Qed.

(** Once a non-zero octet has been seen, every octet to its left is 255. *)
Lemma prefixLength_loop_stop (a : IPv4_t) (idx : list nat) (cidr p : Z) :
  IPv4.prefixLength_loop a idx cidr true = Some p ->
  p = 32 - cidr /\ Forall (fun i => nth_error (octets a) i = Some 255) idx.
Proof.
  revert cidr. induction idx as [|i idx IH]; intros cidr; cbn [IPv4.prefixLength_loop].
  - intros H. injection H as <-. auto.
  - destruct (nth_error (octets a) i) as [o|] eqn:Eo; [|discriminate].
    destruct (IPv4.zerotable o) as [z|] eqn:Ez; [|discriminate].
    apply zerotable_cases in Ez. simpl in Ez.
    repeat (destruct Ez as [Ez|Ez]; [injection Ez as <- <-; try discriminate|]);
      [|destruct Ez].
    cbn [andb negb Z.eqb]. intros H. apply IH in H. destruct H as [-> H].
    split; [lia|]. constructor; assumption.
Qed.

Lemma prefixLength_loop_go (a : IPv4_t) (i : nat) (idx : list nat) (cidr p : Z) :
  IPv4.prefixLength_loop a (i :: idx) cidr false = Some p ->
  (nth_error (octets a) i = Some 0 /\
   IPv4.prefixLength_loop a idx (cidr + 8) false = Some p) \/
  (exists o z, nth_error (octets a) i = Some o /\
     In (o, z) [(128, 7); (192, 6); (224, 5); (240, 4); (248, 3);
                (252, 2); (254, 1); (255, 0)] /\
     IPv4.prefixLength_loop a idx (cidr + z) true = Some p).
Proof.
  cbn [IPv4.prefixLength_loop].
  destruct (nth_error (octets a) i) as [o|] eqn:Eo; [|discriminate].
  destruct (IPv4.zerotable o) as [z|] eqn:Ez; [|discriminate].
  apply zerotable_cases in Ez. cbn [andb].
  destruct Ez as [Ez|Ez].
  - injection Ez as <- <-. cbn [negb Z.eqb Pos.eqb]. auto.
  - intros H. right. exists o, z. split; [reflexivity|]. split; [assumption|].
    simpl in Ez.
    repeat (destruct Ez as [Ez|Ez]; [injection Ez as <- <-; exact H|]).
    destruct Ez.
Qed.

Ltac mask_leaf H :=
  match type of H with
  | exists _ _, _ =>
      let o := fresh "o" in let z := fresh "z" in
      let Ho := fresh "Ho" in let Hin := fresh "Hin" in let Hl := fresh "Hl" in
      destruct H as (o & z & Ho & Hin & Hl);
      apply prefixLength_loop_stop in Hl; destruct Hl as [-> Hl];
      simpl in Ho; injection Ho as ->;
      repeat match goal with
             | F : Forall _ (_ :: _) |- _ =>
                 let H1 := fresh in let H2 := fresh in
                 inversion F as [|? ? H1 H2]; subst; clear F;
                 simpl in H1; injection H1 as ->
             end;
      simpl in Hin;
      repeat (destruct Hin as [Hin|Hin];
              [injection Hin as <- <-; vm_compute;
               (split; [split; discriminate|reflexivity])|]);
      destruct Hin
  end.

Lemma prefixLength_mask (a b c d p : Z) :
  IPv4.prefixLengthFromSubnetMask (mkIPv4 [a; b; c; d]) = Some p ->
  0 <= p <= 32 /\ a * 2 ^ 24 + b * 2 ^ 16 + c * 2 ^ 8 + d = 2 ^ 32 - 2 ^ (32 - p).
Proof.
  unfold IPv4.prefixLengthFromSubnetMask. intros H.
  apply prefixLength_loop_go in H. destruct H as [[Hd H]|H]; [|mask_leaf H].
  simpl in Hd. injection Hd as ->.
  apply prefixLength_loop_go in H. destruct H as [[Hc H]|H]; [|mask_leaf H].
  simpl in Hc. injection Hc as ->.
  apply prefixLength_loop_go in H. destruct H as [[Hb H]|H]; [|mask_leaf H].
  simpl in Hb. injection Hb as ->.
  apply prefixLength_loop_go in H. destruct H as [[Ha H]|H]; [|mask_leaf H].
  simpl in Ha. injection Ha as ->.
  simpl in H. injection H as <-. vm_compute. split; [split; discriminate|reflexivity].
Qed.

(** ** [convertSubnetToCidr] on a number *)

Lemma convertSubnetToCidr_num (ip : string) (v : option kind) (n : Z) :
  getIpVersion ip = Ok v -> n <> 0 ->
  convertSubnetToCidr (VNum n) ip =
  if (0 <=? n) && (n <=? if kind_eqb (version_or_ipv4 v) ipv6 then 128 else 32)
  then Ok (Some n)
  else if kind_eqb (version_or_ipv4 v) ipv4 && IPv4.isValid (Number_toString n)
       then Ok (try_catch (a <- IPv4.parse (Number_toString n) ;;
                           Ok (IPv4.prefixLengthFromSubnetMask a)) None)
       else Ok None.
Proof.
  intros Hv Hn. unfold convertSubnetToCidr.
  cbn [falsy String_]. replace (n =? 0) with false by (symmetry; now apply Z.eqb_neq).
  rewrite trim_Number_toString, Hv. cbn [bind].
  rewrite isNaN_Number_toString, parseInt_Number_toString by auto.
  reflexivity.
Qed.

Lemma convertSubnetToCidr_num_in_range (ip : string) (v : option kind) (n : Z) :
  getIpVersion ip = Ok v ->
  1 <= n <= (if kind_eqb (version_or_ipv4 v) ipv6 then 128 else 32) ->
  convertSubnetToCidr (VNum n) ip = Ok (Some n).
Proof.
  intros Hv Hn. rewrite (convertSubnetToCidr_num ip v n Hv) by lia.
  replace (0 <=? n) with true by (symmetry; apply Z.leb_le; lia).
  replace (n <=? _) with true by (symmetry; apply Z.leb_le; lia).
  reflexivity.
Qed.

Lemma convertSubnetToCidr_num_negative (ip : string) (n : Z) :
  n < 0 -> convertSubnetToCidr (VNum n) ip = Ok None.
Proof.
  intros Hn. rewrite (convertSubnetToCidr_num ip _ n (getIpVersion_spec ip)) by lia.
  replace (0 <=? n) with false by (symmetry; apply Z.leb_gt; lia).
  cbn [andb]. unfold Number_toString.
  replace (n <? 0) with true by (symmetry; apply Z.ltb_lt; lia).
  rewrite IPv4_isValid_minus. now rewrite andb_false_r.
Qed.

Lemma convertSubnetToCidr_num_ipv6_above (ip : string) (n : Z) :
  getIpVersion ip = Ok (Some ipv6) -> 128 < n ->
  convertSubnetToCidr (VNum n) ip = Ok None.
Proof.
  intros Hv Hn. rewrite (convertSubnetToCidr_num ip _ n Hv) by lia.
  cbn [version_or_ipv4 kind_eqb].
  replace (n <=? 128) with false by (symmetry; apply Z.leb_gt; lia).
  now rewrite andb_false_r.
Qed.

(** The long-value reading of a number: its four octets. *)
Lemma IPv4_parse_digits (n : Z) :
  1 <= n <= 4294967295 ->
  IPv4.isValid (digits n) = true /\
  IPv4.parse (digits n) =
  Ok (mkIPv4 [(n / 2 ^ 24) mod 256; (n / 2 ^ 16) mod 256;
              (n / 2 ^ 8) mod 256; (n / 2 ^ 0) mod 256]).
Proof.
  intros Hn. unfold IPv4.isValid, IPv4.parse.
  rewrite IPv4_parser_digits by lia.
  replace (4294967295 <? n) with false by (symmetry; apply Z.ltb_ge; lia).
  cbn [bind IPv4.new_nullable rev map app].
  assert (Hr : 0 <= n < 2 ^ 32) by (change (2 ^ 32) with 4294967296; lia).
  rewrite !long_octet by auto.
  assert (E : forall x, in_byte (Some (x mod 256)) = true).
  { intros x. unfold in_byte, JS.le. pose proof (Z.mod_pos_bound x 256).
    apply andb_true_iff. split; apply Z.leb_le; lia. }
  unfold IPv4.new. cbn [List.length Nat.eqb negb forallb]. rewrite !E.
  cbn [andb map num_val]. auto.
Qed.

Lemma IPv4_isValid_digits_above (n : Z) :
  4294967295 < n -> IPv4.isValid (digits n) = false.
Proof.
  intros Hn. unfold IPv4.isValid. rewrite IPv4_parser_digits by lia.
  replace (4294967295 <? n) with true by (symmetry; apply Z.ltb_lt; lia).
  reflexivity.
Qed.

(** A number above 32 is accepted under the IPv4 rules only as the long
    value of a contiguous mask, 2^32 - 2^k. *)
Lemma convertSubnetToCidr_num_ipv4_above (ip : string) (v : option kind) (n : Z) :
  getIpVersion ip = Ok v -> v <> Some ipv6 -> 32 < n ->
  (forall k, 0 <= k < 32 -> n <> 2 ^ 32 - 2 ^ k) ->
  convertSubnetToCidr (VNum n) ip = Ok None.
Proof.
  intros Hv Hv6 Hn Hk. rewrite (convertSubnetToCidr_num ip v n Hv) by lia.
  assert (Ek : version_or_ipv4 v = ipv4).
  { destruct v as [[|]|]; try reflexivity. congruence. }
  rewrite Ek. cbn [kind_eqb].
  replace (n <=? 32) with false by (symmetry; apply Z.leb_gt; lia).
  rewrite andb_false_r. cbn [andb].
  unfold Number_toString.
  replace (n <? 0) with false by (symmetry; apply Z.ltb_ge; lia).
  destruct (Z_lt_le_dec 4294967295 n) as [Hbig|Hsmall].
  - now rewrite IPv4_isValid_digits_above.
  - destruct (IPv4_parse_digits n ltac:(lia)) as [-> ->]. cbn [bind try_catch].
    destruct (IPv4.prefixLengthFromSubnetMask _) as [p|] eqn:Ep; [|reflexivity].
    exfalso. apply prefixLength_mask in Ep. destruct Ep as [Hp Es].
    rewrite long_octets_sum in Es by (change (2 ^ 32) with 4294967296; lia).
    destruct (Z.eq_dec p 0) as [->|Hp0].
    + change (2 ^ 32 - 2 ^ (32 - 0)) with 0 in Es. lia.
    + apply (Hk (32 - p)); [lia|assumption].
Qed.

(** ** The text of an IPv4 address *)

Lemma wf4_inv (a : IPv4_t) :
  wf_addr (V4 a) ->
  exists a0 a1 a2 a3,
    a = mkIPv4 [a0; a1; a2; a3] /\ byte a0 /\ byte a1 /\ byte a2 /\ byte a3.
Proof.
  destruct a as [l]. simpl. intros [Hl Hf].
  destruct l as [|a0 [|a1 [|a2 [|a3 [|]]]]]; try discriminate.
  inversion Hf as [|? ? H0 Hf0]; subst. inversion Hf0 as [|? ? H1 Hf1]; subst.
  inversion Hf1 as [|? ? H2 Hf2]; subst. inversion Hf2 as [|? ? H3 Hf3]; subst.
  exists a0, a1, a2, a3. unfold byte. auto.
Qed.

Lemma digit_or_dot_dot (c : ascii) : digit c || lit "." c = true -> dot c = true.
Proof.
  intros H. apply orb_true_iff in H. destruct H as [H|H].
  - digit_split H; reflexivity.
  - unfold lit in H. apply Ascii.eqb_eq in H. subst. reflexivity.
Qed.

Lemma Number_toString_nonneg (n : Z) : 0 <= n -> Number_toString n = digits n.
Proof.
  intros H. unfold Number_toString.
  now replace (n <? 0) with false by (symmetry; apply Z.ltb_ge; lia).
Qed.

Lemma digits_digit_or_dot (n : Z) :
  0 <= n -> all_chars (fun c => digit c || lit "." c) (digits n) = true.
Proof.
  intros H. apply (all_chars_impl digit); [|now apply digits_all].
  intros a Ha. now rewrite Ha.
Qed.

Lemma IPv4_toString_chars (a0 a1 a2 a3 : Z) :
  byte a0 -> byte a1 -> byte a2 -> byte a3 ->
  exists c s, IPv4.toString (mkIPv4 [a0; a1; a2; a3]) = String c s /\
              all_chars dot (String c s) = true.
Proof.
  unfold byte. intros H0 H1 H2 H3.
  assert (Hall : all_chars (fun c => digit c || lit "." c)
                   (IPv4.toString (mkIPv4 [a0; a1; a2; a3])) = true).
  { unfold IPv4.toString, join. cbn [octets map String.concat].
    rewrite !Number_toString_nonneg by lia.
    rewrite !all_chars_app. cbn [all_chars].
    rewrite !digits_digit_or_dot by lia. reflexivity. }
  destruct (IPv4.toString (mkIPv4 [a0; a1; a2; a3])) as [|c s] eqn:E.
  - exfalso. unfold IPv4.toString, join in E. cbn [octets map String.concat] in E.
    rewrite Number_toString_nonneg in E by lia.
    destruct (digits_cons a0 ltac:(lia)) as (x & r & Ex & _). rewrite Ex in E.
    discriminate.
  - exists c, s. split; [reflexivity|].
    apply (all_chars_impl (fun c => digit c || lit "." c)); [|assumption].
    apply digit_or_dot_dot.
Qed.

Lemma last_char_app (u v : string) :
  v <> "" -> last_char (u ++ v) = last_char v.
Proof.
  intros Hv. induction u as [|a u IH]; [reflexivity|].
  cbn [append last_char]. rewrite IH.
  destruct (u ++ v) eqn:E; [|reflexivity].
  destruct u; simpl in E; [congruence|discriminate].
Qed.

Lemma last_char_digits (n : Z) :
  0 <= n -> last_char (digits n) = Some (digit_char (n mod 10)).
Proof.
  intros _. unfold digits. generalize (Z.to_nat (Z.log2 n)). intros f.
  destruct f as [|f]; [reflexivity|]. cbn [digits_fuel].
  destruct (n <? 10); [reflexivity|].
  rewrite digits_fuel_app. now rewrite last_char_app by discriminate.
Qed.

Lemma IPv4_toString_last (a0 a1 a2 a3 : Z) :
  0 <= a3 ->
  last_char (IPv4.toString (mkIPv4 [a0; a1; a2; a3])) = Some (digit_char (a3 mod 10)).
Proof.
  intros H3. unfold IPv4.toString, join. cbn [octets map String.concat].
  rewrite (Number_toString_nonneg a3) by lia.
  destruct (digits_cons a3 H3) as (x & r & Ex & _).
  assert (Hne : forall u, u ++ digits a3 <> "").
  { intros u. rewrite Ex. destruct u; discriminate. }
  rewrite !last_char_app; try apply Hne; try (rewrite Ex; discriminate).
  - now apply last_char_digits.
  - intros E. destruct (Number_toString a2); discriminate.
  - intros E. destruct (Number_toString a1); discriminate.
Qed.

(** ** [parseCIDR] on [`${ip}/${cidr}`] *)

Lemma cidrRegex_exec (a d : ascii) (u ds : string) :
  all_chars dot (String a u) = true -> all_chars digit (String d ds) = true ->
  exec IPv4.cidrRegex (String a u ++ "/" ++ String d ds) =
  Some ([(2%nat, String d ds); (1%nat, String a u)], "").
Proof.
  intros Hu Hd. cbn [all_chars] in Hu, Hd.
  apply andb_true_iff in Hu. destruct Hu as [Ha Hu].
  apply andb_true_iff in Hd. destruct Hd as [Hd Hds].
  unfold exec, IPv4.cidrRegex. cbn [Seqs]. cbn [rmatch]. unfold Plus at 1.
  cbn [rmatch append]. rewrite Ha.
  match goal with
  | |- star_iter _ ?k _ _ _ = _ => set (K := k)
  end.
  assert (HK : K ("/" ++ String d ds) [] =
               Some ([(2%nat, String d ds); (1%nat, String a u)], "")).
  { subst K. cbv beta. cbn [append]. change (lit "/" "/") with true. cbv iota.
    erewrite plus_chr_all; [reflexivity|assumption|assumption|].
    cbv beta. rewrite consumed_nil.
    change (String a (u ++ String "/" (String d ds)))
      with (String a u ++ String "/" (String d ds)).
    now rewrite consumed_app. }
  apply star_chr_deeper; [|assumption|apply Nat.le_refl].
  rewrite star_chr_backtrack; [assumption|].
  intros x s' E. cbn [append] in E. injection E as _ <-.
  intros s'' c'' Hs. subst K. cbv beta.
  pose proof (suffix_all_chars digit s'' (String d ds) Hs) as Hall.
  cbn [all_chars] in Hall. rewrite Hd, Hds in Hall. specialize (Hall eq_refl).
  destruct s'' as [|y s'']; [reflexivity|].
  cbn [all_chars] in Hall. apply andb_true_iff in Hall. destruct Hall as [Hy _].
  now rewrite (digit_lit_false "/" y).
Qed.

Lemma parseCIDR_template (ip : string) (c : Z) :
  all_chars dot ip = true -> ip <> "" -> 0 <= c <= 32 ->
  IPv4.parseCIDR (ip ++ "/" ++ Number_toString c) =
  a <- IPv4.parse ip ;; Ok (a, c).
Proof.
  intros Hip Hne Hc. destruct ip as [|a u]; [congruence|].
  rewrite Number_toString_nonneg by lia.
  destruct (digits_cons c ltac:(lia)) as (d & ds & Ed & Hd & Hds).
  pose proof (parseInt_digits c 0 ltac:(lia) ltac:(auto)) as Hp.
  rewrite Ed in *.
  unfold IPv4.parseCIDR. rewrite cidrRegex_exec; [|assumption|].
  2:{ cbn [all_chars]. now rewrite Hd, Hds. }
  cbn [grp cap Nat.eqb]. rewrite Hp. cbn [JS.le num_val].
  replace (0 <=? c) with true by (symmetry; apply Z.leb_le; lia).
  replace (c <=? 32) with true by (symmetry; apply Z.leb_le; lia).
  reflexivity.
Qed.

(** ** Netmasks, network and broadcast addresses *)

Lemma subnetMaskFromPrefixLength_spec (c : Z) :
  0 <= c <= 32 ->
  exists m0 m1 m2 m3,
    IPv4.subnetMaskFromPrefixLength c = Ok (mkIPv4 [m0; m1; m2; m3]) /\
    byte m0 /\ byte m1 /\ byte m2 /\ byte m3 /\
    (c < 31 -> Z.odd m3 = false).
Proof.
  intros Hc.
  assert (H : c = 0 \/ c = 1 \/ c = 2 \/ c = 3 \/ c = 4 \/ c = 5 \/ c = 6 \/ c = 7 \/ c = 8 \/ c = 9 \/ c = 10 \/ c = 11 \/ c = 12 \/ c = 13 \/ c = 14 \/ c = 15 \/ c = 16 \/ c = 17 \/ c = 18 \/ c = 19 \/ c = 20 \/ c = 21 \/ c = 22 \/ c = 23 \/ c = 24 \/ c = 25 \/ c = 26 \/ c = 27 \/ c = 28 \/ c = 29 \/ c = 30 \/ c = 31 \/ c = 32) by lia.
  repeat (destruct H as [H|H];
          [subst c; vm_compute; do 4 eexists;
           repeat split; try reflexivity; try discriminate; intros; lia|]).
  subst c; vm_compute; do 4 eexists;
    repeat split; try reflexivity; try discriminate; intros; lia.
Qed.

Lemma ToInt32_byte (x : Z) : byte x -> ToInt32 (Some x) = x.
Proof.
  unfold byte, ToInt32. intros H.
  change (2 ^ 31) with 2147483648. change (2 ^ 32) with 4294967296.
  rewrite Z.mod_small; lia.
Qed.

Lemma byte_log2 (x : Z) : byte x <-> 0 <= x /\ (x = 0 \/ Z.log2 x < 8).
Proof.
  unfold byte. split.
  - intros H. split; [lia|]. destruct (Z.eq_dec x 0) as [->|Hz]; [auto|].
    right. apply Z.log2_lt_pow2; [lia|]. change (2 ^ 8) with 256. lia.
  - intros [H0 [->|H]]; [lia|]. destruct (Z.eq_dec x 0) as [->|Hz]; [lia|].
    apply Z.log2_lt_pow2 in H; [|lia]. change (2 ^ 8) with 256 in H. lia.
Qed.

Lemma byte_land (a b : Z) : byte a -> byte b -> byte (Z.land a b).
Proof.
  intros Ha Hb. apply byte_log2 in Ha, Hb. apply byte_log2.
  destruct Ha as [Ha0 Ha], Hb as [Hb0 Hb].
  split; [apply Z.land_nonneg; lia|].
  destruct Ha as [->|Ha]; [left; apply Z.land_0_l|].
  right. pose proof (Z.log2_land a b Ha0 Hb0). lia.
Qed.

Lemma byte_lor (a b : Z) : byte a -> byte b -> byte (Z.lor a b).
Proof.
  intros Ha Hb. apply byte_log2 in Ha, Hb. apply byte_log2.
  destruct Ha as [Ha0 Ha], Hb as [Hb0 Hb].
  split; [apply Z.lor_nonneg; lia|].
  destruct Ha as [->|Ha]; [rewrite Z.lor_0_l; auto|].
  destruct Hb as [->|Hb]; [rewrite Z.lor_0_r; auto|].
  right. rewrite Z.log2_lor by lia. lia.
Qed.

Lemma byte_lxor (a b : Z) : byte a -> byte b -> byte (Z.lxor a b).
Proof.
  intros Ha Hb. apply byte_log2 in Ha, Hb. apply byte_log2.
  destruct Ha as [Ha0 Ha], Hb as [Hb0 Hb].
  split; [apply Z.lxor_nonneg; lia|].
  destruct Ha as [->|Ha]; [rewrite Z.lxor_0_l; auto|].
  destruct Hb as [->|Hb]; [rewrite Z.lxor_0_r; auto|].
  right. pose proof (Z.log2_lxor a b Ha0 Hb0). lia.
Qed.

Lemma in_byte_byte (x : Z) : byte x -> in_byte (Some x) = true.
Proof.
  unfold byte, in_byte, JS.le. intros H.
  apply andb_true_iff. split; apply Z.leb_le; lia.
Qed.

Lemma byte_at_nth (l : list Z) (i : nat) (x : Z) :
  nth_error l i = Some x -> IPv4.byte_at l i = Some x.
Proof.
  intros H. unfold IPv4.byte_at. rewrite H. apply parseInt_Number_toString. auto.
Qed.

(** Both helpers run the same [parseCIDR] and mask computation; on bytes
    the results are the bitwise AND with the mask and the bitwise OR with
    its complement. *)
Lemma cidr_addresses (s : string) (c a0 a1 a2 a3 m0 m1 m2 m3 : Z) :
  IPv4.parseCIDR s = Ok (mkIPv4 [a0; a1; a2; a3], c) ->
  IPv4.subnetMaskFromPrefixLength c = Ok (mkIPv4 [m0; m1; m2; m3]) ->
  byte a0 -> byte a1 -> byte a2 -> byte a3 ->
  byte m0 -> byte m1 -> byte m2 -> byte m3 ->
  IPv4.networkAddressFromCIDR s =
    Ok (mkIPv4 [Z.land a0 m0; Z.land a1 m1; Z.land a2 m2; Z.land a3 m3]) /\
  IPv4.broadcastAddressFromCIDR s =
    Ok (mkIPv4 [Z.lor a0 (Z.lxor m0 255); Z.lor a1 (Z.lxor m1 255);
                Z.lor a2 (Z.lxor m2 255); Z.lor a3 (Z.lxor m3 255)]).
Proof.
  intros Hp Hm A0 A1 A2 A3 M0 M1 M2 M3.
  assert (B255 : byte 255) by (unfold byte; lia).
  unfold IPv4.networkAddressFromCIDR, IPv4.broadcastAddressFromCIDR.
  rewrite Hp. cbn [bind fst snd]. rewrite Hm. cbn [bind IPv4.toByteArray octets map].
  repeat match goal with
         | |- context [IPv4.byte_at ?l ?i] => rewrite (byte_at_nth l i _ eq_refl)
         end.
  unfold band, bor, bxor.
  rewrite !ToInt32_byte by (auto using byte_lxor).
  unfold IPv4.new. cbn [List.length Nat.eqb negb forallb].
  rewrite !in_byte_byte by (auto using byte_land, byte_lor, byte_lxor).
  cbn [andb map num_val]. auto.
Qed.

Lemma odd_land (a m : Z) : Z.odd (Z.land a m) = Z.odd a && Z.odd m.
Proof. rewrite <- !Z.bit0_odd. apply Z.land_spec. Qed.

Lemma odd_lor_lxor_255 (a m : Z) :
  Z.odd m = false -> Z.odd (Z.lor a (Z.lxor m 255)) = true.
Proof.
  intros H. rewrite <- !Z.bit0_odd in *. rewrite Z.lor_spec, Z.lxor_spec, H.
  now rewrite orb_true_r.
Qed.

Lemma digit_char_inj (x y : Z) :
  0 <= x <= 9 -> 0 <= y <= 9 -> digit_char x = digit_char y -> x = y.
Proof.
  intros Hx Hy E. rewrite <- (digit_char_code x Hx), <- (digit_char_code y Hy).
  now rewrite E.
Qed.

Lemma last_digit_parity (x y : Z) :
  Z.odd x = false -> Z.odd y = true -> x mod 10 <> y mod 10.
Proof.
  intros Hx Hy. rewrite <- Z.negb_even in Hx. apply negb_false_iff in Hx.
  apply Z.even_spec in Hx. apply Z.odd_spec in Hy.
  destruct Hx as [k ->], Hy as [k' ->]. Z.div_mod_to_equations. lia.
Qed.

(** A prefix length that [convertSubnetToCidr] returns on the IPv4 rules
    lies in 0..32. *)
Lemma convertSubnetToCidr_ipv4_range (subnet : value) (ip : string) (cidr : Z) :
  getIpVersion ip = Ok (Some ipv4) ->
  convertSubnetToCidr subnet ip = Ok (Some cidr) -> 0 <= cidr <= 32.
Proof.
  intros Hv. unfold convertSubnetToCidr. destruct (falsy subnet); [discriminate|].
  rewrite Hv. cbn [bind kind_eqb].
  destruct (negb _ && cidr_in_range _ _) eqn:E.
  - apply andb_true_iff in E. destruct E as [_ E]. unfold cidr_in_range in E.
    destruct (parseInt _ 10) as [c|]; [|discriminate].
    intros H. injection H as <-. cbn [num_val]. lia.
  - destruct (true && IPv4.isValid _); [|discriminate].
    destruct (IPv4.parse _) as [a|] eqn:Ep; cbn [bind try_catch]; [|discriminate].
    intros H. injection H as H.
    destruct (wf4_inv a (IPv4_parse_wf _ _ Ep)) as (a0 & a1 & a2 & a3 & -> & _).
    apply prefixLength_mask in H. destruct H as [H _]. exact H.
Qed.

(** The IPv4 branch of [checkIpAndSubnet]. *)
Lemma checkIpAndSubnet_ipv4_unfold (ip : string) (subnet : value) (cidr : Z) :
  validateIp ip = true -> getIpVersion ip = Ok (Some ipv4) ->
  convertSubnetToCidr subnet ip = Ok (Some cidr) ->
  checkIpAndSubnet ip subnet =
  Ok (try_catch
        (n <- IPv4.networkAddressFromCIDR (ip ++ "/" ++ Number_toString cidr) ;;
         b <- IPv4.broadcastAddressFromCIDR (ip ++ "/" ++ Number_toString cidr) ;;
         if String.eqb ip (IPv4.toString n) && (cidr <? 31) then Ok (Some msg_network)
         else if String.eqb ip (IPv4.toString b) && (cidr <? 31)
              then Ok (Some msg_broadcast)
              else Ok None)
        (Some msg_invalid_mask)).
Proof.
  intros Hv Hk Hc. unfold checkIpAndSubnet. rewrite Hc. cbn [bind is_null cidr_val num_val].
  rewrite Hv. cbn [negb orb].
  destruct (validateIp_parse ip Hv) as (a & Ha & Hk'). rewrite Ha. cbn [bind].
  rewrite Hk in Hk'. destruct a as [a|a]; [reflexivity|discriminate].
Qed.

(** ** What a match consumes *)

Lemma star_iter_within P m1 k :
  consumes_within P m1 ->
  forall n s c x, star_iter m1 k n s c = Some x ->
  exists u s' c', s = u ++ s' /\ all_chars P u = true /\ k s' c' = Some x.
Proof.
  intros Hm. induction n as [|n IH]; intros s c x H; simpl in H.
  - exists "", s, c. auto.
  - destruct (m1 s c _) as [y|] eqn:E.
    + injection H as ->. apply Hm in E. destruct E as (u & s' & c' & -> & Hu & Hk).
      destruct (Nat.ltb _ _); [|discriminate].
      apply IH in Hk. destruct Hk as (u2 & s2 & c2 & -> & Hu2 & Hk2).
      exists (u ++ u2), s2, c2. rewrite app_assoc_s, all_chars_app, Hu, Hu2.
      repeat split; auto.
    + exists "", s, c. auto.
Qed.

Lemma rmatch_within P (r : regex) :
  classes_within P r -> consumes_within P (rmatch r).
Proof.
  induction r as [|p|r1 IH1 r2 IH2|r1 IH1 r2 IH2|r IH|i r IH|];
    intros Hr s c k x H; cbn [rmatch] in H.
  - exists "", s, c. auto.
  - destruct s as [|a s]; [discriminate|]. destruct (p a) eqn:Ea; [|discriminate].
    exists (String a ""), s, c. cbn [append all_chars]. rewrite (Hr a Ea). auto.
  - destruct Hr as [H1 H2]. apply (IH1 H1) in H.
    destruct H as (u & s' & c' & -> & Hu & Hk). apply (IH2 H2) in Hk.
    destruct Hk as (u2 & s2 & c2 & -> & Hu2 & Hk2).
    exists (u ++ u2), s2, c2. rewrite app_assoc_s, all_chars_app, Hu, Hu2.
    repeat split; auto.
  - destruct Hr as [H1 H2]. destruct (rmatch r1 s c k) as [y|] eqn:E.
    + injection H as ->. now apply (IH1 H1) in E.
    + now apply (IH2 H2) in H.
  - exact (star_iter_within P (rmatch r) k (IH Hr) _ s c x H).
  - apply (IH Hr) in H. destruct H as (u & s' & c' & -> & Hu & Hk).
    exists u, s'. eexists. repeat split; [assumption|exact Hk].
  - destruct s; [|discriminate]. exists "", "", c. auto.
Qed.

Lemma rmatch_seq_within P (r1 r2 : regex) s c k x :
  classes_within P r1 -> rmatch (Seq r1 r2) s c k = Some x ->
  exists u s' c', s = u ++ s' /\ all_chars P u = true /\ rmatch r2 s' c' k = Some x.
Proof. intros H1 H. cbn [rmatch] in H. now apply (rmatch_within P r1 H1) in H. Qed.

Lemma digit_or_dot_class (p : ascii -> bool) :
  (forall a, p a = true -> digit a = true) ->
  forall a, p a = true -> digit a || lit "." a = true.
Proof. intros H a Ha. now rewrite (H a Ha). Qed.

Lemma decimalPart_within (i : nat) :
  classes_within (fun c => digit c || lit "." c) (IPv4.decimalPart i).
Proof.
  unfold IPv4.decimalPart. cbn [classes_within]. repeat split.
  - intros a Ha. unfold lit in Ha. apply Ascii.eqb_eq in Ha. now subst.
  - intros a Ha. apply orb_true_iff. left. unfold digit, between in *.
    apply andb_true_iff in Ha. destruct Ha as [H1 H2].
    apply andb_true_iff. split; [|assumption].
    apply N.leb_le in H1. apply N.leb_le.
    change (N_of_ascii "1") with 49%N in H1. change (N_of_ascii "0") with 48%N. lia.
  - intros a Ha. now rewrite Ha.
Qed.

Lemma dotPart_within :
  classes_within (fun c => digit c || lit "." c)
                 (Grp 2 (Seq (Chr (lit ".")) (IPv4.decimalPart 3))).
Proof.
  cbn [classes_within]. split; [|apply decimalPart_within].
  intros a Ha. rewrite Ha. apply orb_true_r.
Qed.

(** A string that passes the four-part-decimal pattern is made of digits
    and dots. *)
Lemma fourPartDecimal_chars (s : string) :
  test IPv4.fourPartDecimal s = true ->
  all_chars (fun c => digit c || lit "." c) s = true /\ s <> "".
Proof.
  unfold test, exec. intros H.
  destruct (rmatch IPv4.fourPartDecimal s [] _) as [x|] eqn:E; [|discriminate].
  split.
  - unfold IPv4.fourPartDecimal in E. cbn [Seqs] in E.
    apply (rmatch_seq_within _ _ _ _ _ _ _ (decimalPart_within 1)) in E.
    destruct E as (u1 & s1 & c1 & -> & H1 & E).
    apply (rmatch_seq_within _ _ _ _ _ _ _ dotPart_within) in E.
    destruct E as (u2 & s2 & c2 & -> & H2 & E).
    apply (rmatch_seq_within _ _ _ _ _ _ _ dotPart_within) in E.
    destruct E as (u3 & s3 & c3 & -> & H3 & E).
    apply (rmatch_seq_within _ _ _ _ _ _ _ dotPart_within) in E.
    destruct E as (u4 & s4 & c4 & -> & H4 & E).
    cbn [rmatch] in E. destruct s4; [|discriminate].
    rewrite !all_chars_app, H1, H2, H3, H4. reflexivity.
  - intros ->. vm_compute in E. discriminate.
Qed.

(** ** The IPv6 parser re-enters itself at most once *)

(** The text [::ffff:...] that a [deprecatedTransitional] match hands back
    to the parser does not match that pattern again: one unit of fuel is
    enough and [IPv6.parser] never runs out. *)
Lemma IPv6_parser_fuel_enough (s : string) :
  exists r, IPv6.parser_fuel 1 s = Some r.
Proof.
  cbn [IPv6.parser_fuel].
  destruct (exec deprecatedTransitional s) as [[m r]|]; [|eauto].
  assert (E : exec deprecatedTransitional ("::ffff:" ++ grp 1 m) = None).
  { unfold exec, deprecatedTransitional, colons. cbn [Seqs rmatch append].
    change (lit ":" ":") with true. cbv iota.
    now rewrite ipv4Part_fail_first. }
  rewrite E. eauto.
Qed.

(** ** The helper calls of the IPv4 branch *)

(** A valid address of the IPv4 family is a four-part decimal. *)
Lemma validateIp_ipv4_fourPart (ip : string) :
  validateIp ip = true -> getIpVersion ip = Ok (Some ipv4) ->
  IPv4.isValid ip = true /\ test IPv4.fourPartDecimal ip = true.
Proof.
  intros Hv Hk. rewrite getIpVersion_spec in Hk.
  unfold validateIp, IPv4.isValidFourPartDecimal in Hv.
  destruct (ipaddr.isValid ip); [|discriminate].
  destruct (IPv6.isValid ip); [discriminate|].
  destruct (IPv4.isValid ip); [|discriminate].
  destruct (test IPv4.fourPartDecimal ip); [auto|discriminate].
Qed.

(** In the IPv4 branch the two helper calls never throw: on a valid
    address and a prefix length in 0..32 they return the bitwise AND of
    the octets with the netmask and the bitwise OR with its complement. *)
Lemma cidr_helpers_total (ip : string) (cidr : Z) :
  validateIp ip = true -> getIpVersion ip = Ok (Some ipv4) -> 0 <= cidr <= 32 ->
  exists a0 a1 a2 a3 m0 m1 m2 m3,
    IPv4.parse ip = Ok (mkIPv4 [a0; a1; a2; a3]) /\
    IPv4.subnetMaskFromPrefixLength cidr = Ok (mkIPv4 [m0; m1; m2; m3]) /\
    IPv4.networkAddressFromCIDR (ip ++ "/" ++ Number_toString cidr) =
      Ok (mkIPv4 [Z.land a0 m0; Z.land a1 m1; Z.land a2 m2; Z.land a3 m3]) /\
    IPv4.broadcastAddressFromCIDR (ip ++ "/" ++ Number_toString cidr) =
      Ok (mkIPv4 [Z.lor a0 (Z.lxor m0 255); Z.lor a1 (Z.lxor m1 255);
                  Z.lor a2 (Z.lxor m2 255); Z.lor a3 (Z.lxor m3 255)]).
Proof.
  intros Hv Hk Hc.
  destruct (validateIp_ipv4_fourPart ip Hv Hk) as [H4 Hf].
  destruct (fourPartDecimal_chars ip Hf) as [Hall Hne].
  destruct (IPv4_isValid_parse ip H4) as [a Ha].
  destruct (wf4_inv a (IPv4_parse_wf ip a Ha)) as (a0 & a1 & a2 & a3 & -> & A0 & A1 & A2 & A3).
  destruct (subnetMaskFromPrefixLength_spec cidr Hc)
    as (m0 & m1 & m2 & m3 & Hm & M0 & M1 & M2 & M3 & _).
  exists a0, a1, a2, a3, m0, m1, m2, m3.
  split; [assumption|]. split; [assumption|].
  apply (cidr_addresses _ cidr); auto.
  rewrite parseCIDR_template; auto.
  - now rewrite Ha.
  - apply (all_chars_impl (fun c => digit c || lit "." c)); [|assumption].
    apply digit_or_dot_dot.
Qed.

(** With a prefix length below 31 the network and the broadcast address
    of a subnet are written differently: their last octets differ in the
    lowest bit. *)
Lemma network_broadcast_differ (a0 a1 a2 a3 m0 m1 m2 m3 : Z) :
  byte a3 -> byte m3 -> Z.odd m3 = false ->
  IPv4.toString (mkIPv4 [Z.land a0 m0; Z.land a1 m1; Z.land a2 m2; Z.land a3 m3]) <>
  IPv4.toString (mkIPv4 [Z.lor a0 (Z.lxor m0 255); Z.lor a1 (Z.lxor m1 255);
                         Z.lor a2 (Z.lxor m2 255); Z.lor a3 (Z.lxor m3 255)]).
Proof.
  intros A3 M3 Hodd E. apply (f_equal last_char) in E.
  assert (B3 : byte (Z.land a3 m3)) by (apply byte_land; assumption).
  assert (B3' : byte (Z.lor a3 (Z.lxor m3 255)))
    by (apply byte_lor; auto; apply byte_lxor; auto; unfold byte; lia).
  unfold byte in B3, B3'.
  rewrite !IPv4_toString_last in E by lia. injection E as E.
  apply digit_char_inj in E; try apply mod10_range.
  revert E. apply last_digit_parity.
  - rewrite odd_land, Hodd. apply andb_false_r.
  - now apply odd_lor_lxor_255.
Qed.

(** ** The claims *)

(** C4: strict validity implies lenient validity: whenever [validateIp s]
    is true, [getIpVersion s] is not null; the converse fails, the IPv4
    long-value shorthand 3232235777 has a version but is not valid for
    [validateIp]. *)
Theorem validateIp_implies_getIpVersion :
  (forall s, validateIp s = true -> exists k, getIpVersion s = Ok (Some k)) /\
  (exists s, (exists k, getIpVersion s = Ok (Some k)) /\ validateIp s = false).
Proof.
  split.
  - intros s H. destruct (validateIp_parse s H) as (a & _ & Hv). eauto.
  - exists "3232235777". split; [exists ipv4|]; vm_compute; reflexivity.
Qed.

Lemma validateIp_implies_getIpVersion_witness :
  validateIp "192.168.1.1" = true /\
  exists k, getIpVersion "192.168.1.1" = Ok (Some k).
Proof.
  split; [vm_compute; reflexivity|].
  apply (proj1 validateIp_implies_getIpVersion "192.168.1.1").
  vm_compute; reflexivity.
Defined.

(** C6: with an IPv4 reference address, the dotted-decimal mask
    255.255.255.0 normalizes to 24 and the non-contiguous mask 255.0.255.0
    to null; [validateSubnet] is true for the first and false for the
    second. *)
Theorem convertSubnetToCidr_dotted_mask (ip : string) :
  getIpVersion ip = Ok (Some ipv4) ->
  convertSubnetToCidr (VStr "255.255.255.0") ip = Ok (Some 24) /\
  convertSubnetToCidr (VStr "255.0.255.0") ip = Ok None /\
  validateSubnet (VStr "255.255.255.0") ip = Ok true /\
  validateSubnet (VStr "255.0.255.0") ip = Ok false.
Proof.
  intros H. unfold validateSubnet, convertSubnetToCidr. rewrite H.
  repeat (split; [vm_compute; reflexivity|]). vm_compute; reflexivity.
Qed.

Lemma convertSubnetToCidr_dotted_mask_witness :
  getIpVersion "10.1.2.3" = Ok (Some ipv4) /\
  convertSubnetToCidr (VStr "255.255.255.0") "10.1.2.3" = Ok (Some 24) /\
  convertSubnetToCidr (VStr "255.0.255.0") "10.1.2.3" = Ok None /\
  validateSubnet (VStr "255.255.255.0") "10.1.2.3" = Ok true /\
  validateSubnet (VStr "255.0.255.0") "10.1.2.3" = Ok false.
Proof.
  split; [vm_compute; reflexivity|].
  apply (convertSubnetToCidr_dotted_mask "10.1.2.3").
  vm_compute; reflexivity.
Defined.

(** C7: [isPublicIp ip] is false when [validateIp ip] is false; otherwise
    the address parses, its range classification is computed without an
    exception, and the result is true exactly when that classification is
    "unicast".  8.8.8.8 is public; 192.168.1.1, 10.0.0.1, 172.16.0.1 and
    "not an ip" are not. *)
Theorem isPublicIp_spec :
  (forall ip, validateIp ip = false -> isPublicIp ip = false) /\
  (forall ip, validateIp ip = true ->
     exists a r, ipaddr.parse ip = Ok a /\ ipaddr.range a = Ok r /\
                 (isPublicIp ip = true <-> r = "unicast")) /\
  isPublicIp "8.8.8.8" = true /\
  isPublicIp "192.168.1.1" = false /\
  isPublicIp "10.0.0.1" = false /\
  isPublicIp "172.16.0.1" = false /\
  isPublicIp "not an ip" = false.
Proof.
  split; [|split].
  - intros ip H. unfold isPublicIp. now rewrite H.
  - intros ip H. destruct (validateIp_parse ip H) as (a & Ha & _).
    destruct (range_total a (parse_wf ip a Ha)) as [r Hr].
    exists a, r. repeat split; try assumption.
    + unfold isPublicIp. rewrite H, Ha. simpl. rewrite Hr. simpl.
      apply String.eqb_eq.
    + intros ->. unfold isPublicIp. rewrite H, Ha. simpl. rewrite Hr. reflexivity.
  - repeat (split; [vm_compute; reflexivity|]). vm_compute; reflexivity.
Qed.

Lemma isPublicIp_spec_witness :
  validateIp "8.8.8.8" = true /\
  exists a r, ipaddr.parse "8.8.8.8" = Ok a /\ ipaddr.range a = Ok r /\
              (isPublicIp "8.8.8.8" = true <-> r = "unicast").
Proof.
  split; [vm_compute; reflexivity|].
  apply (proj1 (proj2 isPublicIp_spec) "8.8.8.8").
  vm_compute; reflexivity.
Defined.

(** C8: same-subnet membership is reflexive on valid inputs: when
    [validateIp ip] and [validateSubnet subnet ip] are true,
    [isSameSubnet ip ip subnet] is true. *)
Theorem isSameSubnet_refl (ip : string) (subnet : value) :
  validateIp ip = true -> validateSubnet subnet ip = Ok true ->
  isSameSubnet ip ip subnet = Ok true.
Proof.
  intros Hv Hs. unfold validateSubnet in Hs. unfold isSameSubnet.
  destruct (convertSubnetToCidr subnet ip) as [[c|]|e]; simpl in *; try discriminate.
  rewrite Hv. simpl.
  destruct (validateIp_parse ip Hv) as (a & Ha & _). rewrite Ha. simpl.
  assert (Hk : kind_eqb (addr_kind a) (addr_kind a) = true) by (destruct a; reflexivity).
  rewrite Hk. simpl. now rewrite match_refl.
Qed.

Lemma isSameSubnet_refl_witness :
  validateIp "2001:db8::1" = true /\
  validateSubnet (VStr "64") "2001:db8::1" = Ok true /\
  isSameSubnet "2001:db8::1" "2001:db8::1" (VStr "64") = Ok true.
Proof.
  split; [vm_compute; reflexivity|]. split; [vm_compute; reflexivity|].
  apply (isSameSubnet_refl "2001:db8::1" (VStr "64")); vm_compute; reflexivity.
Defined.

(** C9: [isSameSubnet] never throws, and it is false when [ip1] or [ip2]
    fails [validateIp], when [convertSubnetToCidr subnet ip1] (the family
    is that of [ip1]) is null, and when the two addresses parse to
    different families; [isSameSubnet "192.168.1.1" "::1" 24] is false. *)
Theorem isSameSubnet_false_cases :
  (forall ip1 ip2 subnet, exists b, isSameSubnet ip1 ip2 subnet = Ok b) /\
  (forall ip1 ip2 subnet,
     validateIp ip1 = false \/ validateIp ip2 = false ->
     isSameSubnet ip1 ip2 subnet = Ok false) /\
  (forall ip1 ip2 subnet,
     convertSubnetToCidr subnet ip1 = Ok None ->
     isSameSubnet ip1 ip2 subnet = Ok false) /\
  (forall ip1 ip2 subnet a1 a2,
     ipaddr.parse ip1 = Ok a1 -> ipaddr.parse ip2 = Ok a2 ->
     addr_kind a1 <> addr_kind a2 ->
     isSameSubnet ip1 ip2 subnet = Ok false) /\
  isSameSubnet "192.168.1.1" "::1" (VNum 24) = Ok false.
Proof.
  repeat split.
  - intros ip1 ip2 subnet. unfold isSameSubnet.
    destruct (convertSubnetToCidr_total subnet ip1) as [c ->]. simpl.
    destruct (_ || is_null c); eauto.
  - intros ip1 ip2 subnet H. unfold isSameSubnet.
    destruct (convertSubnetToCidr_total subnet ip1) as [c ->]. simpl.
    destruct H as [-> | ->]; simpl; [reflexivity|].
    now rewrite orb_true_r.
  - intros ip1 ip2 subnet H. unfold isSameSubnet. rewrite H. simpl.
    now rewrite orb_true_r.
  - intros ip1 ip2 subnet a1 a2 H1 H2 Hk. unfold isSameSubnet.
    destruct (convertSubnetToCidr_total subnet ip1) as [c ->]. simpl.
    destruct (_ || is_null c); [reflexivity|].
    rewrite H1, H2. simpl.
    destruct (addr_kind a1), (addr_kind a2); simpl; congruence.
Qed.

Lemma isSameSubnet_false_cases_witness :
  validateIp "nope" = false /\
  isSameSubnet "nope" "10.0.0.1" (VNum 8) = Ok false /\
  convertSubnetToCidr (VNum 33) "10.0.0.1" = Ok None /\
  isSameSubnet "10.0.0.1" "10.0.0.2" (VNum 33) = Ok false /\
  isSameSubnet "10.0.0.1" "::1" (VNum 8) = Ok false.
Proof.
  split; [vm_compute; reflexivity|]. split.
  { apply (proj1 (proj2 isSameSubnet_false_cases) "nope" "10.0.0.1" (VNum 8)).
    left. vm_compute; reflexivity. }
  split; [vm_compute; reflexivity|]. split.
  { apply (proj1 (proj2 (proj2 isSameSubnet_false_cases)) "10.0.0.1" "10.0.0.2" (VNum 33)).
    vm_compute; reflexivity. }
  apply (proj1 (proj2 (proj2 (proj2 isSameSubnet_false_cases)))
           "10.0.0.1" "::1" (VNum 8)
           (V4 (mkIPv4 [10; 0; 0; 1]))
           (V6 (mkIPv6 [0; 0; 0; 0; 0; 0; 0; 1] None)));
    [vm_compute; reflexivity | vm_compute; reflexivity | discriminate].
Defined.

(** C10: the number 0 and the string "0" are told apart: for every
    reference address, the numeric subnet 0 is rejected by the falsy-input
    check ([convertSubnetToCidr] is null, [validateSubnet] false), while
    the string "0" normalizes to the prefix length 0 ([validateSubnet]
    true). *)
Theorem convertSubnetToCidr_zero (ip : string) :
  convertSubnetToCidr (VNum 0) ip = Ok None /\
  validateSubnet (VNum 0) ip = Ok false /\
  convertSubnetToCidr (VStr "0") ip = Ok (Some 0) /\
  validateSubnet (VStr "0") ip = Ok true.
Proof.
  split; [reflexivity|]. split; [reflexivity|].
  assert (H : convertSubnetToCidr (VStr "0") ip = Ok (Some 0)).
  { unfold convertSubnetToCidr. rewrite getIpVersion_spec.
    destruct (ipaddr.isValid ip); [destruct (IPv6.isValid ip)|]; reflexivity. }
  split; [assumption|]. unfold validateSubnet. now rewrite H.
Qed.

(** C2: for an IPv6 address the network-address check is never reached:
    [addr.mask] is not a method of the parsed address, the call throws
    and the handler answers "Invalid subnet mask." for every valid IPv6
    address and every prefix length, also when the address is the network
    address of its prefix (2001:db8:: with /32). *)
Theorem checkIpAndSubnet_ipv6 (ip : string) (subnet : value) (cidr : Z) :
  validateIp ip = true ->
  getIpVersion ip = Ok (Some ipv6) ->
  convertSubnetToCidr subnet ip = Ok (Some cidr) ->
  checkIpAndSubnet ip subnet = Ok (Some msg_invalid_mask).
Proof.
  intros Hv Hk Hc. unfold checkIpAndSubnet. rewrite Hc. simpl. rewrite Hv. simpl.
  destruct (validateIp_parse ip Hv) as (a & Ha & Hk'). rewrite Ha. simpl.
  rewrite Hk in Hk'. destruct a as [a|a]; [discriminate|]. reflexivity.
Qed.

Lemma checkIpAndSubnet_ipv6_witness :
  validateIp "2001:db8::" = true /\
  getIpVersion "2001:db8::" = Ok (Some ipv6) /\
  convertSubnetToCidr (VNum 32) "2001:db8::" = Ok (Some 32) /\
  checkIpAndSubnet "2001:db8::" (VNum 32) = Ok (Some msg_invalid_mask).
Proof.
  split; [vm_compute; reflexivity|]. split; [vm_compute; reflexivity|].
  split; [vm_compute; reflexivity|].
  apply (checkIpAndSubnet_ipv6 "2001:db8::" (VNum 32) 32); vm_compute; reflexivity.
Defined.

(** C5, as stated, fails at the prefix length 0 passed as a number:
    0.0.0.0 is the network address of 0.0.0.0/0, but the number 0 is
    rejected as falsy and the answer is "Invalid IP or Subnet format.". *)
Lemma ipv4_host_check_counterexample : ~ ipv4_host_check_as_stated.
Proof.
  intros H.
  destruct (H "0.0.0.0" 0) as [Hn _];
    [vm_compute; reflexivity|vm_compute; reflexivity|lia|].
  assert (E : checkIpAndSubnet "0.0.0.0" (VNum 0) = Ok (Some msg_invalid_format))
    by (vm_compute; reflexivity).
  rewrite E in Hn.
  assert (F : Ok (Some msg_invalid_format) = Ok (Some msg_network)).
  { apply Hn; [lia|]. exists (mkIPv4 [0; 0; 0; 0]). split; vm_compute; reflexivity. }
  discriminate F.
Qed.

(** C5, amended: for an IPv4-valid [ip] and a subnet value that
    [convertSubnetToCidr] normalizes to the prefix length [cidr] (every
    number in 1..32 does, the number 0 does not), the network and the
    broadcast address of [ip/cidr] are computed without an exception;
    with [cidr] below 31 an address that equals the network address gets
    the network-address message, one that equals the broadcast address
    gets the broadcast-address message and any other address gets null;
    with [cidr] 31 or 32 the result is null, so neither message is
    returned.  10.0.0.0/31 and 10.0.0.1/31 are accepted. *)
Theorem checkIpAndSubnet_ipv4 :
  (forall (ip : string) (subnet : value) (cidr : Z),
     validateIp ip = true -> getIpVersion ip = Ok (Some ipv4) ->
     convertSubnetToCidr subnet ip = Ok (Some cidr) ->
     exists n b,
       IPv4.networkAddressFromCIDR (ip ++ "/" ++ Number_toString cidr) = Ok n /\
       IPv4.broadcastAddressFromCIDR (ip ++ "/" ++ Number_toString cidr) = Ok b /\
       (cidr < 31 -> ip = IPv4.toString n ->
        checkIpAndSubnet ip subnet = Ok (Some msg_network)) /\
       (cidr < 31 -> ip = IPv4.toString b ->
        checkIpAndSubnet ip subnet = Ok (Some msg_broadcast)) /\
       (cidr < 31 -> ip <> IPv4.toString n -> ip <> IPv4.toString b ->
        checkIpAndSubnet ip subnet = Ok None) /\
       (31 <= cidr -> checkIpAndSubnet ip subnet = Ok None)) /\
  checkIpAndSubnet "192.168.1.0" (VNum 24) = Ok (Some msg_network) /\
  checkIpAndSubnet "192.168.1.255" (VNum 24) = Ok (Some msg_broadcast) /\
  checkIpAndSubnet "192.168.1.1" (VNum 24) = Ok None /\
  checkIpAndSubnet "10.0.0.0" (VNum 31) = Ok None /\
  checkIpAndSubnet "10.0.0.1" (VNum 31) = Ok None /\
  (forall ip cidr,
     getIpVersion ip = Ok (Some ipv4) -> 1 <= cidr <= 32 ->
     convertSubnetToCidr (VNum cidr) ip = Ok (Some cidr)) /\
  (forall ip, checkIpAndSubnet ip (VNum 0) = Ok (Some msg_invalid_format)).
Proof.
  split; [|do 5 (split; [vm_compute; reflexivity|]); split;
           [intros ip cidr Hv Hc;
            now apply (convertSubnetToCidr_num_in_range ip (Some ipv4))
           |intros ip; unfold checkIpAndSubnet, convertSubnetToCidr;
            cbn [falsy Z.eqb bind is_null]; now rewrite orb_true_r]].
  intros ip subnet cidr Hv Hk Hc.
  rewrite (checkIpAndSubnet_ipv4_unfold ip subnet cidr Hv Hk Hc).
  pose proof (convertSubnetToCidr_ipv4_range subnet ip cidr Hk Hc) as Hr.
  destruct (cidr_helpers_total ip cidr Hv Hk Hr)
    as (a0 & a1 & a2 & a3 & m0 & m1 & m2 & m3 & Ha & Hm & Hn & Hb).
  rewrite Hn, Hb. cbn [bind].
  do 2 eexists. split; [reflexivity|]. split; [reflexivity|].
  split; [|split; [|split]].
  - intros Hlt E. rewrite <- E, String.eqb_refl.
    replace (cidr <? 31) with true by (symmetry; apply Z.ltb_lt; lia).
    reflexivity.
  - intros Hlt E.
    replace (cidr <? 31) with true by (symmetry; apply Z.ltb_lt; lia).
    assert (Hne : String.eqb ip
                    (IPv4.toString (mkIPv4 [Z.land a0 m0; Z.land a1 m1;
                                            Z.land a2 m2; Z.land a3 m3])) = false).
    { apply String.eqb_neq. rewrite E.
      destruct (subnetMaskFromPrefixLength_spec cidr Hr)
        as (y0 & y1 & y2 & y3 & Hm' & _ & _ & _ & M3 & Hodd).
      rewrite Hm in Hm'. injection Hm' as -> -> -> ->.
      destruct (wf4_inv _ (IPv4_parse_wf _ _ Ha)) as (x0 & x1 & x2 & x3 & Ex & _ & _ & _ & A3).
      injection Ex as -> -> -> ->.
      intros F. symmetry in F. revert F. apply network_broadcast_differ; auto. }
    rewrite Hne. cbn [andb]. rewrite <- E, String.eqb_refl. reflexivity.
  - intros Hlt En Eb.
    apply String.eqb_neq in En, Eb. rewrite En, Eb. reflexivity.
  - intros Hge.
    replace (cidr <? 31) with false by (symmetry; apply Z.ltb_ge; lia).
    now rewrite !andb_false_r.
Qed.

Lemma checkIpAndSubnet_ipv4_witness :
  validateIp "192.168.1.0" = true /\
  getIpVersion "192.168.1.0" = Ok (Some ipv4) /\
  convertSubnetToCidr (VNum 24) "192.168.1.0" = Ok (Some 24) /\
  exists n b,
    IPv4.networkAddressFromCIDR ("192.168.1.0" ++ "/" ++ Number_toString 24) = Ok n /\
    IPv4.broadcastAddressFromCIDR ("192.168.1.0" ++ "/" ++ Number_toString 24) = Ok b /\
    (24 < 31 -> "192.168.1.0" = IPv4.toString n ->
     checkIpAndSubnet "192.168.1.0" (VNum 24) = Ok (Some msg_network)) /\
    (24 < 31 -> "192.168.1.0" = IPv4.toString b ->
     checkIpAndSubnet "192.168.1.0" (VNum 24) = Ok (Some msg_broadcast)) /\
    (24 < 31 -> "192.168.1.0" <> IPv4.toString n -> "192.168.1.0" <> IPv4.toString b ->
     checkIpAndSubnet "192.168.1.0" (VNum 24) = Ok None) /\
    (31 <= 24 -> checkIpAndSubnet "192.168.1.0" (VNum 24) = Ok None).
Proof.
  split; [vm_compute; reflexivity|]. split; [vm_compute; reflexivity|].
  split; [vm_compute; reflexivity|].
  apply (proj1 checkIpAndSubnet_ipv4 "192.168.1.0" (VNum 24) 24);
    vm_compute; reflexivity.
Defined.

Lemma validateSubnet_true_of_convert (subnet : value) (ip : string) (c : Z) :
  convertSubnetToCidr subnet ip = Ok (Some c) -> validateSubnet subnet ip = Ok true.
Proof. intros H. unfold validateSubnet. now rewrite H. Qed.

Lemma validateSubnet_false_of_convert (subnet : value) (ip : string) :
  convertSubnetToCidr subnet ip = Ok None -> validateSubnet subnet ip = Ok false.
Proof. intros H. unfold validateSubnet. now rewrite H. Qed.

(** C1, as stated, fails at the number 0: [validateSubnet 0 "192.168.1.1"]
    is false although 0 lies in 0..32. *)
Lemma validateSubnet_range_counterexample : ~ validateSubnet_range_as_stated.
Proof.
  intros [H _].
  specialize (H "192.168.1.1" 0).
  assert (E : validateSubnet (VNum 0) "192.168.1.1" = Ok false) by reflexivity.
  rewrite E in H.
  assert (F : Ok false = Ok true) by (apply H; [vm_compute; reflexivity ..|lia]).
  discriminate F.
Qed.

(** C1, amended: [validateSubnet cidr ip] is true for every integer [cidr]
    in 1..32 when [ip] is IPv4 and in 1..128 when [ip] is IPv6; it is false
    for the number 0, for every negative [cidr], for [cidr] above 128 when
    [ip] is IPv6, and for [cidr] above 32 when [ip] is IPv4 unless [cidr]
    is the 32-bit value 2^32 - 2^k of a contiguous netmask. *)
Theorem validateSubnet_cidr_range :
  (forall ip cidr,
     getIpVersion ip = Ok (Some ipv4) -> 1 <= cidr <= 32 ->
     validateSubnet (VNum cidr) ip = Ok true) /\
  (forall ip cidr,
     getIpVersion ip = Ok (Some ipv6) -> 1 <= cidr <= 128 ->
     validateSubnet (VNum cidr) ip = Ok true) /\
  (forall ip, validateSubnet (VNum 0) ip = Ok false) /\
  (forall ip cidr,
     plain_decimal cidr -> cidr < 0 -> validateSubnet (VNum cidr) ip = Ok false) /\
  (forall ip cidr,
     plain_decimal cidr -> getIpVersion ip = Ok (Some ipv6) -> 128 < cidr ->
     validateSubnet (VNum cidr) ip = Ok false) /\
  (forall ip cidr,
     plain_decimal cidr -> getIpVersion ip = Ok (Some ipv4) -> 32 < cidr ->
     (forall k, 0 <= k < 32 -> cidr <> 2 ^ 32 - 2 ^ k) ->
     validateSubnet (VNum cidr) ip = Ok false).
Proof.
  split; [|split; [|split; [|split; [|split]]]].
  - intros ip cidr Hv Hc. apply (validateSubnet_true_of_convert _ _ cidr).
    now apply (convertSubnetToCidr_num_in_range ip (Some ipv4)).
  - intros ip cidr Hv Hc. apply (validateSubnet_true_of_convert _ _ cidr).
    now apply (convertSubnetToCidr_num_in_range ip (Some ipv6)).
  - reflexivity.
  - intros ip cidr _ Hc. apply validateSubnet_false_of_convert.
    now apply convertSubnetToCidr_num_negative.
  - intros ip cidr _ Hv Hc. apply validateSubnet_false_of_convert.
    now apply convertSubnetToCidr_num_ipv6_above.
  - intros ip cidr _ Hv Hc Hk. apply validateSubnet_false_of_convert.
    apply (convertSubnetToCidr_num_ipv4_above ip (Some ipv4)); auto. discriminate.
Qed.

Lemma validateSubnet_cidr_range_witness :
  getIpVersion "192.168.1.1" = Ok (Some ipv4) /\
  validateSubnet (VNum 24) "192.168.1.1" = Ok true /\
  getIpVersion "2001:db8::1" = Ok (Some ipv6) /\
  validateSubnet (VNum 128) "2001:db8::1" = Ok true /\
  validateSubnet (VNum (-1)) "192.168.1.1" = Ok false /\
  validateSubnet (VNum 129) "2001:db8::1" = Ok false /\
  validateSubnet (VNum 33) "192.168.1.1" = Ok false.
Proof.
  split; [vm_compute; reflexivity|]. split.
  { apply (proj1 validateSubnet_cidr_range "192.168.1.1" 24);
      [vm_compute; reflexivity|lia]. }
  split; [vm_compute; reflexivity|]. split.
  { apply (proj1 (proj2 validateSubnet_cidr_range) "2001:db8::1" 128);
      [vm_compute; reflexivity|lia]. }
  split.
  { apply (proj1 (proj2 (proj2 (proj2 validateSubnet_cidr_range))) "192.168.1.1" (-1));
      [vm_compute; reflexivity|lia]. }
  split.
  { apply (proj1 (proj2 (proj2 (proj2 (proj2 validateSubnet_cidr_range))))
             "2001:db8::1" 129);
      [vm_compute; reflexivity|vm_compute; reflexivity|lia]. }
  apply (proj2 (proj2 (proj2 (proj2 (proj2 validateSubnet_cidr_range))))
           "192.168.1.1" 33);
    [vm_compute; reflexivity|vm_compute; reflexivity|lia|].
  intros k Hk. assert (2 ^ k <= 2 ^ 31) by (apply Z.pow_le_mono_r; lia).
  change (2 ^ 32) with 4294967296. change (2 ^ 31) with 2147483648 in *. lia.
Defined.

(** The slip behind the last case: above 32 the text of the number falls
    through to the dotted-decimal branch, where ipaddr.js reads it as a
    long value; 4294967295 is 255.255.255.255 and normalizes to 32. *)
Lemma convertSubnetToCidr_long_value_mask :
  convertSubnetToCidr (VNum 4294967295) "192.168.1.1" = Ok (Some 32) /\
  convertSubnetToCidr (VNum 4294967040) "192.168.1.1" = Ok (Some 24) /\
  convertSubnetToCidr (VNum 4294967295) "not an ip" = Ok (Some 32).
Proof. repeat (split; [vm_compute; reflexivity|]). vm_compute; reflexivity. Qed.

(** C3, as stated, fails at the number 0: with an invalid reference the
    numeric subnet 0 is rejected although 0 lies in 0..32. *)
Lemma invalid_reference_rule_counterexample : ~ invalid_reference_rule_as_stated.
Proof.
  intros H. specialize (H "not an ip" 0 ltac:(vm_compute; reflexivity)).
  destruct H as [_ H]. apply H; [lia|reflexivity].
Qed.

(** C3, amended: with a reference address for which [getIpVersion] is
    null, [convertSubnetToCidr] applies the IPv4 rules: its result is the
    one for any IPv4 reference.  A numeric subnet in 1..32 normalizes to
    itself, the number 0 is rejected by the falsy check, and a negative
    number or a number above 32 that is not the 32-bit value 2^32 - 2^k of
    a contiguous netmask normalizes to null; so 64 gives null, not 64. *)
Theorem convertSubnetToCidr_invalid_reference (ref : string) :
  getIpVersion ref = Ok None ->
  (forall subnet ip4,
     getIpVersion ip4 = Ok (Some ipv4) ->
     convertSubnetToCidr subnet ref = convertSubnetToCidr subnet ip4) /\
  (forall n, 1 <= n <= 32 -> convertSubnetToCidr (VNum n) ref = Ok (Some n)) /\
  convertSubnetToCidr (VNum 0) ref = Ok None /\
  (forall n,
     plain_decimal n ->
     n < 0 \/ (32 < n /\ forall k, 0 <= k < 32 -> n <> 2 ^ 32 - 2 ^ k) ->
     convertSubnetToCidr (VNum n) ref = Ok None) /\
  convertSubnetToCidr (VNum 64) ref = Ok None.
Proof.
  intros Hv. split; [|split; [|split; [|split]]].
  - intros subnet ip4 H4. unfold convertSubnetToCidr. now rewrite Hv, H4.
  - intros n Hn. now apply (convertSubnetToCidr_num_in_range ref None).
  - reflexivity.
  - intros n _ [Hn|[Hn Hk]].
    + now apply convertSubnetToCidr_num_negative.
    + apply (convertSubnetToCidr_num_ipv4_above ref None); auto. discriminate.
  - apply (convertSubnetToCidr_num_ipv4_above ref None); auto; try discriminate; try lia.
    intros k Hk. assert (2 ^ k <= 2 ^ 31) by (apply Z.pow_le_mono_r; lia).
    change (2 ^ 32) with 4294967296. change (2 ^ 31) with 2147483648 in *. lia.
Qed.

Lemma convertSubnetToCidr_invalid_reference_witness :
  getIpVersion "not an ip" = Ok None /\
  convertSubnetToCidr (VNum 64) "not an ip" = Ok None /\
  convertSubnetToCidr (VStr "255.255.0.0") "not an ip"
    = convertSubnetToCidr (VStr "255.255.0.0") "10.0.0.1".
Proof.
  split; [vm_compute; reflexivity|]. split.
  { apply (convertSubnetToCidr_invalid_reference "not an ip"). vm_compute; reflexivity. }
  apply (proj1 (convertSubnetToCidr_invalid_reference "not an ip"
                  ltac:(vm_compute; reflexivity))).
  vm_compute; reflexivity.
Defined.

(** * Further properties *)

(** ** [matchCIDR] is an equivalence on part lists, coarser for shorter prefixes *)

Lemma matchCIDR_loop_sym (fuel : nat) (first second : list Z) (partSize : Z) :
  forall cidrBits part,
    matchCIDR_loop fuel first second partSize cidrBits part =
    matchCIDR_loop fuel second first partSize cidrBits part.
Proof.
  induction fuel as [|f IH]; intros bits part; cbn [matchCIDR_loop]; [reflexivity|].
  destruct (0 <? bits); [|reflexivity].
  rewrite Z.eqb_sym. destruct (negb _); [reflexivity|apply IH].
Qed.

Lemma matchCIDR_sym (first second : list Z) (partSize cidrBits : Z) :
  matchCIDR first second partSize cidrBits = matchCIDR second first partSize cidrBits.
Proof.
  unfold matchCIDR. rewrite (Nat.eqb_sym (List.length first)).
  now rewrite matchCIDR_loop_sym.
Qed.

Lemma match_sym (a b : addr) (cidr : Z) :
  addr_kind a = addr_kind b -> ipaddr.match_ a b cidr = ipaddr.match_ b a cidr.
Proof.
  destruct a as [a|a], b as [b|b]; cbn; try discriminate; intros _;
    apply matchCIDR_sym.
Qed.

Lemma matchCIDR_loop_trans (fuel : nat) (l1 l2 l3 : list Z) (partSize : Z) :
  forall cidrBits part,
    matchCIDR_loop fuel l1 l2 partSize cidrBits part = Some true ->
    matchCIDR_loop fuel l2 l3 partSize cidrBits part = Some true ->
    matchCIDR_loop fuel l1 l3 partSize cidrBits part = Some true.
Proof.
  induction fuel as [|f IH]; intros bits part; cbn [matchCIDR_loop].
  - destruct (0 <? bits); [discriminate|auto].
  - destruct (0 <? bits); [|auto].
    destruct (Z.eqb_spec (shr (nth_error l1 part) (if partSize - bits <? 0 then 0 else partSize - bits))
                         (shr (nth_error l2 part) (if partSize - bits <? 0 then 0 else partSize - bits)))
      as [E12|]; cbn [negb]; [|discriminate].
    destruct (Z.eqb_spec (shr (nth_error l2 part) (if partSize - bits <? 0 then 0 else partSize - bits))
                         (shr (nth_error l3 part) (if partSize - bits <? 0 then 0 else partSize - bits)))
      as [E23|]; cbn [negb]; [|discriminate].
    rewrite E12, E23, Z.eqb_refl. cbn [negb]. apply IH.
Qed.

Lemma matchCIDR_true_inv (l1 l2 : list Z) (partSize cidrBits : Z) :
  matchCIDR l1 l2 partSize cidrBits = Ok true ->
  List.length l1 = List.length l2 /\
  matchCIDR_loop (Z.to_nat cidrBits) l1 l2 partSize cidrBits 0 = Some true.
Proof.
  unfold matchCIDR. destruct (Nat.eqb_spec (List.length l1) (List.length l2)) as [E|];
    cbn [negb]; [|discriminate].
  destruct (matchCIDR_loop _ _ _ _ _ _) as [[|]|]; try discriminate. auto.
Qed.

Lemma matchCIDR_trans (l1 l2 l3 : list Z) (partSize cidrBits : Z) :
  matchCIDR l1 l2 partSize cidrBits = Ok true ->
  matchCIDR l2 l3 partSize cidrBits = Ok true ->
  matchCIDR l1 l3 partSize cidrBits = Ok true.
Proof.
  intros H12 H23. apply matchCIDR_true_inv in H12, H23.
  destruct H12 as [E12 H12], H23 as [E23 H23].
  unfold matchCIDR. rewrite E12, E23, Nat.eqb_refl. cbn [negb].
  now rewrite (matchCIDR_loop_trans _ l1 l2 l3 _ _ _ H12 H23).
Qed.

Lemma match_trans (a b c : addr) (cidr : Z) :
  ipaddr.match_ a b cidr = Ok true -> ipaddr.match_ b c cidr = Ok true ->
  ipaddr.match_ a c cidr = Ok true.
Proof.
  destruct a as [a|a], b as [b|b], c as [c|c]; cbn; try discriminate;
    apply matchCIDR_trans.
Qed.

Lemma shr_coarser (x y : option Z) (s s' : Z) :
  0 <= s <= s' -> s' < 32 -> shr x s = shr y s -> shr x s' = shr y s'.
Proof.
  intros Hs Hs' E. unfold shr in *.
  rewrite !Z.mod_small in * by lia.
  replace s' with (s + (s' - s)) by lia.
  rewrite <- !Z.shiftr_shiftr by lia. now rewrite E.
Qed.

Lemma matchCIDR_loop_shorter (partSize : Z) (l1 l2 : list Z) :
  1 <= partSize <= 32 ->
  forall fuel' fuel bits bits' part,
    bits' <= bits -> (Z.to_nat bits' <= fuel')%nat ->
    matchCIDR_loop fuel l1 l2 partSize bits part = Some true ->
    matchCIDR_loop fuel' l1 l2 partSize bits' part = Some true.
Proof.
  intros Hp. induction fuel' as [|f' IH]; intros fuel bits bits' part Hb Hf H.
  - cbn [matchCIDR_loop]. destruct (0 <? bits') eqn:E; [|reflexivity].
    apply Z.ltb_lt in E. lia.
  - cbn [matchCIDR_loop]. destruct (0 <? bits') eqn:E; [|reflexivity].
    apply Z.ltb_lt in E.
    destruct fuel as [|f]; cbn [matchCIDR_loop] in H;
      replace (0 <? bits) with true in H by (symmetry; apply Z.ltb_lt; lia);
      [discriminate|].
    destruct (Z.eqb_spec (shr (nth_error l1 part) (if partSize - bits <? 0 then 0 else partSize - bits))
                         (shr (nth_error l2 part) (if partSize - bits <? 0 then 0 else partSize - bits)))
      as [E12|]; cbn [negb] in H; [|discriminate].
    assert (E' : shr (nth_error l1 part) (if partSize - bits' <? 0 then 0 else partSize - bits')
                 = shr (nth_error l2 part) (if partSize - bits' <? 0 then 0 else partSize - bits')).
    { revert E12. apply shr_coarser.
      - destruct (partSize - bits <? 0) eqn:E1, (partSize - bits' <? 0) eqn:E2;
          try apply Z.ltb_lt in E1; try apply Z.ltb_lt in E2;
          try apply Z.ltb_ge in E1; try apply Z.ltb_ge in E2; lia.
      - destruct (partSize - bits' <? 0) eqn:E2;
          try apply Z.ltb_lt in E2; try apply Z.ltb_ge in E2; lia. }
    rewrite E', Z.eqb_refl. cbn [negb].
    apply (IH f (bits - partSize)); [lia|lia|assumption].
Qed.

Lemma match_shorter (a b : addr) (cidr cidr' : Z) :
  cidr' <= cidr -> ipaddr.match_ a b cidr = Ok true -> ipaddr.match_ a b cidr' = Ok true.
Proof.
  intros Hc.
  assert (G : forall l1 l2 ps, 1 <= ps <= 32 ->
              matchCIDR l1 l2 ps cidr = Ok true -> matchCIDR l1 l2 ps cidr' = Ok true).
  { intros l1 l2 ps Hp H. apply matchCIDR_true_inv in H. destruct H as [El H].
    unfold matchCIDR. rewrite El, Nat.eqb_refl. cbn [negb].
    now rewrite (matchCIDR_loop_shorter ps l1 l2 Hp _ _ cidr cidr' 0 Hc (Nat.le_refl _) H). }
  destruct a as [a|a], b as [b|b]; cbn; try discriminate; apply G; lia.
Qed.

(** ** [isSameSubnet] as a relation *)

Lemma convertSubnetToCidr_family (subnet : value) (ip ip' : string) :
  getIpVersion ip = getIpVersion ip' ->
  convertSubnetToCidr subnet ip = convertSubnetToCidr subnet ip'.
Proof. intros H. unfold convertSubnetToCidr. now rewrite H. Qed.

Lemma kind_eqb_eq (a b : kind) : kind_eqb a b = true <-> a = b.
Proof. destruct a, b; cbn; split; congruence. Qed.

(** What a true answer of [isSameSubnet] means. *)
Lemma isSameSubnet_true_iff (ip1 ip2 : string) (subnet : value) :
  isSameSubnet ip1 ip2 subnet = Ok true <->
  exists c a1 a2,
    convertSubnetToCidr subnet ip1 = Ok (Some c) /\
    validateIp ip1 = true /\ validateIp ip2 = true /\
    ipaddr.parse ip1 = Ok a1 /\ ipaddr.parse ip2 = Ok a2 /\
    addr_kind a1 = addr_kind a2 /\ ipaddr.match_ a1 a2 c = Ok true.
Proof.
  unfold isSameSubnet. split.
  - destruct (convertSubnetToCidr subnet ip1) as [[c|]|e]; cbn [bind is_null];
      try (rewrite ?orb_true_r; discriminate).
    destruct (validateIp ip1) eqn:V1; [|discriminate].
    destruct (validateIp ip2) eqn:V2; [|discriminate].
    cbn [negb orb cidr_val num_val].
    destruct (ipaddr.parse ip1) as [a1|] eqn:P1; cbn [bind try_catch]; [|discriminate].
    destruct (ipaddr.parse ip2) as [a2|] eqn:P2; cbn [bind try_catch]; [|discriminate].
    destruct (kind_eqb (addr_kind a1) (addr_kind a2)) eqn:K; cbn [negb]; [|discriminate].
    destruct (ipaddr.match_ a1 a2 c) as [[|]|] eqn:M; cbn [try_catch]; try discriminate.
    intros _. exists c, a1, a2. apply kind_eqb_eq in K. auto 10.
  - intros (c & a1 & a2 & Hc & V1 & V2 & P1 & P2 & K & M).
    rewrite Hc. cbn [bind is_null cidr_val num_val]. rewrite V1, V2. cbn [negb orb].
    rewrite P1, P2. cbn [bind]. apply kind_eqb_eq in K. rewrite K. cbn [negb].
    now rewrite M.
Qed.

Lemma isSameSubnet_total (ip1 ip2 : string) (subnet : value) :
  exists b, isSameSubnet ip1 ip2 subnet = Ok b.
Proof.
  unfold isSameSubnet.
  destruct (convertSubnetToCidr_total subnet ip1) as [c ->]. cbn [bind].
  destruct (_ || is_null c); eauto.
Qed.

Lemma same_family_version (ip1 ip2 : string) (a1 a2 : addr) :
  validateIp ip1 = true -> validateIp ip2 = true ->
  ipaddr.parse ip1 = Ok a1 -> ipaddr.parse ip2 = Ok a2 ->
  addr_kind a1 = addr_kind a2 -> getIpVersion ip1 = getIpVersion ip2.
Proof.
  intros V1 V2 P1 P2 K.
  destruct (validateIp_parse ip1 V1) as (b1 & Q1 & G1).
  destruct (validateIp_parse ip2 V2) as (b2 & Q2 & G2).
  rewrite P1 in Q1. rewrite P2 in Q2. injection Q1 as <-. injection Q2 as <-.
  now rewrite G1, G2, K.
Qed.

(** X1: isSameSubnet is symmetric: for all strings ip1, ip2 and every
    subnet value, isSameSubnet(ip1, ip2, subnet) and isSameSubnet(ip2, ip1,
    subnet) return the same boolean, although only ip1 is used to pick the
    address family of the subnet. *)
Theorem isSameSubnet_sym (ip1 ip2 : string) (subnet : value) :
  isSameSubnet ip1 ip2 subnet = isSameSubnet ip2 ip1 subnet.
Proof.
  assert (G : forall x y, isSameSubnet x y subnet = Ok true ->
                          isSameSubnet y x subnet = Ok true).
  { intros x y H. apply isSameSubnet_true_iff in H.
    destruct H as (c & a1 & a2 & Hc & V1 & V2 & P1 & P2 & K & M).
    apply isSameSubnet_true_iff. exists c, a2, a1.
    rewrite <- (convertSubnetToCidr_family subnet x y)
      by (eapply same_family_version; eauto).
    rewrite <- (match_sym a1 a2 c K). auto 10. }
  destruct (isSameSubnet_total ip1 ip2 subnet) as [b1 H1].
  destruct (isSameSubnet_total ip2 ip1 subnet) as [b2 H2].
  rewrite H1, H2. destruct b1, b2; try reflexivity.
  - apply G in H1. congruence.
  - apply G in H2. congruence.
Qed.

(** X2: isSameSubnet is transitive for a fixed subnet value: when
    isSameSubnet(ip1, ip2, subnet) and isSameSubnet(ip2, ip3, subnet) are
    true, so is isSameSubnet(ip1, ip3, subnet). *)
Theorem isSameSubnet_trans (ip1 ip2 ip3 : string) (subnet : value) :
  isSameSubnet ip1 ip2 subnet = Ok true ->
  isSameSubnet ip2 ip3 subnet = Ok true ->
  isSameSubnet ip1 ip3 subnet = Ok true.
Proof.
  intros H12 H23. apply isSameSubnet_true_iff in H12, H23.
  destruct H12 as (c & a1 & a2 & Hc & V1 & V2 & P1 & P2 & K & M).
  destruct H23 as (c' & b2 & a3 & Hc' & _ & V3 & Q2 & P3 & K' & M').
  rewrite P2 in Q2. injection Q2 as <-.
  rewrite <- (convertSubnetToCidr_family subnet ip1 ip2) in Hc'
    by (eapply same_family_version; eauto).
  rewrite Hc in Hc'. injection Hc' as <-.
  apply isSameSubnet_true_iff. exists c, a1, a3.
  repeat (split; [assumption|]). split; [congruence|].
  eapply match_trans; eauto.
Qed.

Lemma isSameSubnet_trans_witness :
  isSameSubnet "10.1.2.3" "10.1.2.77" (VStr "255.255.255.0") = Ok true /\
  isSameSubnet "10.1.2.77" "10.1.2.200" (VStr "255.255.255.0") = Ok true /\
  isSameSubnet "10.1.2.3" "10.1.2.200" (VStr "255.255.255.0") = Ok true.
Proof.
  split; [vm_compute; reflexivity|]. split; [vm_compute; reflexivity|].
  apply (isSameSubnet_trans "10.1.2.3" "10.1.2.77" "10.1.2.200" (VStr "255.255.255.0"));
    vm_compute; reflexivity.
Defined.

(** X3: a shorter prefix gives a larger subnet: when subnet and
    subnet' normalize (against ip1) to the prefix lengths c and c' with
    c' <= c, isSameSubnet(ip1, ip2, subnet) = true implies
    isSameSubnet(ip1, ip2, subnet') = true. *)
Theorem isSameSubnet_shorter_prefix (ip1 ip2 : string) (subnet subnet' : value) (c c' : Z) :
  convertSubnetToCidr subnet ip1 = Ok (Some c) ->
  convertSubnetToCidr subnet' ip1 = Ok (Some c') ->
  c' <= c ->
  isSameSubnet ip1 ip2 subnet = Ok true ->
  isSameSubnet ip1 ip2 subnet' = Ok true.
Proof.
  intros Hc Hc' Hle H. apply isSameSubnet_true_iff in H.
  destruct H as (c0 & a1 & a2 & Hc0 & V1 & V2 & P1 & P2 & K & M).
  rewrite Hc in Hc0. injection Hc0 as <-.
  apply isSameSubnet_true_iff. exists c', a1, a2.
  repeat (split; [assumption|]). eapply match_shorter; eauto.
Qed.

Lemma isSameSubnet_shorter_prefix_witness :
  convertSubnetToCidr (VNum 24) "192.168.1.1" = Ok (Some 24) /\
  convertSubnetToCidr (VStr "255.255.0.0") "192.168.1.1" = Ok (Some 16) /\
  isSameSubnet "192.168.1.1" "192.168.1.100" (VNum 24) = Ok true /\
  isSameSubnet "192.168.1.1" "192.168.1.100" (VStr "255.255.0.0") = Ok true.
Proof.
  split; [vm_compute; reflexivity|]. split; [vm_compute; reflexivity|].
  split; [vm_compute; reflexivity|].
  apply (isSameSubnet_shorter_prefix "192.168.1.1" "192.168.1.100"
           (VNum 24) (VStr "255.255.0.0") 24 16);
    try (vm_compute; reflexivity). lia.
Defined.

(** ** The range of [convertSubnetToCidr] *)

Lemma convertSubnetToCidr_bound (subnet : value) (ip : string) (v : option kind) (c : Z) :
  getIpVersion ip = Ok v ->
  convertSubnetToCidr subnet ip = Ok (Some c) ->
  0 <= c <= (if kind_eqb (version_or_ipv4 v) ipv6 then 128 else 32).
Proof.
  intros Hv. unfold convertSubnetToCidr. destruct (falsy subnet); [discriminate|].
  rewrite Hv. cbn [bind]. fold (version_or_ipv4 v).
  destruct (negb _ && cidr_in_range _ _) eqn:E.
  - apply andb_true_iff in E. destruct E as [_ E]. unfold cidr_in_range in E.
    destruct (parseInt _ 10) as [c0|]; [|discriminate].
    intros H. injection H as <-. cbn [num_val]. lia.
  - destruct (kind_eqb (version_or_ipv4 v) ipv4) eqn:K; cbn [andb]; [|discriminate].
    destruct (IPv4.isValid _); [|discriminate].
    destruct (IPv4.parse _) as [a|] eqn:Ep; cbn [bind try_catch]; [|discriminate].
    intros H. injection H as H.
    destruct (wf4_inv a (IPv4_parse_wf _ _ Ep)) as (a0 & a1 & a2 & a3 & -> & _).
    apply prefixLength_mask in H. destruct H as [H _].
    destruct (version_or_ipv4 v); [|discriminate K]. cbn [kind_eqb]. exact H.
Qed.

(** ** [matchCIDR] compares the leading bits *)

Lemma parts_value_bound (w : Z) (l : list Z) :
  0 <= w -> parts_in w l ->
  0 <= parts_value w l < 2 ^ (w * Z.of_nat (List.length l)).
Proof.
  intros Hw. induction 1 as [|x r Hx Hr IH]; cbn [parts_value List.length].
  - rewrite Z.mul_0_r. simpl. lia.
  - rewrite Nat2Z.inj_succ, Z.mul_succ_r, Z.pow_add_r by lia.
    assert (0 < 2 ^ (w * Z.of_nat (List.length r))) by (apply Z.pow_pos_nonneg; lia).
    nia.
Qed.

Lemma ToInt32_small (x : Z) : 0 <= x < 2 ^ 31 -> ToInt32 (Some x) = x.
Proof.
  unfold ToInt32. change (2 ^ 31) with 2147483648. change (2 ^ 32) with 4294967296.
  intros H. rewrite Z.mod_small; lia.
Qed.

Lemma shr_small (x s : Z) :
  0 <= x < 2 ^ 31 -> 0 <= s < 32 -> shr (Some x) s = x / 2 ^ s.
Proof.
  intros Hx Hs. unfold shr. rewrite ToInt32_small by assumption.
  rewrite Z.mod_small by lia. apply Z.shiftr_div_pow2. lia.
Qed.

Lemma matchCIDR_loop_nonpos (f : nat) (l1 l2 : list Z) (w bits : Z) (p : nat) :
  bits <= 0 -> matchCIDR_loop f l1 l2 w bits p = Some true.
Proof.
  intros H. destruct f; cbn [matchCIDR_loop];
    now replace (0 <? bits) with false by (symmetry; apply Z.ltb_ge; lia).
Qed.

Lemma matchCIDR_loop_shift (f : nat) : forall x y l1 l2 w bits p,
  matchCIDR_loop f (x :: l1) (y :: l2) w bits (S p) = matchCIDR_loop f l1 l2 w bits p.
Proof.
  induction f as [|f IH]; intros; cbn [matchCIDR_loop nth_error]; [reflexivity|].
  destruct (0 <? bits); [|reflexivity].
  destruct (negb _); [reflexivity|]. apply IH.
Qed.

Lemma div_high (x v m k : Z) :
  0 <= k <= m -> (x * 2 ^ m + v) / 2 ^ k = x * 2 ^ (m - k) + v / 2 ^ k.
Proof.
  intros H. replace m with ((m - k) + k) at 1 by lia.
  rewrite Z.pow_add_r by lia.
  assert (0 < 2 ^ k) by (apply Z.pow_pos_nonneg; lia).
  rewrite Z.mul_assoc, Z.add_comm, Z.div_add by lia. lia.
Qed.

Lemma div_low (x v m s : Z) :
  0 <= m -> 0 <= s -> 0 <= v < 2 ^ m -> (x * 2 ^ m + v) / 2 ^ (m + s) = x / 2 ^ s.
Proof.
  intros Hm Hs Hv. rewrite Z.pow_add_r by lia.
  assert (0 < 2 ^ m) by (apply Z.pow_pos_nonneg; lia).
  assert (0 < 2 ^ s) by (apply Z.pow_pos_nonneg; lia).
  rewrite <- Z.div_div by lia.
  rewrite Z.add_comm, Z.div_add by lia. rewrite (Z.div_small v) by lia. reflexivity.
Qed.

Lemma high_eq (x y q1 q2 P : Z) :
  0 <= q1 < P -> 0 <= q2 < P ->
  (x * P + q1 =? y * P + q2) = (x =? y) && (q1 =? q2).
Proof.
  intros H1 H2.
  destruct (Z.eqb_spec x y) as [->|Hxy]; cbn [andb].
  - destruct (Z.eqb_spec q1 q2) as [->|Hq]; [apply Z.eqb_refl|].
    apply Z.eqb_neq. lia.
  - apply Z.eqb_neq. nia.
Qed.

Lemma matchCIDR_loop_value (w : Z) :
  1 <= w <= 16 ->
  forall l1 l2 bits fuel,
    List.length l1 = List.length l2 -> parts_in w l1 -> parts_in w l2 ->
    bits <= w * Z.of_nat (List.length l1) -> (Z.to_nat bits <= fuel)%nat ->
    matchCIDR_loop fuel l1 l2 w bits 0 =
    Some (parts_value w l1 / 2 ^ (w * Z.of_nat (List.length l1) - bits) =?
          parts_value w l2 / 2 ^ (w * Z.of_nat (List.length l1) - bits)).
Proof.
  intros Hw. induction l1 as [|x l1 IH]; intros l2 bits fuel Hl H1 H2 Hb Hf.
  - destruct l2; [|discriminate]. cbn [List.length parts_value] in *.
    rewrite matchCIDR_loop_nonpos by lia. now rewrite Z.eqb_refl.
  - destruct l2 as [|y l2]; [discriminate|].
    injection Hl as Hl.
    inversion H1 as [|? ? Hx H1']; subst. inversion H2 as [|? ? Hy H2']; subst.
    pose proof (parts_value_bound w l1 ltac:(lia) H1') as B1.
    pose proof (parts_value_bound w l2 ltac:(lia) H2') as B2.
    rewrite <- Hl in B2.
    cbn [List.length parts_value] in *. rewrite <- Hl.
    rewrite Nat2Z.inj_succ, Z.mul_succ_r in *.
    set (M := w * Z.of_nat (List.length l1)) in *.
    assert (HM : 0 <= M) by (unfold M; lia).
    assert (HP : 0 < 2 ^ M) by (apply Z.pow_pos_nonneg; lia).
    assert (Hw16 : 2 ^ w <= 2 ^ 16) by (apply Z.pow_le_mono_r; lia).
    change (2 ^ 16) with 65536 in Hw16.
    destruct (Z.leb_spec bits 0) as [Hn|Hpos].
    + rewrite matchCIDR_loop_nonpos by lia. f_equal. symmetry.
      assert (2 ^ (M + w) <= 2 ^ (M + w - bits)) by (apply Z.pow_le_mono_r; lia).
      rewrite Z.pow_add_r in H by lia.
      rewrite !Z.div_small; [apply Z.eqb_refl| |]; nia.
    + destruct fuel as [|f]; [lia|].
      cbn [matchCIDR_loop nth_error].
      replace (0 <? bits) with true by (symmetry; apply Z.ltb_lt; lia).
      destruct (Z.ltb_spec (w - bits) 0) as [Hhi|Hlo].
      * rewrite !shr_small by (change (2 ^ 31) with 2147483648; lia).
        change (2 ^ 0) with 1. rewrite !Z.div_1_r.
        rewrite !div_high by lia.
        assert (Hk : 0 < 2 ^ (M + w - bits)) by (apply Z.pow_pos_nonneg; lia).
        assert (Hq : 2 ^ M = 2 ^ (M + w - bits) * 2 ^ (M - (M + w - bits))).
        { rewrite <- Z.pow_add_r by lia. f_equal. lia. }
        rewrite high_eq.
        2,3: split; [apply Z.div_pos; lia|apply Z.div_lt_upper_bound; lia].
        rewrite matchCIDR_loop_shift.
        destruct (Z.eqb_spec x y) as [->|Hxy]; cbn [negb andb]; [|reflexivity].
        rewrite (IH l2 (bits - w) f Hl H1' H2') by lia.
        fold M. replace (M - (bits - w)) with (M + w - bits) by lia. reflexivity.
      * rewrite !shr_small by (change (2 ^ 31) with 2147483648; lia).
        replace (M + w - bits) with (M + (w - bits)) by lia.
        rewrite !div_low by lia.
        rewrite matchCIDR_loop_nonpos by lia.
        destruct (_ =? _); reflexivity.
Qed.

Lemma matchCIDR_value (w : Z) (l1 l2 : list Z) (bits : Z) :
  1 <= w <= 16 ->
  List.length l1 = List.length l2 -> parts_in w l1 -> parts_in w l2 ->
  bits <= w * Z.of_nat (List.length l1) ->
  matchCIDR l1 l2 w bits =
  Ok (parts_value w l1 / 2 ^ (w * Z.of_nat (List.length l1) - bits) =?
      parts_value w l2 / 2 ^ (w * Z.of_nat (List.length l1) - bits)).
Proof.
  intros Hw Hl H1 H2 Hb. unfold matchCIDR.
  rewrite Hl, Nat.eqb_refl. cbn [negb]. rewrite <- Hl.
  now rewrite (matchCIDR_loop_value w Hw l1 l2 bits _ Hl H1 H2 Hb (Nat.le_refl _)).
Qed.

Lemma parts_value_4 (x0 x1 x2 x3 : Z) :
  parts_value 8 [x0; x1; x2; x3] = x0 * 16777216 + x1 * 65536 + x2 * 256 + x3.
Proof. cbn. lia. Qed.

Lemma in_word_val (o : number) : in_word o = true -> 0 <= num_val o < 2 ^ 16.
Proof.
  unfold in_word. destruct o as [z|]; simpl; [|discriminate].
  change (2 ^ 16) with 65536. lia.
Qed.

Lemma IPv6_new_parts_in (l : list number) (z : option string) (a : IPv6_t) :
  IPv6.new l z = Ok a -> parts_in 16 (parts a).
Proof.
  unfold IPv6.new.
  assert (H : forall ps, forallb in_word ps = true -> parts_in 16 (map num_val ps)).
  { intros ps Hf. rewrite forallb_forall in Hf. apply Forall_forall. intros x Hx.
    apply in_map_iff in Hx. destruct Hx as (o & <- & Ho). apply in_word_val. auto. }
  destruct (Nat.eqb (List.length l) 16).
  - destruct (forallb in_word _) eqn:E; [|discriminate].
    intros H0. injection H0 as <-. exact (H _ E).
  - destruct (Nat.eqb (List.length l) 8); [|discriminate].
    destruct (forallb in_word l) eqn:E; [|discriminate].
    intros H0. injection H0 as <-. exact (H _ E).
Qed.

Lemma parse_parts_in (s : string) (a : addr) :
  ipaddr.parse s = Ok a -> addr_parts_in a.
Proof.
  intros Hp. pose proof (parse_wf s a Hp) as Hw. revert Hp. unfold ipaddr.parse.
  destruct (IPv6.isValid s).
  - unfold IPv6.parse. destruct (IPv6.parser s) as [[e|]|e]; simpl; try discriminate.
    destruct (IPv6.new (e_parts e) (e_zoneId e)) as [a6|] eqn:En; simpl; [|discriminate].
    intros H. injection H as <-. split; [exact Hw|]. eapply IPv6_new_parts_in; eauto.
  - destruct (IPv4.isValid s); [|discriminate].
    destruct (IPv4.parse s) as [a4|] eqn:Ep; simpl; [|discriminate].
    intros H. injection H as <-. destruct Hw as [Hl Hf]. split; [assumption|].
    eapply Forall_impl; [|exact Hf]. cbv beta. intros x Hx.
    change (2 ^ 8) with 256. lia.
Qed.

Lemma match_value (a b : addr) (c : Z) :
  addr_parts_in a -> addr_parts_in b -> addr_kind a = addr_kind b ->
  c <= addr_bits a ->
  ipaddr.match_ a b c =
  Ok (addr_value a / 2 ^ (addr_bits a - c) =? addr_value b / 2 ^ (addr_bits a - c)).
Proof.
  destruct a as [a|a], b as [b|b]; cbn [addr_kind]; try discriminate;
    intros [La Ha] [Lb Hb] _ Hc;
    cbn [ipaddr.match_ IPv4_match IPv6_match addr_value addr_bits] in *.
  - rewrite (matchCIDR_value 8) by (try rewrite La; try assumption; try lia; congruence).
    rewrite La. reflexivity.
  - rewrite (matchCIDR_value 16) by (try rewrite La; try assumption; try lia; congruence).
    rewrite La. reflexivity.
Qed.

Lemma kind_bits (a b : addr) : addr_kind a = addr_kind b -> addr_bits a = addr_bits b.
Proof. destruct a, b; cbn; congruence. Qed.

Lemma subnetMatch_subnets_value (a : addr) (l : list (addr * Z)) :
  addr_parts_in a ->
  Forall (fun p => addr_parts_in (fst p) /\ snd p <= addr_bits (fst p)) l ->
  subnetMatch_subnets a l = Ok (existsb (in_range a) l).
Proof.
  intros Ha. induction 1 as [|[e bits] l [He Hb] Hl IH]; [reflexivity|].
  cbn [subnetMatch_subnets existsb]. unfold in_range at 1. cbn [fst snd] in *.
  destruct (kind_eqb (addr_kind a) (addr_kind e)) eqn:K; cbn [andb orb]; [|exact IH].
  apply kind_eqb_eq in K.
  rewrite match_value by (try assumption; rewrite (kind_bits _ _ K); assumption).
  cbn [bind]. destruct (_ =? _); [reflexivity|exact IH].
Qed.

Lemma subnetMatch_value (a : addr) (t : list (string * list (addr * Z))) (d : string) :
  addr_parts_in a -> ranges_ok d t ->
  exists r, subnetMatch a t d = Ok r /\
            String.eqb r d = negb (existsb (fun e => existsb (in_range a) (snd e)) t).
Proof.
  intros Ha. induction 1 as [|[name l] t [Hn Hl] Ht IH]; cbn [subnetMatch existsb].
  - exists d. split; [reflexivity|]. apply String.eqb_refl.
  - cbn [fst snd] in *. rewrite (subnetMatch_subnets_value a l Ha Hl). cbn [bind].
    destruct (existsb (in_range a) l); cbn [orb negb]; [|exact IH].
    exists name. split; [reflexivity|assumption].
Qed.

Lemma IPv4_ranges_ok : ranges_ok "unicast" IPv4.SpecialRanges.
Proof.
  unfold ranges_ok, IPv4.SpecialRanges, IPv4.v4.
  repeat (apply Forall_cons || apply Forall_nil); cbn [fst snd];
    (split; [reflexivity|]);
    repeat (apply Forall_cons || apply Forall_nil); cbn [fst snd addr_parts_in octets addr_bits];
    (split; [split; [reflexivity|]|lia]);
    repeat (apply Forall_cons || apply Forall_nil); change (2 ^ 8) with 256; lia.
Qed.

Lemma IPv6_ranges_ok : ranges_ok "unicast" IPv6.SpecialRanges.
Proof.
  unfold ranges_ok, IPv6.SpecialRanges, IPv6.v6.
  repeat (apply Forall_cons || apply Forall_nil); cbn [fst snd];
    (split; [reflexivity|]);
    repeat (apply Forall_cons || apply Forall_nil); cbn [fst snd addr_parts_in parts addr_bits];
    (split; [split; [reflexivity|]|lia]);
    repeat (apply Forall_cons || apply Forall_nil); change (2 ^ 16) with 65536; lia.
Qed.

Lemma range_value (a : addr) :
  addr_parts_in a ->
  exists r, ipaddr.range a = Ok r /\
            String.eqb r "unicast" =
            negb (existsb (fun e => existsb (in_range a) (snd e)) (special_ranges a)).
Proof.
  destruct a as [a|a]; intros Ha; cbn [ipaddr.range special_ranges].
  - apply subnetMatch_value; [assumption|apply IPv4_ranges_ok].
  - apply subnetMatch_value; [assumption|apply IPv6_ranges_ok].
Qed.

(** ** [isPublicIp] in terms of the value of the address *)

(** X4: for a valid address, isPublicIp is true exactly when no
    special range of the address family contains it, a range (addr, bits)
    containing the address when both have the same leading bits:
    value / 2^(size - bits) agree, size being 32 or 128. *)
Theorem isPublicIp_ranges (ip : string) (a : addr) :
  validateIp ip = true -> ipaddr.parse ip = Ok a ->
  isPublicIp ip =
  negb (existsb (fun e => existsb (in_range a) (snd e)) (special_ranges a)).
Proof.
  intros Hv Hp. unfold isPublicIp. rewrite Hv, Hp. cbn [negb bind].
  destruct (range_value a (parse_parts_in ip a Hp)) as (r & Hr & E).
  rewrite Hr. cbn [bind try_catch]. exact E.
Qed.

Lemma isPublicIp_ranges_witness :
  isPublicIp "172.20.1.1" =
  negb (existsb (fun e => existsb (in_range (IPv4.v4 172 20 1 1)) (snd e))
                (special_ranges (IPv4.v4 172 20 1 1))).
Proof.
  apply (isPublicIp_ranges "172.20.1.1" (IPv4.v4 172 20 1 1)); vm_compute; reflexivity.
Defined.

(** ** [isSameSubnet] compares the leading bits *)

(** X5: for two valid addresses and a subnet that normalizes to
    the prefix length c, isSameSubnet returns true exactly when both
    addresses are of the same family and their values agree on the leading
    c bits: value1 / 2^(size - c) = value2 / 2^(size - c), size being 32
    for IPv4 and 128 for IPv6. *)
Theorem isSameSubnet_leading_bits (ip1 ip2 : string) (subnet : value)
        (a1 a2 : addr) (c : Z) :
  validateIp ip1 = true -> validateIp ip2 = true ->
  ipaddr.parse ip1 = Ok a1 -> ipaddr.parse ip2 = Ok a2 ->
  convertSubnetToCidr subnet ip1 = Ok (Some c) ->
  isSameSubnet ip1 ip2 subnet =
  Ok (kind_eqb (addr_kind a1) (addr_kind a2) &&
      (addr_value a1 / 2 ^ (addr_bits a1 - c) =? addr_value a2 / 2 ^ (addr_bits a1 - c))).
Proof.
  intros V1 V2 P1 P2 Hc.
  assert (Hb : c <= addr_bits a1).
  { destruct (validateIp_parse ip1 V1) as (a & Ha & Hk).
    rewrite P1 in Ha. injection Ha as <-.
    pose proof (convertSubnetToCidr_bound subnet ip1 _ c Hk Hc) as H.
    destruct a1; cbn in *; lia. }
  unfold isSameSubnet. rewrite Hc. cbn [bind is_null cidr_val num_val].
  rewrite V1, V2, P1, P2. cbn [negb orb bind].
  destruct (kind_eqb (addr_kind a1) (addr_kind a2)) eqn:K; cbn [negb andb try_catch];
    [|reflexivity].
  apply kind_eqb_eq in K.
  rewrite match_value by eauto using parse_parts_in. reflexivity.
Qed.

Lemma isSameSubnet_leading_bits_witness :
  isSameSubnet "10.1.2.3" "10.1.3.4" (VStr "255.255.254.0") =
  Ok (kind_eqb (addr_kind (IPv4.v4 10 1 2 3)) (addr_kind (IPv4.v4 10 1 3 4)) &&
      (addr_value (IPv4.v4 10 1 2 3) / 2 ^ (addr_bits (IPv4.v4 10 1 2 3) - 23) =?
       addr_value (IPv4.v4 10 1 3 4) / 2 ^ (addr_bits (IPv4.v4 10 1 2 3) - 23))).
Proof.
  apply (isSameSubnet_leading_bits "10.1.2.3" "10.1.3.4" (VStr "255.255.254.0")
           (IPv4.v4 10 1 2 3) (IPv4.v4 10 1 3 4) 23); vm_compute; reflexivity.
Defined.

(** ** What [convertSubnetToCidr] accepts *)

(** X6: whatever convertSubnetToCidr accepts is a prefix length.
    When it returns c, either the trimmed text of the subnet is numeric and
    parses to c, with c in 0..32 (0..128 for an IPv6 reference), or the
    reference is not IPv6, the text parses as an IPv4 address and the 32-bit
    value of that address is c ones followed by zeros, 2^32 - 2^(32 - c). *)
Theorem convertSubnetToCidr_sound (subnet : value) (ip : string) (v : option kind) (c : Z) :
  getIpVersion ip = Ok v ->
  convertSubnetToCidr subnet ip = Ok (Some c) ->
  (isNaN (trim (String_ subnet)) = false /\
   parseInt (trim (String_ subnet)) 10 = Some c /\
   0 <= c <= (if kind_eqb (version_or_ipv4 v) ipv6 then 128 else 32)) \/
  (v <> Some ipv6 /\
   exists m, IPv4.parse (trim (String_ subnet)) = Ok m /\
             0 <= c <= 32 /\ parts_value 8 (octets m) = 2 ^ 32 - 2 ^ (32 - c)).
Proof.
  intros Hv. unfold convertSubnetToCidr. destruct (falsy subnet); [discriminate|].
  rewrite Hv. cbn [bind]. fold (version_or_ipv4 v).
  destruct (negb _ && cidr_in_range _ _) eqn:E.
  - apply andb_true_iff in E. destruct E as [E1 E2]. apply negb_true_iff in E1.
    unfold cidr_in_range in E2.
    destruct (parseInt _ 10) as [c0|]; [|discriminate].
    intros H. injection H as <-. left. cbn [num_val].
    split; [assumption|]. split; [reflexivity|]. lia.
  - destruct (kind_eqb (version_or_ipv4 v) ipv4) eqn:K; cbn [andb]; [|discriminate].
    destruct (IPv4.isValid _); [|discriminate].
    destruct (IPv4.parse _) as [a|] eqn:Ep; cbn [bind try_catch]; [|discriminate].
    intros H. injection H as H. right. split.
    { intros ->. discriminate K. }
    exists a. split; [reflexivity|].
    destruct (wf4_inv a (IPv4_parse_wf _ _ Ep)) as (a0 & a1 & a2 & a3 & -> & _).
    apply prefixLength_mask in H. cbn [octets]. rewrite parts_value_4.
    change (2 ^ 24) with 16777216 in H. change (2 ^ 16) with 65536 in H.
    change (2 ^ 8) with 256 in H. exact H.
Qed.

Lemma convertSubnetToCidr_sound_witness :
  getIpVersion "10.0.0.1" = Ok (Some ipv4) /\
  convertSubnetToCidr (VStr "255.255.240.0") "10.0.0.1" = Ok (Some 20) /\
  ((isNaN (trim (String_ (VStr "255.255.240.0"))) = false /\
    parseInt (trim (String_ (VStr "255.255.240.0"))) 10 = Some 20 /\
    0 <= 20 <= (if kind_eqb (version_or_ipv4 (Some ipv4)) ipv6 then 128 else 32)) \/
   (Some ipv4 <> Some ipv6 /\
    exists m, IPv4.parse (trim (String_ (VStr "255.255.240.0"))) = Ok m /\
              0 <= 20 <= 32 /\ parts_value 8 (octets m) = 2 ^ 32 - 2 ^ (32 - 20))).
Proof.
  split; [vm_compute; reflexivity|]. split; [vm_compute; reflexivity|].
  apply (convertSubnetToCidr_sound (VStr "255.255.240.0") "10.0.0.1" (Some ipv4) 20);
    vm_compute; reflexivity.
Defined.

(** ** Trimming *)

Lemma trimEnd_idem (s : string) : trimEnd (trimEnd s) = trimEnd s.
Proof.
  induction s as [|a s IH]; [reflexivity|].
  cbn [trimEnd]. destruct (trimEnd s) as [|b t] eqn:E.
  - destruct (is_white a) eqn:W; [reflexivity|]. cbn [trimEnd]. now rewrite W.
  - cbn [trimEnd]. cbn [trimEnd] in IH. rewrite IH. reflexivity.
Qed.

Lemma trimEnd_head (a : ascii) (s : string) :
  is_white a = false -> exists t, trimEnd (String a s) = String a t.
Proof.
  intros W. cbn [trimEnd]. destruct (trimEnd s); rewrite ?W; eauto.
Qed.

Lemma trimStart_head (s : string) :
  trimStart s = "" \/ exists a t, trimStart s = String a t /\ is_white a = false.
Proof.
  induction s as [|a s IH]; [now left|].
  cbn [trimStart]. destruct (is_white a) eqn:W; [assumption|].
  right. eauto.
Qed.

Lemma trim_idem (s : string) : trim (trim s) = trim s.
Proof.
  unfold trim. destruct (trimStart_head s) as [E|(a & t & E & W)]; rewrite E.
  - reflexivity.
  - destruct (trimEnd_head a t W) as [u Eu]. rewrite Eu.
    cbn [trimStart]. rewrite W. rewrite <- Eu. apply trimEnd_idem.
Qed.

Lemma IPv4_isValid_empty : IPv4.isValid "" = false.
Proof. vm_compute. reflexivity. Qed.

(** Surrounding white space of a subnet string is ignored. *)
Lemma convertSubnetToCidr_trim (s ip : string) :
  convertSubnetToCidr (VStr (trim s)) ip = convertSubnetToCidr (VStr s) ip.
Proof.
  unfold convertSubnetToCidr. cbn [String_]. rewrite trim_idem.
  destruct s as [|a s]; [reflexivity|].
  cbn [falsy]. destruct (trim (String a s)) as [|b t] eqn:E; [|reflexivity].
  rewrite getIpVersion_spec. cbn [bind].
  replace (isNaN "") with false by (vm_compute; reflexivity).
  replace (parseInt "" 10) with (@None Z) by (vm_compute; reflexivity).
  cbn [negb andb cidr_in_range]. rewrite IPv4_isValid_empty.
  rewrite andb_false_r. reflexivity.
Qed.

(** ** The two validity checks on IPv6 text *)

(** X7: an address that getIpVersion classifies as ipv6 passes
    validateIp: the two checks differ on IPv4 text only. *)
Theorem getIpVersion_ipv6_strict (ip : string) :
  getIpVersion ip = Ok (Some ipv6) -> validateIp ip = true.
Proof.
  rewrite getIpVersion_spec. unfold validateIp.
  destruct (ipaddr.isValid ip); [|discriminate].
  destruct (IPv6.isValid ip); [reflexivity|discriminate].
Qed.

Lemma getIpVersion_ipv6_strict_witness :
  getIpVersion "fe80::1" = Ok (Some ipv6) /\ validateIp "fe80::1" = true.
Proof.
  split; [vm_compute; reflexivity|].
  apply (getIpVersion_ipv6_strict "fe80::1"). vm_compute. reflexivity.
Defined.

Lemma prefix_cases (c : Z) :
  0 <= c <= 32 ->
  c = 0 \/ c = 1 \/ c = 2 \/ c = 3 \/ c = 4 \/ c = 5 \/ c = 6 \/ c = 7 \/ c = 8 \/ c = 9 \/ c = 10 \/ c = 11 \/ c = 12 \/ c = 13 \/ c = 14 \/ c = 15 \/ c = 16 \/ c = 17 \/ c = 18 \/ c = 19 \/ c = 20 \/ c = 21 \/ c = 22 \/ c = 23 \/ c = 24 \/ c = 25 \/ c = 26 \/ c = 27 \/ c = 28 \/ c = 29 \/ c = 30 \/ c = 31 \/ c = 32.
Proof. lia. Qed.

(** ** Every netmask is accepted *)

(** X8: every netmask is accepted: for a reference address that
    is not IPv6 (IPv4 or invalid) and every prefix length p in 0..32, the
    dotted-decimal text of the netmask of p normalizes to p. *)
Theorem convertSubnetToCidr_netmask (ip : string) (v : option kind) (p : Z) (m : IPv4_t) :
  getIpVersion ip = Ok v -> v <> Some ipv6 -> 0 <= p <= 32 ->
  IPv4.subnetMaskFromPrefixLength p = Ok m ->
  convertSubnetToCidr (VStr (IPv4.toString m)) ip = Ok (Some p).
Proof.
  intros Hv Hn Hp Hm.
  assert (Hk : version_or_ipv4 v = ipv4).
  { destruct v as [[|]|]; [reflexivity|congruence|reflexivity]. }
  unfold convertSubnetToCidr. rewrite Hv. cbn [bind]. fold (version_or_ipv4 v).
  rewrite Hk. clear Hv Hn Hk.
  apply prefix_cases in Hp.
  repeat (destruct Hp as [Hp|Hp];
          [subst p; vm_compute in Hm; injection Hm as <-; vm_compute; reflexivity|]).
  subst p; vm_compute in Hm; injection Hm as <-; vm_compute; reflexivity.
Qed.

Lemma convertSubnetToCidr_netmask_witness :
  convertSubnetToCidr (VStr (IPv4.toString (mkIPv4 [255; 255; 254; 0]))) "not an address"
  = Ok (Some 23).
Proof.
  apply (convertSubnetToCidr_netmask "not an address" None 23 (mkIPv4 [255; 255; 254; 0])).
  - vm_compute. reflexivity.
  - discriminate.
  - lia.
  - vm_compute. reflexivity.
Defined.

(** ** The outcomes of [checkIpAndSubnet] *)

(** X9: checkIpAndSubnet never throws; its result is null or one
    of its four messages.  It is the format message exactly when validateIp
    rejects the address or validateSubnet rejects the subnet, and the
    invalid-mask message exactly when both accept and the address is
    IPv6. *)
Theorem checkIpAndSubnet_outcomes (ip : string) (subnet : value) :
  exists r, checkIpAndSubnet ip subnet = Ok r /\
    (r = None \/ r = Some msg_invalid_format \/ r = Some msg_network \/
     r = Some msg_broadcast \/ r = Some msg_invalid_mask) /\
    (r = Some msg_invalid_format <->
     validateIp ip = false \/ validateSubnet subnet ip = Ok false) /\
    (r = Some msg_invalid_mask <->
     validateIp ip = true /\ validateSubnet subnet ip = Ok true /\
     getIpVersion ip = Ok (Some ipv6)).
Proof.
  destruct (convertSubnetToCidr_total subnet ip) as [c Hc].
  assert (Hs : validateSubnet subnet ip = Ok (negb (is_null c))).
  { unfold validateSubnet. rewrite Hc. destruct c; reflexivity. }
  rewrite Hs.
  destruct (validateIp ip) eqn:Hv.
  2:{ exists (Some msg_invalid_format). unfold checkIpAndSubnet.
      rewrite Hc. cbn [bind]. rewrite Hv. cbn [negb orb].
      split; [reflexivity|]. split; [auto|]. split.
      - split; auto.
      - split; [discriminate|]. intros (H & _). discriminate. }
  destruct c as [c|].
  2:{ exists (Some msg_invalid_format). unfold checkIpAndSubnet.
      rewrite Hc. cbn [bind]. rewrite Hv. cbn [negb orb is_null].
      split; [reflexivity|]. split; [auto|]. split.
      - split; auto.
      - split; [discriminate|]. intros (_ & H & _). discriminate. }
  destruct (validateIp_parse ip Hv) as (a & Ha & Hk). destruct a as [a|a].
  - cbn [addr_kind] in Hk.
    rewrite (checkIpAndSubnet_ipv4_unfold ip subnet c Hv Hk Hc).
    pose proof (convertSubnetToCidr_ipv4_range subnet ip c Hk Hc) as Hr.
    destruct (cidr_helpers_total ip c Hv Hk Hr)
      as (a0 & a1 & a2 & a3 & m0 & m1 & m2 & m3 & _ & _ & Hn & Hb).
    rewrite Hn, Hb. cbn [bind]. rewrite Hk.
    match goal with |- context [if ?b then Ok (Some msg_network) else _] =>
      destruct b end;
    [|match goal with |- context [if ?b then Ok (Some msg_broadcast) else _] =>
      destruct b end];
    cbn [try_catch]; eexists; (split; [reflexivity|]);
    (split; [auto 6|]); split; split; try discriminate;
    try (intros [H|H]; discriminate); intros (_ & _ & H); discriminate.
  - cbn [addr_kind] in Hk. exists (Some msg_invalid_mask).
    unfold checkIpAndSubnet.
    rewrite Hc. cbn [bind]. rewrite Hv. cbn [negb orb is_null]. rewrite Ha.
    cbn [bind IPv6.mask_toString try_catch].
    split; [reflexivity|]. split; [auto 6|]. split.
    + split; [discriminate|]. intros [H|H]; discriminate.
    + split; auto.
Qed.

(** ** Decimal parts *)

Lemma lit_eq (a b : ascii) : lit a b = true -> b = a.
Proof. unfold lit. intros H. apply Ascii.eqb_eq in H. now subst. Qed.

Lemma between_19 (a : ascii) :
  between "1" "9" a = true -> digit a = true /\ lit "0" a = false.
Proof.
  unfold digit, between, lit. intros H.
  apply andb_true_iff in H. destruct H as [H1 H2].
  apply N.leb_le in H1. split.
  - apply andb_true_iff. split; [|assumption]. apply N.leb_le.
    change (N_of_ascii "0") with 48%N. change (N_of_ascii "1") with 49%N in H1. lia.
  - destruct (Ascii.eqb_spec "0" a) as [<-|]; [|reflexivity].
    change (N_of_ascii "0") with 48%N in H1. change (N_of_ascii "1") with 49%N in H1. lia.
Qed.

Lemma canonical_cases (p : string) :
  canonical p = true ->
  p = "0" \/ exists a r, p = String a r /\ between "1" "9" a = true /\
                         all_chars digit r = true.
Proof.
  destruct p as [|a r]; [discriminate|]. cbn [canonical]. intros H.
  apply orb_true_iff in H. destruct H as [H|H]; apply andb_true_iff in H; destruct H as [H1 H2].
  - left. apply lit_eq in H1. subst a. destruct r; [reflexivity|discriminate].
  - right. eauto.
Qed.

Lemma canonical_all_digits (p : string) :
  canonical p = true -> exists a r, p = String a r /\ digit a = true /\ all_chars digit r = true.
Proof.
  intros H. apply canonical_cases in H. destruct H as [->|(a & r & -> & Ha & Hr)].
  - exists "0"%char, "". auto.
  - exists a, r. destruct (between_19 a Ha). auto.
Qed.

Lemma chr_digit_within : consumes_within digit (rmatch (Chr digit)).
Proof. apply (rmatch_within digit (Chr digit)). cbn. auto. Qed.

Lemma decimalPart_sound (i : nat) s c k x :
  rmatch (IPv4.decimalPart i) s c k = Some x ->
  exists p t c', s = p ++ t /\ canonical p = true /\ k t c' = Some x.
Proof.
  unfold IPv4.decimalPart. cbn [rmatch]. destruct s as [|a s]; [discriminate|].
  destruct (lit "0" a) eqn:L0.
  - apply lit_eq in L0. subst a. change (between "1" "9" "0") with false. cbv iota.
    destruct (k s _) as [y|] eqn:E; [|discriminate].
    intros H. injection H as ->. exists "0", s. eexists. repeat split. exact E.
  - destruct (between "1" "9" a) eqn:B; [|discriminate].
    intros H. apply (star_iter_within digit _ _ chr_digit_within) in H.
    destruct H as (u & t & c' & -> & Hu & Hk).
    exists (String a u), t. eexists. repeat split; [|exact Hk].
    cbn [canonical]. now rewrite B, Hu, orb_true_r.
Qed.

Lemma decimalPart_complete (i : nat) p t c k x :
  canonical p = true -> starts_not digit t = true ->
  k t ((i, p) :: c) = Some x ->
  rmatch (IPv4.decimalPart i) (p ++ t) c k = Some x.
Proof.
  intros Hp Ht Hk. unfold IPv4.decimalPart. cbn [rmatch].
  apply canonical_cases in Hp. destruct Hp as [->|(a & r & -> & Ha & Hr)].
  - cbn [append]. change (lit "0" "0") with true. cbv iota.
    change (String "0" t) with ("0" ++ t). rewrite consumed_app. now rewrite Hk.
  - cbn [append]. destruct (between_19 a Ha) as [_ L0]. rewrite L0, Ha.
    apply star_chr_all; [|assumption|assumption|apply Nat.le_refl].
    change (String a (r ++ t)) with (String a r ++ t). now rewrite consumed_app.
Qed.

Lemma fourPartDecimal_sound (s : string) :
  test IPv4.fourPartDecimal s = true ->
  exists p1 p2 p3 p4,
    s = dotted p1 p2 p3 p4 /\ canonical p1 = true /\ canonical p2 = true /\
    canonical p3 = true /\ canonical p4 = true.
Proof.
  unfold test, exec. destruct (rmatch _ _ _ _) as [x|] eqn:E; [|discriminate]. intros _.
  unfold IPv4.fourPartDecimal in E. cbn [Seqs] in E.
  change (rmatch (Seq ?r1 ?r2) ?s ?c ?k) with (rmatch r1 s c (fun s1 c1 => rmatch r2 s1 c1 k)) in E.
  apply decimalPart_sound in E. destruct E as (p1 & t1 & c1 & -> & H1 & E).
  cbn [rmatch] in E. destruct t1 as [|d1 t1]; [discriminate|].
  destruct (lit "." d1) eqn:L1; [|discriminate]. apply lit_eq in L1. subst d1.
  apply decimalPart_sound in E. destruct E as (p2 & t2 & c2 & -> & H2 & E).
  destruct t2 as [|d2 t2]; [discriminate|].
  destruct (lit "." d2) eqn:L2; [|discriminate]. apply lit_eq in L2. subst d2.
  apply decimalPart_sound in E. destruct E as (p3 & t3 & c3 & -> & H3 & E).
  destruct t3 as [|d3 t3]; [discriminate|].
  destruct (lit "." d3) eqn:L3; [|discriminate]. apply lit_eq in L3. subst d3.
  apply decimalPart_sound in E. destruct E as (p4 & t4 & c4 & -> & H4 & E).
  destruct t4; [|discriminate].
  exists p1, p2, p3, p4. unfold dotted. rewrite app_nil_r_s. auto.
Qed.

Lemma starts_not_dot (t : string) : starts_not digit (String "." t) = true.
Proof. reflexivity. Qed.

Lemma fourPartDecimal_complete (p1 p2 p3 p4 : string) :
  canonical p1 = true -> canonical p2 = true -> canonical p3 = true ->
  canonical p4 = true -> test IPv4.fourPartDecimal (dotted p1 p2 p3 p4) = true.
Proof.
  intros H1 H2 H3 H4. unfold test, exec, dotted, IPv4.fourPartDecimal. cbn [Seqs].
  change (rmatch (Seq ?r1 ?r2) ?s ?c ?k) with (rmatch r1 s c (fun s1 c1 => rmatch r2 s1 c1 k)).
  erewrite decimalPart_complete; [reflexivity|assumption|reflexivity|].
  cbn [append rmatch]. change (lit "." ".") with true. cbv iota.
  apply decimalPart_complete; [assumption|reflexivity|].
  cbn [append rmatch]. change (lit "." ".") with true. cbv iota.
  apply decimalPart_complete; [assumption|reflexivity|].
  cbn [append rmatch]. change (lit "." ".") with true. cbv iota.
  rewrite <- (app_nil_r_s p4) at 1.
  apply decimalPart_complete; [assumption|reflexivity|]. reflexivity.
Qed.

Lemma starts_not_chr (p : ascii -> bool) (t : string) c k :
  starts_not p t = true -> rmatch (Chr p) t c k = None.
Proof.
  destruct t as [|b t]; [reflexivity|]. cbn [starts_not rmatch].
  intros H. apply negb_true_iff in H. now rewrite H.
Qed.

Lemma plus_chr_prefix p k c x a u t :
  p a = true -> all_chars p u = true -> starts_not p t = true ->
  k t c = Some x ->
  rmatch (Plus (Chr p)) (String a (u ++ t)) c k = Some x.
Proof.
  intros Ha Hu Ht Hk. unfold Plus. cbn [rmatch]. rewrite Ha.
  apply star_chr_all; try assumption. apply Nat.le_refl.
Qed.

Lemma ipv4Part_canonical (i : nat) p t c k x :
  canonical p = true -> starts_not digit t = true ->
  k t ((i, p) :: c) = Some x ->
  rmatch (ipv4Part i) (p ++ t) c k = Some x.
Proof.
  intros Hp Ht Hk. unfold ipv4Part. cbn [rmatch Seqs].
  apply canonical_cases in Hp. destruct Hp as [->|(a & r & -> & Ha & Hr)].
  - cbn [append]. unfold Opt, Plus. cbn [rmatch].
    change (lit "0" "0") with true. change (digit "0") with true. cbv iota.
    assert (Hc : consumed (String "0" t) t = "0").
    { change (String "0" t) with ("0" ++ t). apply consumed_app. }
    destruct t as [|b t].
    + cbn [star_iter String.length]. now rewrite Hc, Hk.
    + cbn [starts_not] in Ht. apply negb_true_iff in Ht. rewrite Ht.
      cbn [star_iter String.length]. rewrite Ht. now rewrite Hc, Hk.
  - cbn [append]. destruct (between_19 a Ha) as [Hd L0].
    rewrite opt_chr_skip by assumption.
    erewrite plus_chr_prefix; [reflexivity|assumption|assumption|assumption|].
    cbv beta. change (String a (r ++ t)) with (String a r ++ t).
    now rewrite consumed_app.
Qed.

Lemma fourOctet_canonical (p1 p2 p3 p4 : string) :
  canonical p1 = true -> canonical p2 = true -> canonical p3 = true ->
  canonical p4 = true ->
  exec fourOctet (dotted p1 p2 p3 p4) =
  Some ([(4%nat, p4); (3%nat, p3); (2%nat, p2); (1%nat, p1)], "").
Proof.
  intros H1 H2 H3 H4. unfold exec, dotted, fourOctet. cbn [Seqs].
  change (rmatch (Seq ?r1 ?r2) ?s ?c ?k) with (rmatch r1 s c (fun s1 c1 => rmatch r2 s1 c1 k)).
  apply ipv4Part_canonical; [assumption|reflexivity|].
  cbn [append rmatch]. change (lit "." ".") with true. cbv iota.
  apply ipv4Part_canonical; [assumption|reflexivity|].
  cbn [append rmatch]. change (lit "." ".") with true. cbv iota.
  apply ipv4Part_canonical; [assumption|reflexivity|].
  cbn [append rmatch]. change (lit "." ".") with true. cbv iota.
  rewrite <- (app_nil_r_s p4) at 1.
  apply ipv4Part_canonical; [assumption|reflexivity|]. reflexivity.
Qed.

Lemma parseIntAuto_canonical (p : string) :
  canonical p = true -> parseIntAuto p = Ok (Some (dec_value 0 p)).
Proof.
  intros Hp. apply canonical_cases in Hp. destruct Hp as [->|(a & r & -> & Ha & Hr)].
  - vm_compute. reflexivity.
  - destruct (between_19 a Ha). now apply parseIntAuto_digits.
Qed.

Lemma IPv4_parser_canonical (p1 p2 p3 p4 : string) :
  canonical p1 = true -> canonical p2 = true -> canonical p3 = true ->
  canonical p4 = true ->
  IPv4.parser (dotted p1 p2 p3 p4) =
  Ok (Some [Some (dec_value 0 p1); Some (dec_value 0 p2);
            Some (dec_value 0 p3); Some (dec_value 0 p4)]).
Proof.
  intros H1 H2 H3 H4. unfold IPv4.parser.
  rewrite fourOctet_canonical by assumption.
  cbn [grp cap Nat.eqb mapM].
  rewrite !parseIntAuto_canonical by assumption. reflexivity.
Qed.

(** ** Canonical decimal text and its value *)

Lemma dec_value_bounds (p : string) : forall acc,
  all_chars digit p = true -> 0 <= acc ->
  acc * 10 ^ Z.of_nat (String.length p) <= dec_value acc p
  < (acc + 1) * 10 ^ Z.of_nat (String.length p).
Proof.
  induction p as [|a p IH]; intros acc Hp Hacc.
  - cbn. lia.
  - cbn [all_chars] in Hp. apply andb_true_iff in Hp. destruct Hp as [Ha Hp].
    destruct (digit_val_digit a Ha) as [_ Hd].
    cbn [dec_value String.length]. rewrite Nat2Z.inj_succ, Z.pow_succ_r by lia.
    specialize (IH (acc * 10 + (Z.of_N (N_of_ascii a) - 48)) Hp ltac:(lia)).
    assert (0 < 10 ^ Z.of_nat (String.length p)) by (apply Z.pow_pos_nonneg; lia).
    nia.
Qed.

Lemma digit_code_inj (a b : ascii) :
  Z.of_N (N_of_ascii a) - 48 = Z.of_N (N_of_ascii b) - 48 -> a = b.
Proof.
  intros H. assert (E : N_of_ascii a = N_of_ascii b) by lia.
  rewrite <- (ascii_N_embedding a), <- (ascii_N_embedding b). now rewrite E.
Qed.

Lemma dec_value_inj_len (p : string) : forall q acc1 acc2,
  String.length p = String.length q ->
  all_chars digit p = true -> all_chars digit q = true ->
  dec_value acc1 p = dec_value acc2 q -> acc1 = acc2 /\ p = q.
Proof.
  induction p as [|a p IH]; intros [|b q] acc1 acc2 Hl Hp Hq E; try discriminate.
  - auto.
  - cbn [all_chars] in Hp, Hq.
    apply andb_true_iff in Hp. destruct Hp as [Ha Hp].
    apply andb_true_iff in Hq. destruct Hq as [Hb Hq].
    destruct (digit_val_digit a Ha) as [_ Hda]. destruct (digit_val_digit b Hb) as [_ Hdb].
    injection Hl as Hl. cbn [dec_value] in E.
    destruct (IH q _ _ Hl Hp Hq E) as [E1 ->].
    assert (acc1 = acc2 /\ Z.of_N (N_of_ascii a) - 48 = Z.of_N (N_of_ascii b) - 48) by lia.
    destruct H as [-> H]. apply digit_code_inj in H. now subst.
Qed.

Lemma canonical_inj (p q : string) :
  canonical p = true -> canonical q = true ->
  dec_value 0 p = dec_value 0 q -> p = q.
Proof.
  intros Hp Hq E.
  assert (Hlead : forall a r, between "1" "9" a = true -> all_chars digit r = true ->
            10 ^ Z.of_nat (String.length r) <= dec_value 0 (String a r)
            < 10 ^ Z.of_nat (S (String.length r))).
  { intros a r Ha Hr. cbn [dec_value].
    assert (1 <= Z.of_N (N_of_ascii a) - 48 <= 9).
    { unfold between in Ha. apply andb_true_iff in Ha. destruct Ha as [H1 H2].
      apply N.leb_le in H1, H2.
      change (N_of_ascii "1") with 49%N in H1. change (N_of_ascii "9") with 57%N in H2. lia. }
    pose proof (dec_value_bounds r (0 * 10 + (Z.of_N (N_of_ascii a) - 48)) Hr ltac:(lia)) as B.
    rewrite Nat2Z.inj_succ, Z.pow_succ_r by lia.
    assert (0 < 10 ^ Z.of_nat (String.length r)) by (apply Z.pow_pos_nonneg; lia).
    nia. }
  assert (Hpos : forall n : nat, 0 < 10 ^ Z.of_nat n) by (intros; apply Z.pow_pos_nonneg; lia).
  apply canonical_cases in Hp, Hq.
  destruct Hp as [->|(a & r & -> & Ha & Hr)], Hq as [->|(b & r' & -> & Hb & Hr')].
  - reflexivity.
  - pose proof (Hlead b r' Hb Hr') as B. pose proof (Hpos (String.length r')).
    change (dec_value 0 "0") with 0 in E. lia.
  - pose proof (Hlead a r Ha Hr) as B. pose proof (Hpos (String.length r)).
    change (dec_value 0 "0") with 0 in E. lia.
  - pose proof (Hlead a r Ha Hr) as B1. pose proof (Hlead b r' Hb Hr') as B2.
    assert (Hl : String.length r = String.length r').
    { destruct (Nat.lt_trichotomy (String.length r) (String.length r')) as [L|[L|L]];
        [exfalso|assumption|exfalso].
      - assert (10 ^ Z.of_nat (S (String.length r)) <= 10 ^ Z.of_nat (String.length r'))
          by (apply Z.pow_le_mono_r; lia). lia.
      - assert (10 ^ Z.of_nat (S (String.length r')) <= 10 ^ Z.of_nat (String.length r))
          by (apply Z.pow_le_mono_r; lia). lia. }
    destruct (between_19 a Ha) as [Hda _]. destruct (between_19 b Hb) as [Hdb _].
    apply (dec_value_inj_len (String a r) (String b r') 0 0).
    + cbn. now rewrite Hl.
    + cbn. now rewrite Hda, Hr.
    + cbn. now rewrite Hdb, Hr'.
    + assumption.
Qed.

Lemma canonical_digits (n : Z) : 0 <= n -> canonical (digits n) = true.
Proof.
  intros Hn. destruct (Z.eq_dec n 0) as [->|Hz]; [reflexivity|].
  destruct (digits_head n ltac:(lia)) as (d & rest & E & Hd).
  pose proof (digits_all n Hn) as Hall. rewrite E in *.
  cbn [all_chars] in Hall. apply andb_true_iff in Hall. destruct Hall as [_ Hr].
  cbn [canonical]. rewrite Hr.
  assert (B : between "1" "9" (digit_char d) = true).
  { assert (H' : 0 <= d <= 9) by lia. dval_split H'; try reflexivity. lia. }
  rewrite B. apply orb_true_r.
Qed.

Lemma canonical_value_nonneg (p : string) : canonical p = true -> 0 <= dec_value 0 p.
Proof.
  intros Hp. destruct (canonical_all_digits p Hp) as (a & r & -> & Ha & Hr).
  assert (Hall : all_chars digit (String a r) = true) by (cbn; now rewrite Ha, Hr).
  pose proof (dec_value_bounds _ 0 Hall ltac:(lia)). lia.
Qed.

Lemma digits_dec_value (p : string) :
  canonical p = true -> digits (dec_value 0 p) = p.
Proof.
  intros Hp. pose proof (canonical_value_nonneg p Hp) as H0.
  apply canonical_inj; [now apply canonical_digits|assumption|now apply digits_value].
Qed.

Lemma IPv4_toString_dotted (a0 a1 a2 a3 : Z) :
  0 <= a0 -> 0 <= a1 -> 0 <= a2 -> 0 <= a3 ->
  IPv4.toString (mkIPv4 [a0; a1; a2; a3]) =
  dotted (digits a0) (digits a1) (digits a2) (digits a3).
Proof.
  intros. unfold IPv4.toString, join, dotted. cbn [octets map String.concat].
  now rewrite !Number_toString_nonneg by assumption.
Qed.

(** ** Strings without a colon are not IPv6 *)

Lemma indexOf_from_absent (s : string) : forall i,
  all_chars (fun c => negb (lit ":" c)) s = true -> indexOf_from ":" s i = -1.
Proof.
  induction s as [|a s IH]; intros i H; [reflexivity|].
  cbn [all_chars] in H. apply andb_true_iff in H. destruct H as [Ha Hs].
  apply negb_true_iff in Ha. unfold lit in Ha.
  cbn [indexOf_from startsWith]. rewrite Ha. cbn [andb]. now apply IH.
Qed.

Lemma IPv6_isValid_no_colon (s : string) :
  all_chars (fun c => digit c || lit "." c) s = true -> IPv6.isValid s = false.
Proof.
  intros H. unfold IPv6.isValid, indexOf. rewrite indexOf_from_absent; [reflexivity|].
  revert H. apply all_chars_impl. intros a Ha.
  apply negb_true_iff. unfold lit.
  destruct (Ascii.eqb_spec ":" a) as [<-|]; [discriminate Ha|reflexivity].
Qed.

(** ** Parsing and printing a four-part decimal address *)

Lemma IPv4_new_bytes (a0 a1 a2 a3 : Z) :
  byte a0 -> byte a1 -> byte a2 -> byte a3 ->
  IPv4.new [Some a0; Some a1; Some a2; Some a3] = Ok (mkIPv4 [a0; a1; a2; a3]).
Proof.
  intros. unfold IPv4.new. cbn [List.length Nat.eqb negb forallb].
  now rewrite !in_byte_byte by assumption.
Qed.

Lemma IPv4_new_inv (v0 v1 v2 v3 : Z) (a : IPv4_t) :
  IPv4.new [Some v0; Some v1; Some v2; Some v3] = Ok a ->
  a = mkIPv4 [v0; v1; v2; v3] /\ byte v0 /\ byte v1 /\ byte v2 /\ byte v3.
Proof.
  unfold IPv4.new. cbn [List.length Nat.eqb negb forallb].
  destruct (in_byte (Some v0)) eqn:E0; [|discriminate].
  destruct (in_byte (Some v1)) eqn:E1; [|discriminate].
  destruct (in_byte (Some v2)) eqn:E2; [|discriminate].
  destruct (in_byte (Some v3)) eqn:E3; [|discriminate].
  cbn [andb map num_val]. intros H. injection H as <-.
  apply in_byte_val in E0, E1, E2, E3. cbn [num_val] in *. unfold byte. auto.
Qed.

Lemma parse_dotted (p1 p2 p3 p4 : string) :
  canonical p1 = true -> canonical p2 = true -> canonical p3 = true ->
  canonical p4 = true ->
  IPv4.isValid (dotted p1 p2 p3 p4) = true ->
  byte (dec_value 0 p1) /\ byte (dec_value 0 p2) /\
  byte (dec_value 0 p3) /\ byte (dec_value 0 p4) /\
  ipaddr.parse (dotted p1 p2 p3 p4) =
  Ok (V4 (mkIPv4 [dec_value 0 p1; dec_value 0 p2; dec_value 0 p3; dec_value 0 p4])).
Proof.
  intros H1 H2 H3 H4 Hv.
  assert (H6 : IPv6.isValid (dotted p1 p2 p3 p4) = false).
  { apply IPv6_isValid_no_colon. apply fourPartDecimal_chars.
    now apply fourPartDecimal_complete. }
  unfold ipaddr.parse. rewrite H6, Hv.
  unfold IPv4.isValid in Hv. unfold IPv4.parse.
  rewrite IPv4_parser_canonical in * by assumption. cbn [bind IPv4.new_nullable] in *.
  destruct (IPv4.new _) as [a|] eqn:En; [|discriminate].
  apply IPv4_new_inv in En. destruct En as (-> & B1 & B2 & B3 & B4).
  cbn [bind]. auto.
Qed.

Lemma toString_dec_value (p1 p2 p3 p4 : string) :
  canonical p1 = true -> canonical p2 = true -> canonical p3 = true ->
  canonical p4 = true ->
  IPv4.toString (mkIPv4 [dec_value 0 p1; dec_value 0 p2; dec_value 0 p3; dec_value 0 p4]) =
  dotted p1 p2 p3 p4.
Proof.
  intros H1 H2 H3 H4.
  rewrite IPv4_toString_dotted by now apply canonical_value_nonneg.
  now rewrite !digits_dec_value by assumption.
Qed.

(** An address that [validateIp] accepts as IPv4 is four canonical
    decimal parts, each the text of an octet. *)
Lemma strict_ipv4_dotted (ip : string) :
  validateIp ip = true -> getIpVersion ip = Ok (Some ipv4) ->
  exists p1 p2 p3 p4,
    ip = dotted p1 p2 p3 p4 /\
    canonical p1 = true /\ canonical p2 = true /\ canonical p3 = true /\
    canonical p4 = true /\
    byte (dec_value 0 p1) /\ byte (dec_value 0 p2) /\
    byte (dec_value 0 p3) /\ byte (dec_value 0 p4) /\
    ipaddr.parse ip =
    Ok (V4 (mkIPv4 [dec_value 0 p1; dec_value 0 p2; dec_value 0 p3; dec_value 0 p4])).
Proof.
  intros Hv Hk. destruct (validateIp_ipv4_fourPart ip Hv Hk) as [Hi Ht].
  apply fourPartDecimal_sound in Ht.
  destruct Ht as (p1 & p2 & p3 & p4 & -> & H1 & H2 & H3 & H4).
  destruct (parse_dotted p1 p2 p3 p4 H1 H2 H3 H4 Hi) as (B1 & B2 & B3 & B4 & Hp).
  exists p1, p2, p3, p4. auto 12.
Qed.

Lemma toString_valid (a0 a1 a2 a3 : Z) :
  byte a0 -> byte a1 -> byte a2 -> byte a3 ->
  validateIp (IPv4.toString (mkIPv4 [a0; a1; a2; a3])) = true /\
  ipaddr.parse (IPv4.toString (mkIPv4 [a0; a1; a2; a3])) = Ok (V4 (mkIPv4 [a0; a1; a2; a3])).
Proof.
  intros B0 B1 B2 B3. unfold byte in *.
  rewrite IPv4_toString_dotted by lia.
  assert (C0 := canonical_digits a0 ltac:(lia)). assert (C1 := canonical_digits a1 ltac:(lia)).
  assert (C2 := canonical_digits a2 ltac:(lia)). assert (C3 := canonical_digits a3 ltac:(lia)).
  assert (Hi : IPv4.isValid (dotted (digits a0) (digits a1) (digits a2) (digits a3)) = true).
  { unfold IPv4.isValid. rewrite IPv4_parser_canonical by assumption.
    rewrite !digits_value by lia. cbn [bind IPv4.new_nullable].
    now rewrite IPv4_new_bytes. }
  destruct (parse_dotted _ _ _ _ C0 C1 C2 C3 Hi) as (_ & _ & _ & _ & Hp).
  rewrite !digits_value in Hp by lia. split; [|exact Hp].
  unfold validateIp, IPv4.isValidFourPartDecimal.
  rewrite Hi, fourPartDecimal_complete by assumption.
  destruct (IPv6.isValid _); reflexivity.
Qed.

Lemma toString_inj (a0 a1 a2 a3 b0 b1 b2 b3 : Z) :
  byte a0 -> byte a1 -> byte a2 -> byte a3 ->
  byte b0 -> byte b1 -> byte b2 -> byte b3 ->
  IPv4.toString (mkIPv4 [a0; a1; a2; a3]) = IPv4.toString (mkIPv4 [b0; b1; b2; b3]) ->
  [a0; a1; a2; a3] = [b0; b1; b2; b3].
Proof.
  intros A0 A1 A2 A3 B0 B1 B2 B3 E.
  destruct (toString_valid a0 a1 a2 a3 A0 A1 A2 A3) as [_ Ha].
  destruct (toString_valid b0 b1 b2 b3 B0 B1 B2 B3) as [_ Hb].
  rewrite E, Hb in Ha. congruence.
Qed.

Lemma strict_ipv4_quad (ip : string) :
  validateIp ip = true -> getIpVersion ip = Ok (Some ipv4) ->
  exists a0 a1 a2 a3,
    byte a0 /\ byte a1 /\ byte a2 /\ byte a3 /\
    ipaddr.parse ip = Ok (V4 (mkIPv4 [a0; a1; a2; a3])) /\
    IPv4.toString (mkIPv4 [a0; a1; a2; a3]) = ip.
Proof.
  intros Hv Hk.
  destruct (strict_ipv4_dotted ip Hv Hk)
    as (p1 & p2 & p3 & p4 & -> & H1 & H2 & H3 & H4 & B1 & B2 & B3 & B4 & Hp).
  exists (dec_value 0 p1), (dec_value 0 p2), (dec_value 0 p3), (dec_value 0 p4).
  do 4 (split; [assumption|]). split; [assumption|].
  now apply toString_dec_value.
Qed.

(** X10: the strings that validateIp accepts and getIpVersion
    classifies as ipv4 are exactly the dotted-decimal texts a.b.c.d of
    four octets, each written in decimal without a leading zero. *)
Theorem validateIp_ipv4_iff (ip : string) :
  validateIp ip = true /\ getIpVersion ip = Ok (Some ipv4) <->
  exists a0 a1 a2 a3,
    byte a0 /\ byte a1 /\ byte a2 /\ byte a3 /\
    ip = IPv4.toString (mkIPv4 [a0; a1; a2; a3]).
Proof.
  split.
  - intros [Hv Hk].
    destruct (strict_ipv4_quad ip Hv Hk) as (a0 & a1 & a2 & a3 & B0 & B1 & B2 & B3 & _ & Ht).
    exists a0, a1, a2, a3. auto.
  - intros (a0 & a1 & a2 & a3 & B0 & B1 & B2 & B3 & ->).
    destruct (toString_valid a0 a1 a2 a3 B0 B1 B2 B3) as [Hv Hp].
    split; [assumption|].
    destruct (validateIp_parse _ Hv) as (a & Ha & Hk). rewrite Hp in Ha.
    injection Ha as <-. exact Hk.
Qed.

(** X11: printing after parsing: when validateIp accepts ip and
    ip parses to an IPv4 address, the text of that address is ip itself. *)
Theorem parse_toString (ip : string) (a : IPv4_t) :
  validateIp ip = true -> ipaddr.parse ip = Ok (V4 a) -> IPv4.toString a = ip.
Proof.
  intros Hv Hp.
  destruct (validateIp_parse ip Hv) as (a' & Ha' & Hk). rewrite Hp in Ha'.
  injection Ha' as <-. cbn [addr_kind] in Hk.
  destruct (strict_ipv4_quad ip Hv Hk) as (a0 & a1 & a2 & a3 & _ & _ & _ & _ & Hp' & Ht).
  rewrite Hp in Hp'. injection Hp' as ->. exact Ht.
Qed.

Lemma parse_toString_witness :
  IPv4.toString (mkIPv4 [192; 168; 0; 10]) = "192.168.0.10".
Proof.
  apply (parse_toString "192.168.0.10" (mkIPv4 [192; 168; 0; 10])); vm_compute; reflexivity.
Defined.

(** ** Network and broadcast address as numbers *)

Lemma land_lor_mask (a m : Z) :
  byte a -> In m [0; 128; 192; 224; 240; 248; 252; 254; 255] ->
  Z.land a m = a - a mod (256 - m) /\
  Z.lor a (Z.lxor m 255) = a - a mod (256 - m) + (255 - m).
Proof.
  intros Ha Hm.
  assert (H : forallb (fun n =>
                forallb (fun m => (Z.land (Z.of_nat n) m =? Z.of_nat n - Z.of_nat n mod (256 - m))
                                  && (Z.lor (Z.of_nat n) (Z.lxor m 255) =?
                                      Z.of_nat n - Z.of_nat n mod (256 - m) + (255 - m)))
                        [0; 128; 192; 224; 240; 248; 252; 254; 255])
                (seq 0 256) = true) by (vm_compute; reflexivity).
  rewrite forallb_forall in H. unfold byte in Ha.
  specialize (H (Z.to_nat a)). rewrite Z2Nat.id in H by lia.
  assert (Hin : In (Z.to_nat a) (seq 0 256)) by (apply in_seq; lia).
  specialize (H Hin). rewrite forallb_forall in H. specialize (H m Hm).
  apply andb_true_iff in H. destruct H as [H1 H2].
  apply Z.eqb_eq in H1, H2. auto.
Qed.

Ltac pow_const :=
  repeat match goal with
         | |- context [2 ^ ?e] =>
             let v := eval vm_compute in (2 ^ e) in change (2 ^ e) with v
         end.

Ltac mask_case Hm :=
  vm_compute in Hm; injection Hm as <- <- <- <-;
  repeat match goal with
         | A : byte ?a |- context [Z.land ?a ?m] =>
             let H1 := fresh in let H2 := fresh in
             destruct (land_lor_mask a m A ltac:(simpl; tauto)) as [H1 H2];
             rewrite H1, H2; clear H1 H2
         end;
  rewrite !parts_value_4; pow_const;
  unfold byte in *; split; Z.div_mod_to_equations; lia.

Lemma cidr_values (a0 a1 a2 a3 c m0 m1 m2 m3 : Z) :
  byte a0 -> byte a1 -> byte a2 -> byte a3 -> 0 <= c <= 32 ->
  IPv4.subnetMaskFromPrefixLength c = Ok (mkIPv4 [m0; m1; m2; m3]) ->
  parts_value 8 [Z.land a0 m0; Z.land a1 m1; Z.land a2 m2; Z.land a3 m3] =
    parts_value 8 [a0; a1; a2; a3] - parts_value 8 [a0; a1; a2; a3] mod 2 ^ (32 - c) /\
  parts_value 8 [Z.lor a0 (Z.lxor m0 255); Z.lor a1 (Z.lxor m1 255);
                 Z.lor a2 (Z.lxor m2 255); Z.lor a3 (Z.lxor m3 255)] =
    parts_value 8 [a0; a1; a2; a3] - parts_value 8 [a0; a1; a2; a3] mod 2 ^ (32 - c)
    + (2 ^ (32 - c) - 1).
Proof.
  intros A0 A1 A2 A3 Hc Hm. apply prefix_cases in Hc.
  repeat (destruct Hc as [Hc|Hc]; [subst c; mask_case Hm|]).
  subst c; mask_case Hm.
Qed.

Lemma parse_V4 (s : string) (a : IPv4_t) :
  ipaddr.parse s = Ok (V4 a) -> IPv4.parse s = Ok a.
Proof.
  unfold ipaddr.parse. destruct (IPv6.isValid s).
  - destruct (IPv6.parse s); cbn [bind]; [intros H; discriminate H|discriminate].
  - destruct (IPv4.isValid s); [|discriminate].
    destruct (IPv4.parse s); cbn [bind]; [|discriminate]. congruence.
Qed.

Lemma toString_eqb_value (a0 a1 a2 a3 b0 b1 b2 b3 : Z) :
  byte a0 -> byte a1 -> byte a2 -> byte a3 ->
  byte b0 -> byte b1 -> byte b2 -> byte b3 ->
  String.eqb (IPv4.toString (mkIPv4 [a0; a1; a2; a3]))
             (IPv4.toString (mkIPv4 [b0; b1; b2; b3])) =
  (parts_value 8 [a0; a1; a2; a3] =? parts_value 8 [b0; b1; b2; b3]).
Proof.
  intros A0 A1 A2 A3 B0 B1 B2 B3. apply eq_true_iff_eq.
  rewrite String.eqb_eq, Z.eqb_eq. split.
  - intros E. apply toString_inj in E; try assumption. now rewrite E.
  - rewrite !parts_value_4. unfold byte in *. intros E.
    assert (a0 = b0 /\ a1 = b1 /\ a2 = b2 /\ a3 = b3) as (-> & -> & -> & ->) by lia.
    reflexivity.
Qed.

(** ** The IPv4 branch of [checkIpAndSubnet] in terms of host bits *)

Lemma checkIpAndSubnet_ipv4_values (ip : string) (subnet : value) (a : IPv4_t) (c : Z) :
  validateIp ip = true -> ipaddr.parse ip = Ok (V4 a) ->
  convertSubnetToCidr subnet ip = Ok (Some c) ->
  0 <= c <= 32 /\
  0 <= parts_value 8 (octets a) < 2 ^ 32 /\
  checkIpAndSubnet ip subnet =
  Ok (if (parts_value 8 (octets a) =?
          parts_value 8 (octets a) - parts_value 8 (octets a) mod 2 ^ (32 - c))
         && (c <? 31)
      then Some msg_network
      else if (parts_value 8 (octets a) =?
               parts_value 8 (octets a) - parts_value 8 (octets a) mod 2 ^ (32 - c)
               + (2 ^ (32 - c) - 1)) && (c <? 31)
           then Some msg_broadcast
           else None).
Proof.
  intros Hv Hp Hc.
  destruct (validateIp_parse ip Hv) as (a' & Ha' & Hk). rewrite Hp in Ha'.
  injection Ha' as <-. cbn [addr_kind] in Hk.
  destruct (strict_ipv4_dotted ip Hv Hk)
    as (p1 & p2 & p3 & p4 & Ed & H1 & H2 & H3 & H4 & A0 & A1 & A2 & A3 & Hp').
  pose proof (toString_dec_value p1 p2 p3 p4 H1 H2 H3 H4) as Ht. rewrite <- Ed in Ht.
  rewrite Hp in Hp'. injection Hp' as ->. cbn [octets].
  set (a0 := dec_value 0 p1) in *. set (a1 := dec_value 0 p2) in *.
  set (a2 := dec_value 0 p3) in *. set (a3 := dec_value 0 p4) in *.
  pose proof (convertSubnetToCidr_ipv4_range subnet ip c Hk Hc) as Hr.
  split; [assumption|]. split.
  { rewrite parts_value_4. change (2 ^ 32) with 4294967296. unfold byte in *. lia. }
  destruct (subnetMaskFromPrefixLength_spec c Hr)
    as (m0 & m1 & m2 & m3 & Hm & M0 & M1 & M2 & M3 & _).
  destruct (cidr_helpers_total ip c Hv Hk Hr)
    as (a0' & a1' & a2' & a3' & m0' & m1' & m2' & m3' & Hp4 & Hm' & Hn & Hb).
  rewrite (parse_V4 ip _ Hp) in Hp4. injection Hp4 as <- <- <- <-.
  rewrite Hm in Hm'. injection Hm' as <- <- <- <-.
  rewrite (checkIpAndSubnet_ipv4_unfold ip subnet c Hv Hk Hc), Hn, Hb.
  cbn [bind].
  assert (En : forall n, String.eqb ip (IPv4.toString n) =
                         String.eqb (IPv4.toString (mkIPv4 [a0; a1; a2; a3])) (IPv4.toString n))
    by (intros; now rewrite Ht).
  rewrite !En.
  assert (B255 : byte 255) by (unfold byte; lia).
  rewrite !toString_eqb_value by auto using byte_land, byte_lor, byte_lxor.
  destruct (cidr_values a0 a1 a2 a3 c m0 m1 m2 m3 A0 A1 A2 A3 Hr Hm) as [-> ->].
  destruct (_ && (c <? 31)); [reflexivity|].
  destruct (_ && (c <? 31)); reflexivity.
Qed.

(** X12: the IPv4 branch of checkIpAndSubnet in terms of host
    bits.  For a valid IPv4 address of 32-bit value A and a subnet that
    normalizes to c, with P = 2^(32 - c): the result is the network message
    when c < 31 and A mod P = 0, the broadcast message when c < 31 and
    A mod P = P - 1, and null otherwise. *)
Theorem checkIpAndSubnet_host_bits (ip : string) (subnet : value) (a : IPv4_t) (c : Z) :
  validateIp ip = true -> ipaddr.parse ip = Ok (V4 a) ->
  convertSubnetToCidr subnet ip = Ok (Some c) ->
  checkIpAndSubnet ip subnet =
  Ok (if (parts_value 8 (octets a) mod 2 ^ (32 - c) =? 0) && (c <? 31)
      then Some msg_network
      else if (parts_value 8 (octets a) mod 2 ^ (32 - c) =? 2 ^ (32 - c) - 1) && (c <? 31)
           then Some msg_broadcast
           else None).
Proof.
  intros Hv Hp Hc.
  destruct (checkIpAndSubnet_ipv4_values ip subnet a c Hv Hp Hc) as (_ & _ & ->).
  set (A := parts_value 8 (octets a)).
  set (P := 2 ^ (32 - c)).
  replace (A =? A - A mod P) with (A mod P =? 0)
    by (apply eq_true_iff_eq; rewrite !Z.eqb_eq; lia).
  replace (A =? A - A mod P + (P - 1)) with (A mod P =? P - 1)
    by (apply eq_true_iff_eq; rewrite !Z.eqb_eq; lia).
  reflexivity.
Qed.

Lemma checkIpAndSubnet_host_bits_witness :
  checkIpAndSubnet "192.168.1.255" (VStr "255.255.255.0") =
  Ok (if (parts_value 8 (octets (mkIPv4 [192; 168; 1; 255])) mod 2 ^ (32 - 24) =? 0)
         && (24 <? 31)
      then Some msg_network
      else if (parts_value 8 (octets (mkIPv4 [192; 168; 1; 255])) mod 2 ^ (32 - 24)
               =? 2 ^ (32 - 24) - 1) && (24 <? 31)
           then Some msg_broadcast
           else None).
Proof.
  apply (checkIpAndSubnet_host_bits "192.168.1.255" (VStr "255.255.255.0")
           (mkIPv4 [192; 168; 1; 255]) 24); vm_compute; reflexivity.
Defined.

(** ** [isPublicIp] on dotted-decimal addresses *)

Lemma isPublicIp_toString (a0 a1 a2 a3 : Z) :
  byte a0 -> byte a1 -> byte a2 -> byte a3 ->
  isPublicIp (IPv4.toString (mkIPv4 [a0; a1; a2; a3])) =
  negb (existsb (fun e => existsb (in_range (V4 (mkIPv4 [a0; a1; a2; a3]))) (snd e))
                IPv4.SpecialRanges).
Proof.
  intros B0 B1 B2 B3. destruct (toString_valid a0 a1 a2 a3 B0 B1 B2 B3) as [Hv Hp].
  unfold isPublicIp. rewrite Hv, Hp. cbn [negb bind].
  destruct (range_value _ (parse_parts_in _ _ Hp)) as (r & Hr & E).
  rewrite Hr. cbn [bind try_catch]. exact E.
Qed.

Lemma in_range_v4 (a0 a1 a2 a3 e0 e1 e2 e3 bits : Z) :
  in_range (V4 (mkIPv4 [a0; a1; a2; a3])) (IPv4.v4 e0 e1 e2 e3, bits) =
  ((a0 * 16777216 + a1 * 65536 + a2 * 256 + a3) / 2 ^ (32 - bits) =?
   (e0 * 16777216 + e1 * 65536 + e2 * 256 + e3) / 2 ^ (32 - bits)).
Proof.
  unfold in_range, IPv4.v4. cbn [fst snd addr_kind kind_eqb andb addr_bits addr_value octets].
  now rewrite !parts_value_4.
Qed.

Ltac range_leaf :=
  rewrite in_range_v4; pow_const; unfold byte in *;
  first [apply Z.eqb_eq | apply Z.eqb_neq]; Z.div_mod_to_equations; lia.

(** X13: isPublicIp is false on every address a0.a1.a2.a3 of 0/8,
    10/8, 127/8, 169.254/16, 172.16/12, 192.168/16 and of 224.0.0.0 and
    above. *)
Theorem isPublicIp_special (a0 a1 a2 a3 : Z) :
  byte a0 -> byte a1 -> byte a2 -> byte a3 ->
  a0 = 0 \/ a0 = 10 \/ a0 = 127 \/ (a0 = 169 /\ a1 = 254) \/
  (a0 = 172 /\ 16 <= a1 <= 31) \/ (a0 = 192 /\ a1 = 168) \/ 224 <= a0 ->
  isPublicIp (IPv4.toString (mkIPv4 [a0; a1; a2; a3])) = false.
Proof.
  intros B0 B1 B2 B3 H. rewrite isPublicIp_toString by assumption.
  apply negb_false_iff. apply existsb_exists.
  destruct H as [H|[H|[H|[[H H']|[[H H']|[[H H']|H]]]]]].
  - exists ("unspecified", [(IPv4.v4 0 0 0 0, 8)]). split; [simpl; tauto|].
    apply existsb_exists. exists (IPv4.v4 0 0 0 0, 8). split; [simpl; tauto|]. range_leaf.
  - exists ("private", [(IPv4.v4 10 0 0 0, 8); (IPv4.v4 172 16 0 0, 12); (IPv4.v4 192 168 0 0, 16)]).
    split; [simpl; tauto|].
    apply existsb_exists. exists (IPv4.v4 10 0 0 0, 8). split; [simpl; tauto|]. range_leaf.
  - exists ("loopback", [(IPv4.v4 127 0 0 0, 8)]). split; [simpl; tauto|].
    apply existsb_exists. exists (IPv4.v4 127 0 0 0, 8). split; [simpl; tauto|]. range_leaf.
  - exists ("linkLocal", [(IPv4.v4 169 254 0 0, 16)]). split; [simpl; tauto|].
    apply existsb_exists. exists (IPv4.v4 169 254 0 0, 16). split; [simpl; tauto|]. range_leaf.
  - exists ("private", [(IPv4.v4 10 0 0 0, 8); (IPv4.v4 172 16 0 0, 12); (IPv4.v4 192 168 0 0, 16)]).
    split; [simpl; tauto|].
    apply existsb_exists. exists (IPv4.v4 172 16 0 0, 12). split; [simpl; tauto|]. range_leaf.
  - exists ("private", [(IPv4.v4 10 0 0 0, 8); (IPv4.v4 172 16 0 0, 12); (IPv4.v4 192 168 0 0, 16)]).
    split; [simpl; tauto|].
    apply existsb_exists. exists (IPv4.v4 192 168 0 0, 16). split; [simpl; tauto|]. range_leaf.
  - destruct (Z.le_gt_cases 240 a0).
    + exists ("reserved", [(IPv4.v4 192 0 0 0, 24); (IPv4.v4 192 0 2 0, 24);
                           (IPv4.v4 192 88 99 0, 24); (IPv4.v4 198 18 0 0, 15);
                           (IPv4.v4 198 51 100 0, 24); (IPv4.v4 203 0 113 0, 24);
                           (IPv4.v4 240 0 0 0, 4)]).
      split; [simpl; tauto|].
      apply existsb_exists. exists (IPv4.v4 240 0 0 0, 4). split; [simpl; tauto|]. range_leaf.
    + exists ("multicast", [(IPv4.v4 224 0 0 0, 4)]). split; [simpl; tauto|].
      apply existsb_exists. exists (IPv4.v4 224 0 0 0, 4). split; [simpl; tauto|]. range_leaf.
Qed.

Lemma isPublicIp_special_witness :
  isPublicIp (IPv4.toString (mkIPv4 [172; 31; 255; 254])) = false.
Proof.
  apply (isPublicIp_special 172 31 255 254); unfold byte; lia.
Defined.

(** X14: isPublicIp is true on every address a0.a1.a2.a3 whose
    first octet is in 1..223 and is none of 10, 100, 127, 169, 172, 192,
    198 and 203. *)
Theorem isPublicIp_plain (a0 a1 a2 a3 : Z) :
  byte a0 -> byte a1 -> byte a2 -> byte a3 ->
  1 <= a0 <= 223 ->
  a0 <> 10 -> a0 <> 100 -> a0 <> 127 -> a0 <> 169 -> a0 <> 172 -> a0 <> 192 ->
  a0 <> 198 -> a0 <> 203 ->
  isPublicIp (IPv4.toString (mkIPv4 [a0; a1; a2; a3])) = true.
Proof.
  intros B0 B1 B2 B3 H. intros. rewrite isPublicIp_toString by assumption.
  apply negb_true_iff. unfold IPv4.SpecialRanges. cbn [existsb snd].
  repeat (apply orb_false_intro); try reflexivity; range_leaf.
Qed.

Lemma isPublicIp_plain_witness :
  isPublicIp (IPv4.toString (mkIPv4 [8; 8; 8; 8])) = true.
Proof.
  apply (isPublicIp_plain 8 8 8 8); unfold byte; lia.
Defined.

(** ** The alphabet of a valid address *)

Ltac all_ascii a :=
  destruct a as [[] [] [] [] [] [] [] []]; vm_compute; intros H;
  try reflexivity; discriminate H.

Lemma hex_addr_char (a : ascii) : hex_i a = true -> addr_char a = true.
Proof. all_ascii a. Qed.

Lemma alnum_addr_char (a : ascii) : alnum_i a = true -> addr_char a = true.
Proof. unfold addr_char. now intros ->. Qed.

Lemma digit_addr_char (a : ascii) : digit a = true -> addr_char a = true.
Proof. all_ascii a. Qed.

Lemma x_addr_char (a : ascii) : lit "x" a || lit "X" a = true -> addr_char a = true.
Proof. all_ascii a. Qed.

Lemma lit_addr_char (c a : ascii) : addr_char c = true -> lit c a = true -> addr_char a = true.
Proof. intros Hc Ha. apply lit_eq in Ha. now subst. Qed.

Lemma addr_char_not_white (a : ascii) : addr_char a = true -> negb (is_white a) = true.
Proof. all_ascii a. Qed.

Lemma Seqs_cons (r : regex) (l : list regex) :
  l <> [] -> Seqs (r :: l) = Seq r (Seqs l).
Proof. destruct l; [congruence|reflexivity]. Qed.

Lemma seqs_eos_within P (l : list regex) :
  Forall (classes_within P) l ->
  forall s c k x, rmatch (Seqs (l ++ [Eos])) s c k = Some x -> all_chars P s = true.
Proof.
  induction 1 as [|r l Hr Hl IH]; intros s c k x H.
  - cbn in H. destruct s; [reflexivity|discriminate].
  - cbn [app] in H. rewrite Seqs_cons in H by (destruct l; discriminate).
    apply (rmatch_seq_within P _ _ _ _ _ _ Hr) in H.
    destruct H as (u & s' & c' & -> & Hu & H). apply IH in H.
    now rewrite all_chars_app, Hu, H.
Qed.

Ltac class_leaf :=
  intros a Ha;
  first [ exact (hex_addr_char a Ha) | exact (alnum_addr_char a Ha)
        | exact (digit_addr_char a Ha) | exact (x_addr_char a Ha)
        | match type of Ha with
          | lit ?c _ = true => exact (lit_addr_char c a eq_refl Ha)
          end ].

Lemma ipv4Part_addr_char (i : nat) : classes_within addr_char (ipv4Part i).
Proof.
  unfold ipv4Part. cbn [classes_within Opt Plus Seqs]. repeat split; class_leaf.
Qed.

Lemma zoneIndex_addr_char : classes_within addr_char zoneIndex.
Proof.
  unfold zoneIndex. cbn [classes_within Opt Plus Seqs]. repeat split; class_leaf.
Qed.

Lemma ipv6Part_addr_char : classes_within addr_char ipv6Part.
Proof.
  unfold ipv6Part. cbn [classes_within Opt Plus Seqs]. repeat split; class_leaf.
Qed.

Lemma colons_addr_char : classes_within addr_char colons.
Proof.
  unfold colons. cbn [classes_within]. repeat split; class_leaf.
Qed.

Lemma native_chars (s : string) x :
  exec native s = Some x -> all_chars addr_char s = true.
Proof.
  unfold exec, native.
  apply (seqs_eos_within addr_char
           [Opt (Grp 1 colons); Opt (Grp 2 ipv6Part); Opt (Grp 3 (Plus (Chr hex_i)));
            Opt (Grp 4 colons); Opt (Grp 5 zoneIndex)]).
  pose proof colons_addr_char. pose proof ipv6Part_addr_char. pose proof zoneIndex_addr_char.
  repeat (apply Forall_cons || apply Forall_nil);
    cbn [classes_within Opt Plus]; repeat split; try assumption; class_leaf.
Qed.

Lemma deprecatedTransitional_chars (s : string) x :
  exec deprecatedTransitional s = Some x -> all_chars addr_char s = true.
Proof.
  unfold exec, deprecatedTransitional.
  apply (seqs_eos_within addr_char
           [colons;
            Grp 1 (Seqs [ipv4Part 2; Chr (lit "."); ipv4Part 3; Chr (lit ".");
                         ipv4Part 4; Chr (lit "."); ipv4Part 5;
                         Opt (Grp 6 zoneIndex)])]).
  pose proof colons_addr_char. pose proof ipv4Part_addr_char. pose proof zoneIndex_addr_char.
  repeat (apply Forall_cons || apply Forall_nil);
    cbn [classes_within Opt Seqs]; repeat split; auto; class_leaf.
Qed.

Lemma transitional_chars (s : string) x :
  exec transitional s = Some x -> all_chars addr_char s = true.
Proof.
  unfold exec, transitional.
  apply (seqs_eos_within addr_char
           [Grp 1 (Alt ipv6Part (Seq colons (Opt ipv6Part)));
            ipv4Part 2; Chr (lit "."); ipv4Part 3; Chr (lit ".");
            ipv4Part 4; Chr (lit "."); ipv4Part 5;
            Opt (Grp 6 zoneIndex)]).
  pose proof colons_addr_char. pose proof ipv4Part_addr_char.
  pose proof zoneIndex_addr_char. pose proof ipv6Part_addr_char.
  repeat (apply Forall_cons || apply Forall_nil);
    cbn [classes_within Opt Seqs]; repeat split; auto; class_leaf.
Qed.

Lemma IPv6_isValid_chars (s : string) :
  IPv6.isValid s = true -> all_chars addr_char s = true.
Proof.
  unfold IPv6.isValid. destruct (indexOf ":" s =? -1); [discriminate|].
  unfold IPv6.parser. cbn [IPv6.parser_fuel].
  destruct (exec deprecatedTransitional s) as [x|] eqn:Ed.
  - intros _. eapply deprecatedTransitional_chars; eauto.
  - unfold IPv6.parser_body. unfold test.
    destruct (exec native s) as [x|] eqn:En.
    + intros _. eapply native_chars; eauto.
    + destruct (exec transitional s) as [[m r]|] eqn:Et.
      * intros _. eapply transitional_chars; eauto.
      * cbn. discriminate.
Qed.

(** X15: a string that validateIp accepts is made of ASCII
    letters, digits, colons, dots and percent signs; it has no white space,
    so trimming leaves it unchanged (validateIp does not trim its input). *)
Theorem validateIp_alphabet (s : string) :
  validateIp s = true -> all_chars addr_char s = true /\ trim s = s.
Proof.
  intros H.
  assert (Hc : all_chars addr_char s = true).
  { unfold validateIp, IPv4.isValidFourPartDecimal in H.
    destruct (IPv6.isValid s) eqn:E6; [now apply IPv6_isValid_chars|].
    destruct (IPv4.isValid s); [|discriminate].
    destruct (test IPv4.fourPartDecimal s) eqn:Et; [|discriminate].
    apply fourPartDecimal_chars in Et. destruct Et as [Et _].
    revert Et. apply all_chars_impl. intros a Ha.
    apply orb_true_iff in Ha. destruct Ha as [Ha|Ha].
    - now apply digit_addr_char.
    - now apply (lit_addr_char "."). }
  split; [assumption|]. apply trim_id.
  revert Hc. apply all_chars_impl. apply addr_char_not_white.
Qed.

Lemma validateIp_alphabet_witness :
  all_chars addr_char "fe80::1%eth0" = true /\ trim "fe80::1%eth0" = "fe80::1%eth0".
Proof. apply (validateIp_alphabet "fe80::1%eth0"). vm_compute. reflexivity. Defined.

(** ** The subnet argument as a number, as text, and padded *)

Lemma convertSubnetToCidr_text (n : Z) (ip : string) :
  n <> 0 ->
  convertSubnetToCidr (VStr (Number_toString n)) ip = convertSubnetToCidr (VNum n) ip.
Proof.
  intros Hn. unfold convertSubnetToCidr. cbn [falsy String_].
  replace (n =? 0) with false by (symmetry; now apply Z.eqb_neq).
  unfold Number_toString. destruct (n <? 0) eqn:E; [reflexivity|].
  apply Z.ltb_ge in E. destruct (digits_cons n E) as (a & rest & -> & _). reflexivity.
Qed.



(** X17: white space around a subnet string is ignored by
    validateSubnet, isSameSubnet and checkIpAndSubnet. *)
Theorem subnet_trim (s ip ip2 : string) :
  validateSubnet (VStr (trim s)) ip = validateSubnet (VStr s) ip /\
  isSameSubnet ip ip2 (VStr (trim s)) = isSameSubnet ip ip2 (VStr s) /\
  checkIpAndSubnet ip (VStr (trim s)) = checkIpAndSubnet ip (VStr s).
Proof.
  unfold validateSubnet, isSameSubnet, checkIpAndSubnet.
  now rewrite !convertSubnetToCidr_trim.
Qed.

(** ** The network and the broadcast address lie in the subnet *)

Lemma div_sub_mod (A P : Z) : 0 < P -> (A - A mod P) / P = A / P.
Proof.
  intros HP. rewrite (Z.div_mod A P) at 1 by lia.
  replace (P * (A / P) + A mod P - A mod P) with ((A / P) * P) by lia.
  apply Z.div_mul. lia.
Qed.

Lemma div_sub_mod_top (A P : Z) : 0 < P -> (A - A mod P + (P - 1)) / P = A / P.
Proof.
  intros HP. rewrite (Z.div_mod A P) at 1 by lia.
  replace (P * (A / P) + A mod P - A mod P + (P - 1)) with ((P - 1) + (A / P) * P) by lia.
  rewrite Z.div_add by lia. rewrite Z.div_small by lia. lia.
Qed.

(** X18: for a valid IPv4 address and an accepted subnet, the
    two helper calls of checkIpAndSubnet succeed, and the network and the
    broadcast address they compute lie in the same subnet as the address. *)
Theorem isSameSubnet_network_broadcast (ip : string) (subnet : value) (c : Z) :
  validateIp ip = true -> getIpVersion ip = Ok (Some ipv4) ->
  convertSubnetToCidr subnet ip = Ok (Some c) ->
  exists n b,
    IPv4.networkAddressFromCIDR (ip ++ "/" ++ Number_toString c) = Ok n /\
    IPv4.broadcastAddressFromCIDR (ip ++ "/" ++ Number_toString c) = Ok b /\
    isSameSubnet ip (IPv4.toString n) subnet = Ok true /\
    isSameSubnet ip (IPv4.toString b) subnet = Ok true.
Proof.
  intros Hv Hk Hc.
  pose proof (convertSubnetToCidr_ipv4_range subnet ip c Hk Hc) as Hr.
  destruct (cidr_helpers_total ip c Hv Hk Hr)
    as (a0 & a1 & a2 & a3 & m0 & m1 & m2 & m3 & Hp4 & Hm & Hn & Hb).
  destruct (subnetMaskFromPrefixLength_spec c Hr)
    as (m0' & m1' & m2' & m3' & Hm' & M0 & M1 & M2 & M3 & _).
  rewrite Hm in Hm'. injection Hm' as <- <- <- <-.
  destruct (wf4_inv _ (IPv4_parse_wf _ _ Hp4)) as (x0 & x1 & x2 & x3 & Ex & A0 & A1 & A2 & A3).
  injection Ex as <- <- <- <-.
  assert (B255 : byte 255) by (unfold byte; lia).
  assert (Hp : ipaddr.parse ip = Ok (V4 (mkIPv4 [a0; a1; a2; a3]))).
  { destruct (validateIp_parse ip Hv) as (a & Ha & Hk'). rewrite Hk in Hk'.
    destruct a as [a|a]; [|discriminate]. rewrite Ha.
    apply parse_V4 in Ha. congruence. }
  destruct (cidr_values a0 a1 a2 a3 c m0 m1 m2 m3 A0 A1 A2 A3 Hr Hm) as [Vn Vb].
  assert (HP : 0 < 2 ^ (32 - c)) by (apply Z.pow_pos_nonneg; lia).
  eexists. eexists. split; [exact Hn|]. split; [exact Hb|].
  split; apply isSameSubnet_true_iff.
  - destruct (toString_valid (Z.land a0 m0) (Z.land a1 m1) (Z.land a2 m2) (Z.land a3 m3))
      as [Hv' Hp']; auto using byte_land.
    exists c. eexists. eexists. do 5 (split; [eassumption|]). split; [reflexivity|].
    rewrite match_value; eauto using parse_parts_in; [|cbn; lia].
    cbn [addr_value addr_bits octets]. rewrite Vn, div_sub_mod by assumption.
    now rewrite Z.eqb_refl.
  - destruct (toString_valid (Z.lor a0 (Z.lxor m0 255)) (Z.lor a1 (Z.lxor m1 255))
                (Z.lor a2 (Z.lxor m2 255)) (Z.lor a3 (Z.lxor m3 255)))
      as [Hv' Hp']; auto using byte_lor, byte_lxor.
    exists c. eexists. eexists. do 5 (split; [eassumption|]). split; [reflexivity|].
    rewrite match_value; eauto using parse_parts_in; [|cbn; lia].
    cbn [addr_value addr_bits octets]. rewrite Vb, div_sub_mod_top by assumption.
    now rewrite Z.eqb_refl.
Qed.

Lemma isSameSubnet_network_broadcast_witness :
  exists n b,
    IPv4.networkAddressFromCIDR ("10.20.30.40" ++ "/" ++ Number_toString 20) = Ok n /\
    IPv4.broadcastAddressFromCIDR ("10.20.30.40" ++ "/" ++ Number_toString 20) = Ok b /\
    isSameSubnet "10.20.30.40" (IPv4.toString n) (VStr "255.255.240.0") = Ok true /\
    isSameSubnet "10.20.30.40" (IPv4.toString b) (VStr "255.255.240.0") = Ok true.
Proof.
  apply (isSameSubnet_network_broadcast "10.20.30.40" (VStr "255.255.240.0") 20);
    vm_compute; reflexivity.
Defined.

(** ** The longest and the shortest prefix *)

(** X19: for two valid IPv4 addresses, isSameSubnet with the
    number 32 is true exactly when the two strings are equal, with the
    string 0 it is always true, and with the number 0 it is always false. *)
Theorem isSameSubnet_extremes (ip1 ip2 : string) :
  validateIp ip1 = true -> getIpVersion ip1 = Ok (Some ipv4) ->
  validateIp ip2 = true -> getIpVersion ip2 = Ok (Some ipv4) ->
  isSameSubnet ip1 ip2 (VNum 32) = Ok (String.eqb ip1 ip2) /\
  isSameSubnet ip1 ip2 (VStr "0") = Ok true /\
  isSameSubnet ip1 ip2 (VNum 0) = Ok false.
Proof.
  intros V1 K1 V2 K2.
  destruct (strict_ipv4_quad ip1 V1 K1) as (a0 & a1 & a2 & a3 & A0 & A1 & A2 & A3 & P1 & T1).
  destruct (strict_ipv4_quad ip2 V2 K2) as (b0 & b1 & b2 & b3 & B0 & B1 & B2 & B3 & P2 & T2).
  assert (C32 : convertSubnetToCidr (VNum 32) ip1 = Ok (Some 32))
    by (apply (convertSubnetToCidr_num_in_range ip1 _ 32 K1); cbn; lia).
  assert (C0 : convertSubnetToCidr (VStr "0") ip1 = Ok (Some 0))
    by (unfold convertSubnetToCidr; rewrite K1; vm_compute; reflexivity).
  assert (M : forall c, c <= 32 ->
            ipaddr.match_ (V4 (mkIPv4 [a0; a1; a2; a3])) (V4 (mkIPv4 [b0; b1; b2; b3])) c =
            Ok (parts_value 8 [a0; a1; a2; a3] / 2 ^ (32 - c) =?
                parts_value 8 [b0; b1; b2; b3] / 2 ^ (32 - c))).
  { intros c Hc. rewrite match_value; eauto using parse_parts_in. }
  unfold isSameSubnet. rewrite C32, C0. cbn [bind is_null cidr_val num_val falsy convertSubnetToCidr].
  rewrite V1, V2, P1, P2. cbn [negb orb bind addr_kind kind_eqb Z.eqb].
  rewrite !M by lia. cbn [try_catch]. repeat split.
  - change (2 ^ (32 - 32)) with 1. rewrite !Z.div_1_r.
    rewrite <- T1, <- T2. now rewrite toString_eqb_value.
  - rewrite !parts_value_4. change (2 ^ (32 - 0)) with 4294967296.
    unfold byte in *. rewrite !Z.div_small by lia. reflexivity.
Qed.

Lemma isSameSubnet_extremes_witness :
  isSameSubnet "10.0.0.1" "172.16.0.9" (VNum 32) = Ok (String.eqb "10.0.0.1" "172.16.0.9") /\
  isSameSubnet "10.0.0.1" "172.16.0.9" (VStr "0") = Ok true /\
  isSameSubnet "10.0.0.1" "172.16.0.9" (VNum 0) = Ok false.
Proof.
  apply (isSameSubnet_extremes "10.0.0.1" "172.16.0.9"); vm_compute; reflexivity.
Defined.

(** ** A flagged address is the first or the last of its subnet *)

(** X20: an address that checkIpAndSubnet flags as network
    address is the numerically smallest of its subnet, and one flagged as
    broadcast address the largest: every ip2 with isSameSubnet(ip, ip2,
    subnet) = true has a value not below, respectively not above, that
    of ip. *)
Theorem flagged_address_extremal (ip ip2 : string) (subnet : value) (a a2 : IPv4_t) :
  validateIp ip = true ->
  ipaddr.parse ip = Ok (V4 a) -> ipaddr.parse ip2 = Ok (V4 a2) ->
  isSameSubnet ip ip2 subnet = Ok true ->
  (checkIpAndSubnet ip subnet = Ok (Some msg_network) ->
   parts_value 8 (octets a) <= parts_value 8 (octets a2)) /\
  (checkIpAndSubnet ip subnet = Ok (Some msg_broadcast) ->
   parts_value 8 (octets a2) <= parts_value 8 (octets a)).
Proof.
  intros Hv Hp Hp2 Hs. apply isSameSubnet_true_iff in Hs.
  destruct Hs as (c & x1 & x2 & Hc & _ & V2 & Q1 & Q2 & _ & M).
  rewrite Hp in Q1. rewrite Hp2 in Q2. injection Q1 as <-. injection Q2 as <-.
  destruct (checkIpAndSubnet_ipv4_values ip subnet a c Hv Hp Hc) as (Hr & HA & ->).
  rewrite match_value in M;
    [|eauto using parse_parts_in|eauto using parse_parts_in|reflexivity|cbn; lia].
  unfold addr_value, addr_bits in M.
  set (A := parts_value 8 (octets a)) in *. set (B := parts_value 8 (octets a2)) in *.
  set (P := 2 ^ (32 - c)) in *.
  assert (M' : A / P = B / P) by (apply Z.eqb_eq; congruence).
  clear M. rename M' into M.
  assert (HP : 0 < P) by (apply Z.pow_pos_nonneg; lia).
  pose proof (Z.div_mod A P ltac:(lia)) as EA. pose proof (Z.div_mod B P ltac:(lia)) as EB.
  pose proof (Z.mod_pos_bound A P HP). pose proof (Z.mod_pos_bound B P HP).
  rewrite M in EA.
  split.
  - destruct (A =? A - A mod P) eqn:E1; cbn [andb].
    + apply Z.eqb_eq in E1. intros _. lia.
    + destruct (_ && (c <? 31)); intros H'; discriminate H'.
  - destruct ((A =? A - A mod P) && (c <? 31)); [intros H'; discriminate H'|].
    destruct (A =? A - A mod P + (P - 1)) eqn:E2; cbn [andb].
    + apply Z.eqb_eq in E2. intros _. lia.
    + intros H'; discriminate H'.
Qed.

Lemma flagged_address_extremal_witness :
  (checkIpAndSubnet "10.1.2.0" (VNum 24) = Ok (Some msg_network) ->
   parts_value 8 (octets (mkIPv4 [10; 1; 2; 0])) <= parts_value 8 (octets (mkIPv4 [10; 1; 2; 77]))) /\
  (checkIpAndSubnet "10.1.2.0" (VNum 24) = Ok (Some msg_broadcast) ->
   parts_value 8 (octets (mkIPv4 [10; 1; 2; 77])) <= parts_value 8 (octets (mkIPv4 [10; 1; 2; 0]))).
Proof.
  apply (flagged_address_extremal "10.1.2.0" "10.1.2.77" (VNum 24)
           (mkIPv4 [10; 1; 2; 0]) (mkIPv4 [10; 1; 2; 77])); vm_compute; reflexivity.
Defined.

(** ** Normalising twice *)

(** X21: normalizing is idempotent: a prefix length c that
    convertSubnetToCidr returns is accepted again, with the same result,
    as the text of c and, unless c is 0, as the number c. *)
Theorem convertSubnetToCidr_idempotent (subnet : value) (ip : string) (c : Z) :
  convertSubnetToCidr subnet ip = Ok (Some c) ->
  convertSubnetToCidr (VStr (Number_toString c)) ip = Ok (Some c) /\
  (c <> 0 -> convertSubnetToCidr (VNum c) ip = Ok (Some c)).
Proof.
  intros Hc.
  pose proof (convertSubnetToCidr_bound subnet ip _ c (getIpVersion_spec ip) Hc) as Hb.
  destruct (Z.eq_dec c 0) as [->|Hz].
  - split; [|congruence]. unfold convertSubnetToCidr. rewrite getIpVersion_spec.
    destruct (ipaddr.isValid ip); [destruct (IPv6.isValid ip)|]; vm_compute; reflexivity.
  - assert (H : convertSubnetToCidr (VNum c) ip = Ok (Some c))
      by (apply (convertSubnetToCidr_num_in_range ip _ c (getIpVersion_spec ip)); lia).
    split; [|auto]. now rewrite convertSubnetToCidr_text.
Qed.

Lemma convertSubnetToCidr_idempotent_witness :
  convertSubnetToCidr (VStr (Number_toString 23)) "10.0.0.1" = Ok (Some 23) /\
  (23 <> 0 -> convertSubnetToCidr (VNum 23) "10.0.0.1" = Ok (Some 23)).
Proof.
  apply (convertSubnetToCidr_idempotent (VStr " 255.255.254.0 ") "10.0.0.1" 23).
  vm_compute. reflexivity.
Defined.

(** ** The computed network and broadcast addresses are flagged *)

Lemma sub_mod_mod (A P : Z) : 0 < P -> (A - A mod P) mod P = 0.
Proof.
  intros HP. rewrite (Z.div_mod A P) at 1 by lia.
  replace (P * (A / P) + A mod P - A mod P) with ((A / P) * P) by lia.
  apply Z.mod_mul. lia.
Qed.

Lemma sub_mod_top_mod (A P : Z) : 0 < P -> (A - A mod P + (P - 1)) mod P = P - 1.
Proof.
  intros HP. rewrite (Z.div_mod A P) at 1 by lia.
  replace (P * (A / P) + A mod P - A mod P + (P - 1)) with ((P - 1) + (A / P) * P) by lia.
  rewrite Z.mod_add by lia. apply Z.mod_small. lia.
Qed.

(** X22: for a valid IPv4 address and a subnet of prefix
    length below 31, checkIpAndSubnet flags the network address computed
    for address/prefix as network address and the computed broadcast
    address as broadcast address. *)
Theorem checkIpAndSubnet_flags_computed (ip : string) (subnet : value) (c : Z) :
  validateIp ip = true -> getIpVersion ip = Ok (Some ipv4) ->
  convertSubnetToCidr subnet ip = Ok (Some c) -> c < 31 ->
  exists n b,
    IPv4.networkAddressFromCIDR (ip ++ "/" ++ Number_toString c) = Ok n /\
    IPv4.broadcastAddressFromCIDR (ip ++ "/" ++ Number_toString c) = Ok b /\
    checkIpAndSubnet (IPv4.toString n) subnet = Ok (Some msg_network) /\
    checkIpAndSubnet (IPv4.toString b) subnet = Ok (Some msg_broadcast).
Proof.
  intros Hv Hk Hc H31.
  pose proof (convertSubnetToCidr_ipv4_range subnet ip c Hk Hc) as Hr.
  destruct (cidr_helpers_total ip c Hv Hk Hr)
    as (a0 & a1 & a2 & a3 & m0 & m1 & m2 & m3 & Hp4 & Hm & Hn & Hb).
  destruct (subnetMaskFromPrefixLength_spec c Hr)
    as (m0' & m1' & m2' & m3' & Hm' & M0 & M1 & M2 & M3 & _).
  rewrite Hm in Hm'. injection Hm' as <- <- <- <-.
  destruct (wf4_inv _ (IPv4_parse_wf _ _ Hp4)) as (x0 & x1 & x2 & x3 & Ex & A0 & A1 & A2 & A3).
  injection Ex as <- <- <- <-.
  assert (B255 : byte 255) by (unfold byte; lia).
  destruct (cidr_values a0 a1 a2 a3 c m0 m1 m2 m3 A0 A1 A2 A3 Hr Hm) as [Vn Vb].
  assert (HP : 1 < 2 ^ (32 - c)).
  { change 1 with (2 ^ 0). apply Z.pow_lt_mono_r; lia. }
  assert (L31 : (c <? 31) = true) by (apply Z.ltb_lt; lia).
  assert (G : forall x0 x1 x2 x3, byte x0 -> byte x1 -> byte x2 -> byte x3 ->
            let t := IPv4.toString (mkIPv4 [x0; x1; x2; x3]) in
            validateIp t = true /\ ipaddr.parse t = Ok (V4 (mkIPv4 [x0; x1; x2; x3])) /\
            convertSubnetToCidr subnet t = Ok (Some c)).
  { intros x0 x1 x2 x3 X0 X1 X2 X3 t.
    destruct (toString_valid x0 x1 x2 x3 X0 X1 X2 X3) as [Hv' Hp'].
    split; [assumption|]. split; [assumption|].
    rewrite (convertSubnetToCidr_family subnet t ip); [assumption|].
    destruct (validateIp_parse _ Hv') as (a & Ha & Hk'). fold t in Hk'. rewrite Hk', Hk.
    unfold t in Ha. rewrite Hp' in Ha. now injection Ha as <-. }
  eexists. eexists. split; [exact Hn|]. split; [exact Hb|]. split.
  - destruct (G (Z.land a0 m0) (Z.land a1 m1) (Z.land a2 m2) (Z.land a3 m3))
      as (Hv' & Hp' & Hc'); auto using byte_land.
    destruct (checkIpAndSubnet_ipv4_values _ subnet _ c Hv' Hp' Hc') as (_ & _ & ->).
    cbn [octets]. rewrite Vn, L31.
    set (A := parts_value 8 [a0; a1; a2; a3]). set (P := 2 ^ (32 - c)) in *.
    rewrite sub_mod_mod by lia. rewrite Z.sub_0_r, Z.eqb_refl. reflexivity.
  - destruct (G (Z.lor a0 (Z.lxor m0 255)) (Z.lor a1 (Z.lxor m1 255))
                (Z.lor a2 (Z.lxor m2 255)) (Z.lor a3 (Z.lxor m3 255)))
      as (Hv' & Hp' & Hc'); auto using byte_lor, byte_lxor.
    destruct (checkIpAndSubnet_ipv4_values _ subnet _ c Hv' Hp' Hc') as (_ & _ & ->).
    cbn [octets]. rewrite Vb, L31.
    set (A := parts_value 8 [a0; a1; a2; a3]). set (P := 2 ^ (32 - c)) in *.
    rewrite sub_mod_top_mod by lia.
    replace (A - A mod P + (P - 1) =? A - A mod P + (P - 1) - (P - 1)) with false
      by (symmetry; apply Z.eqb_neq; lia).
    replace (A - A mod P + (P - 1) - (P - 1) + (P - 1)) with (A - A mod P + (P - 1)) by lia.
    rewrite Z.eqb_refl. reflexivity.
Qed.

Lemma checkIpAndSubnet_flags_computed_witness :
  exists n b,
    IPv4.networkAddressFromCIDR ("10.20.30.40" ++ "/" ++ Number_toString 20) = Ok n /\
    IPv4.broadcastAddressFromCIDR ("10.20.30.40" ++ "/" ++ Number_toString 20) = Ok b /\
    checkIpAndSubnet (IPv4.toString n) (VNum 20) = Ok (Some msg_network) /\
    checkIpAndSubnet (IPv4.toString b) (VNum 20) = Ok (Some msg_broadcast).
Proof.
  apply (checkIpAndSubnet_flags_computed "10.20.30.40" (VNum 20) 20);
    vm_compute; reflexivity.
Defined.
